(** * Wallet monitor, daily PnL aggregator and push hub

    A shallow embedding of the balance-delta wallet monitor
    ([WalletMonitorServiceNew], services/wallet/monitor-new.ts) and of the
    WebSocket push hub ([WebSocketService], services/websocket/server.ts).

    Conventions of the embedding:
    - a JavaScript [Date] is its epoch value in milliseconds, a [Z];
    - a JavaScript [number] is held by its value, an exact rational [Q],
      [NaN] being [None]. The SOL balances and their delta are computed
      as the code computes them, in IEEE 754 binary64 with its rounding
      ([Binary64]); token amounts come from the node as numbers and
      their differences, like the sums of the PnL aggregator, are taken
      exactly. A decimal column of the database is held by its numeric
      value, so that [toString] and [parseFloat] are the identity;
    - [Map] and [Set] objects of the process are [gmap] and [gset];
      database tables are lists of rows in table order;
    - an [async] method is a computation over the explicit process state
      that either returns or throws, the state reached at the throw being
      kept (nothing is rolled back).

    Embedded are the day boundaries, the per-signature pipeline
    ([processTransaction], [classifyAndSaveTransaction]), the PnL
    aggregator ([initializeDailyPnL], [updateDailyPnL]), the polling
    cycle around the pipeline and, of the hub, connections,
    subscriptions, fan-out and snapshot assembly. The balance fetch with
    its events is left out. *)

From Stdlib Require Import ZArith QArith Qabs Lia Lqa SpecFloat.
From stdpp Require Import gmap strings list.

(** ** Rational helpers *)

Definition Qlt_bool (x y : Q) : bool := negb (Qle_bool y x).

(** ** Doubles

    A JavaScript number is an IEEE 754 binary64 value: [spec_float] with
    a mantissa of 53 bits and exponents up to 1024, under the operations
    of the Standard Library's specification of floating-point arithmetic,
    which round to nearest, ties to even. *)

Module Binary64.
Local Open Scope Z_scope.

Definition prec : Z := 53.
Definition emax : Z := 1024.

(** The number that an integer of the JSON text, or of the program text,
    becomes: the nearest double. *)
Definition ofZ (z : Z) : spec_float := binary_normalize prec emax z 0 false.

(** [x / y] and [x - y] *)
Definition div (x y : spec_float) : spec_float := SFdiv prec emax x y.

Definition sub (x y : spec_float) : spec_float := SFsub prec emax x y.

(** The value of a double, exactly; [None] is [NaN]. No integer below
    2^1024, so no lamport balance, gives an infinity; it is [None] as
    well. *)
Definition toQ (x : spec_float) : option Q :=
  match x with
  | S754_zero _ => Some 0%Q
  | S754_finite s m e =>
      let n := if s then Zneg m else Zpos m in
      Some (match e with
            | Zneg p => n # (2 ^ p)
            | _ => inject_Z (n * 2 ^ e)
            end)
  | S754_infinity _ | S754_nan => None
  end.

End Binary64.

(** ** Clock and day boundaries *)

Module Clock.
Local Open Scope Z_scope.

(** [private readonly PST_OFFSET = -8]. *)
Definition PST_OFFSET : Z := -8.

Definition msPerMinute : Z := 60000.
Definition msPerHour : Z := 3600000.
Definition msPerDay : Z := 86400000.

(** The host is described by what [Date.prototype.getTimezoneOffset]
    returns on it: UTC minus local time, in minutes, taken constant (a host
    zone without daylight saving). *)
Section Host.
Variable tzOffset : Z.

(** [getPSTDate]: [date.getTime() + date.getTimezoneOffset() * 60000],
    then [+ 3600000 * PST_OFFSET]. *)
Definition getPSTDate (date : Z) : Z :=
  let utc := date + tzOffset * msPerMinute in
  utc + msPerHour * PST_OFFSET.

(** [Date.prototype.setHours(h, m, s, ms)]: the fields of the date in the
    host's local time are replaced, the local calendar day is kept. *)
Definition setHours (d h m s ms : Z) : Z :=
  let local := d - tzOffset * msPerMinute in
  let midnight := (local / msPerDay) * msPerDay in
  midnight + h * msPerHour + m * msPerMinute + s * 1000 + ms
  + tzOffset * msPerMinute.

Definition getPSTStartOfDay (date : Z) : Z :=
  setHours (getPSTDate date) 0 0 0 0.

Definition getPSTEndOfDay (date : Z) : Z :=
  setHours (getPSTDate date) 23 59 59 999.
End Host.

(** The day boundary as the specification words it: start and end of the
    day that contains the instant in the fixed zone UTC-8. *)
Definition dayStart_spec (t : Z) : Z :=
  ((t - 8 * msPerHour) / msPerDay) * msPerDay + 8 * msPerHour.

Definition dayEnd_spec (t : Z) : Z :=
  dayStart_spec t + msPerDay - 1.

(** The "is it from today" test of [processTransaction] compares values
    that are all shifted alike, so the test itself is the same on every
    host. *)
Definition isToday (tz now blockTimeMs : Z) : bool :=
  let txDate := getPSTDate tz blockTimeMs in
  negb ((txDate <? getPSTStartOfDay tz now)
        || (getPSTEndOfDay tz now <? txDate)).

End Clock.

(** ** Chain client: what a parsed transaction exposes *)

Module Chain.

(** An entry of [meta.preTokenBalances] or [meta.postTokenBalances]; [owner]
    is optional on the wire and [uiTokenAmount.uiAmount] may be null. *)
Record tokenBalance := {
  accountIndex : Z;
  mint : string;
  owner : option string;
  uiAmount : option Q;
}.

(** A parsed transaction whose [meta] is present. The two token-balance
    arrays may be null or missing, which is [None]. [accountKeys] holds
    [pubkey.toString()] of each key, in order. *)
Record parsedTx := {
  err : bool;
  preBalances : list Z;
  postBalances : list Z;
  preTokenBalances : option (list tokenBalance);
  postTokenBalances : option (list tokenBalance);
  accountKeys : list string;
}.

(** [connection.getParsedTransaction]: the call rejects, or resolves to a
    transaction; [RpcOk None] is a null result or one without [meta]. *)
Inductive rpcResult :=
  | RpcFailed
  | RpcOk (tx : option parsedTx).

End Chain.

(** ** Store: the three tables the core reads and writes *)

Module Store.
Local Open Scope Z_scope.

Record userRow := {
  user_id : Z;
  displayName : string;
  user_walletAddress : string;
  isLive : bool;
  lastActive : option Z;
}.

Inductive tradeType := buy | sell | deposit | withdrawal.

(** The values object handed to [db.insert(tradesTable).values(...)]. *)
Record tradeData := {
  trade_userId : option Z;
  signature : string;
  trade_walletAddress : string;
  tokenA : string;
  tokenB : string;
  type : tradeType;
  amountA : Q;
  amountB : Q;
  priceUsd : Q;
  platform : string;
  txFees : Q;
  timestamp : Z;
  rawData : Chain.parsedTx;
  tradePnl : Q;
}.

Record tradeRow := {
  trade_id : Z;
  trade_values : tradeData;
}.

Record pnlRow := {
  pnl_id : Z;
  pnl_userId : option Z;
  pnl_walletAddress : string;
  pnl_date : Z;
  pnl_startBalance : Q;
  pnl_endBalance : option Q;
  pnl_realizedPnl : Q;
  pnl_totalTrades : Z;
  pnl_lastTradeId : option Z;
  pnl_createdAt : Z;
  pnl_updatedAt : Z;
}.

(** The database: three tables and the identity sequences of two. *)
Record db := {
  users : list userRow;
  trades : list tradeRow;
  pnlRecords : list pnlRow;
  tradesSeq : Z;
  pnlSeq : Z;
}.

(** Every statement the core issues, with what it is issued on; a
    statement may fail, which is what the environment decides. *)
Inductive dbOp :=
  | SelectTradeBySignature (sig : string)
  | UpsertTrade (d : tradeData)
  | SelectPnl (wallet : string) (date : Z)
  | SelectLastPnl (wallet : string)
  | InsertPnl (wallet : string) (date : Z)
  | UpdatePnl (wallet : string) (date : Z)
  | UpdateUser (id : Z)
  | SelectUsers
  | SelectUser (wallet : string)
  | SelectLatestTrade (wallet : string)
  | SelectTradeById (id : Z).

(** [ORDER BY key DESC LIMIT 1]: a row of greatest key, the first such in
    table order. *)
Fixpoint latestBy {A : Type} (key : A -> Z) (l : list A) : option A :=
  match l with
  | [] => None
  | x :: l' =>
      match latestBy key l' with
      | None => Some x
      | Some y => if key x <? key y then Some y else Some x
      end
  end.

(** [select().from(tradesTable).where(eq(signature, sig)).limit(1)] *)
Definition selectTradeBySignature (sig : string) (d : db) : list tradeRow :=
  take 1 (filter (fun r => signature (trade_values r) = sig) (trades d)).

(** [insert(tradesTable).values(v).onConflictDoUpdate({target: signature,
    set: v})]: a row with this signature has its columns overwritten and
    keeps its id, else a row is appended under the next id. The id is
    drawn from the identity sequence before the conflict is seen, so the
    sequence moves on in both cases. *)
Definition upsertTrade (v : tradeData) (d : db) : db :=
  if bool_decide (Exists (fun r => signature (trade_values r) = signature v)
                    (trades d))
  then {| users := users d;
          trades := map (fun r =>
                      if bool_decide (signature (trade_values r) = signature v)
                      then {| trade_id := trade_id r; trade_values := v |}
                      else r) (trades d);
          pnlRecords := pnlRecords d;
          tradesSeq := tradesSeq d + 1; pnlSeq := pnlSeq d |}
  else {| users := users d;
          trades := trades d ++ [{| trade_id := tradesSeq d;
                                    trade_values := v |}];
          pnlRecords := pnlRecords d;
          tradesSeq := tradesSeq d + 1; pnlSeq := pnlSeq d |}.

Definition pnlKeyed (wallet : string) (date : Z) (r : pnlRow) : bool :=
  bool_decide (pnl_walletAddress r = wallet) && (pnl_date r =? date).

(** [select().from(pnlRecordsTable).where(and(eq(walletAddress, w),
    eq(date, d))).limit(1)] *)
Definition selectPnl (wallet : string) (date : Z) (d : db) : list pnlRow :=
  take 1 (filter (fun r => pnlKeyed wallet date r = true) (pnlRecords d)).

(** [select().from(pnlRecordsTable).where(eq(walletAddress, w))
    .orderBy(desc(date)).limit(1)] *)
Definition selectLastPnl (wallet : string) (d : db) : list pnlRow :=
  option_list
    (latestBy pnl_date
       (filter (fun r => pnl_walletAddress r = wallet) (pnlRecords d))).

(** [insert(pnlRecordsTable).values(...)]; the row given carries every
    column but the id. *)
Definition insertPnl (r : pnlRow) (d : db) : db :=
  {| users := users d; trades := trades d;
     pnlRecords := pnlRecords d ++
       [{| pnl_id := pnlSeq d; pnl_userId := pnl_userId r;
           pnl_walletAddress := pnl_walletAddress r; pnl_date := pnl_date r;
           pnl_startBalance := pnl_startBalance r;
           pnl_endBalance := pnl_endBalance r;
           pnl_realizedPnl := pnl_realizedPnl r;
           pnl_totalTrades := pnl_totalTrades r;
           pnl_lastTradeId := pnl_lastTradeId r;
           pnl_createdAt := pnl_createdAt r;
           pnl_updatedAt := pnl_updatedAt r |}];
     tradesSeq := tradesSeq d; pnlSeq := pnlSeq d + 1 |}.

(** [update(pnlRecordsTable).set(...).where(and(eq(walletAddress, w),
    eq(date, d)))]: every row under the key is changed. *)
Definition updatePnl (wallet : string) (date : Z) (f : pnlRow -> pnlRow)
    (d : db) : db :=
  {| users := users d; trades := trades d;
     pnlRecords := map (fun r => if pnlKeyed wallet date r then f r else r)
                       (pnlRecords d);
     tradesSeq := tradesSeq d; pnlSeq := pnlSeq d |}.

(** [update(usersTable).set({lastActive: new Date()}).where(eq(id, i))] *)
Definition updateUserLastActive (id now : Z) (d : db) : db :=
  {| users := map (fun u =>
                if user_id u =? id
                then {| user_id := user_id u; displayName := displayName u;
                        user_walletAddress := user_walletAddress u;
                        isLive := isLive u; lastActive := Some now |}
                else u) (users d);
     trades := trades d; pnlRecords := pnlRecords d;
     tradesSeq := tradesSeq d; pnlSeq := pnlSeq d |}.

(** [select().from(usersTable).where(eq(walletAddress, w)).limit(1)] *)
Definition selectUser (wallet : string) (d : db) : list userRow :=
  take 1 (filter (fun u => user_walletAddress u = wallet) (users d)).

(** [select().from(tradesTable).where(eq(walletAddress, w))
    .orderBy(desc(timestamp)).limit(1)] *)
Definition selectLatestTrade (wallet : string) (d : db) : list tradeRow :=
  option_list
    (latestBy (fun r => timestamp (trade_values r))
       (filter (fun r => trade_walletAddress (trade_values r) = wallet)
          (trades d))).

(** [select().from(tradesTable).where(eq(id, i)).limit(1)] *)
Definition selectTradeById (id : Z) (d : db) : list tradeRow :=
  take 1 (filter (fun r => trade_id r = id) (trades d)).

(** [ORDER BY lastActive DESC]: nulls come first, as PostgreSQL orders
    them; rows of equal key keep their table order. *)
Definition laterActive (a b : userRow) : bool :=
  match lastActive a, lastActive b with
  | None, _ => true
  | Some _, None => false
  | Some x, Some y => y <=? x
  end.

Fixpoint insertUser (u : userRow) (l : list userRow) : list userRow :=
  match l with
  | [] => [u]
  | v :: l' => if laterActive u v then u :: l else v :: insertUser u l'
  end.

Definition selectUsersByLastActive (d : db) : list userRow :=
  foldr insertUser [] (users d).

End Store.

(** ** Monitor and PnL aggregator *)

Module Monitor.
Import Chain Store.

(** The native-wrapped mint. *)
Definition WSOL : string := "So11111111111111111111111111111111111111112".

(** [0.000001], the threshold of the test on a token delta. *)
Definition EPS : Q := 1 # 1000000.

(** [0.000001] as the test on [solChange] has it: the literal is the
    double nearest to 10^-6, 4722366482869645 * 2^-72, a little below
    10^-6, and [solChange] is a double that can be equal to it. *)
Definition EPS64 : Q := 4722366482869645 # 4722366482869645213696.

Record walletInfo := {
  userId : option Z;
  lastSignature : option string;
}.

(** An entry of [dailyPnLCache]. *)
Record pnlCache := {
  date : Z;
  startBalance : Q;
  currentBalance : Q;
  realizedPnl : Q;
  totalTrades : Z;
}.

(** The payload of a ["pnl"] event. *)
Record pnlSnapshot := {
  snap_date : Z;
  snap_startBalance : Q;
  snap_currentBalance : Q;
  snap_realizedPnl : Q;
  snap_totalTrades : Z;
  snap_lastTradeId : option Z;
  snap_timestamp : Z;
}.

(** What the service emits: [emit("trade", wallet, {...tradeData, id})]
    and [emit("pnl", wallet, snapshot)]. *)
Inductive event :=
  | EvTrade (wallet : string) (id : Z) (t : tradeData)
  | EvPnl (wallet : string) (p : pnlSnapshot).

(** The process: the three in-memory containers, the database it talks
    to, and the events emitted so far, oldest first. *)
Record state := {
  activeWallets : gmap string walletInfo;
  dailyPnLCache : gmap string pnlCache;
  processedTransactions : gset string;
  database : db;
  emitted : list event;
}.

(** What a call sees of the outside: the instant [new Date()] yields, the
    host's [getTimezoneOffset()], the RPC node, and which database
    statements fail. *)
Record env := {
  now : Z;
  tzOffset : Z;
  getParsedTransaction : string -> rpcResult;
  dbThrows : dbOp -> bool;
}.

Inductive exn :=
  | DbError (op : dbOp)
  | RpcError (sig : string).

Inductive outcome (A : Type) :=
  | Ok (a : A)
  | Threw (x : exn).
Arguments Ok {A} a.
Arguments Threw {A} x.

(** A method body: runs from a state, returns or throws, and leaves a
    state. *)
Definition M (A : Type) : Type := state -> outcome A * state.

Definition ret {A} (a : A) : M A := fun s => (Ok a, s).

Definition bind {A B} (m : M A) (f : A -> M B) : M B :=
  fun s => match m s with
           | (Ok a, s') => f a s'
           | (Threw x, s') => (Threw x, s')
           end.

Definition throw {A} (x : exn) : M A := fun s => (Threw x, s).

(** [try { m } catch (error) { h }] *)
Definition tryCatch {A} (m : M A) (h : exn -> M A) : M A :=
  fun s => match m s with
           | (Ok a, s') => (Ok a, s')
           | (Threw x, s') => h x s'
           end.

Definition gets {A} (f : state -> A) : M A := fun s => (Ok (f s), s).

Definition modify (f : state -> state) : M unit := fun s => (Ok tt, f s).

Notation "'do' x <- m ; k" := (bind m (fun x => k))
  (at level 10, x name, m at level 100, k at level 200).
Notation "'exec' m ; k" := (bind m (fun _ => k))
  (at level 10, m at level 100, k at level 200).

Definition run {A} (m : M A) (s : state) : state := snd (m s).

(** *** State updates *)

Definition setDatabase (d : db) (s : state) : state :=
  {| activeWallets := activeWallets s; dailyPnLCache := dailyPnLCache s;
     processedTransactions := processedTransactions s;
     database := d; emitted := emitted s |}.

Definition setCache (w : string) (c : pnlCache) (s : state) : state :=
  {| activeWallets := activeWallets s;
     dailyPnLCache := <[w := c]> (dailyPnLCache s);
     processedTransactions := processedTransactions s;
     database := database s; emitted := emitted s |}.

(** [this.processedTransactions.add(signature)] *)
Definition addProcessed (sig : string) (s : state) : state :=
  {| activeWallets := activeWallets s; dailyPnLCache := dailyPnLCache s;
     processedTransactions := {[sig]} ∪ processedTransactions s;
     database := database s; emitted := emitted s |}.

Definition pushEvent (e : event) (s : state) : state :=
  {| activeWallets := activeWallets s; dailyPnLCache := dailyPnLCache s;
     processedTransactions := processedTransactions s;
     database := database s; emitted := emitted s ++ [e] |}.

(** *** Token deltas of one transaction *)

Record tokenChange := {
  tc_mint : string;
  preAmount : Q;
  postAmount : Q;
  change : Q;
}.

(** [b?.uiTokenAmount?.uiAmount ?? 0] *)
Definition amountOf (b : option tokenBalance) : Q :=
  match b with
  | Some b => default 0%Q (uiAmount b)
  | None => 0%Q
  end.

(** A null or missing balance array is walked as an empty one. *)
Definition orEmpty {A} (l : option (list A)) : list A := default [] l.

(** The body of [postTokenBalances.forEach((post) => ...)]; [acc] is
    [tokenChanges] as pushed so far. *)
Definition postStep (walletAddress : string) (pres : list tokenBalance)
    (acc : list tokenChange) (post : tokenBalance) : list tokenChange :=
  if bool_decide (owner post = Some walletAddress) then
    let pre := find (fun p => (accountIndex p =? accountIndex post)%Z) pres in
    let preAmt := amountOf pre in
    let postAmt := default 0%Q (uiAmount post) in
    let chg := (postAmt - preAmt)%Q in
    if Qlt_bool EPS (Qabs chg)
    then acc ++ [{| tc_mint := mint post; preAmount := preAmt;
                    postAmount := postAmt; change := chg |}]
    else acc
  else acc.

(** The body of [preTokenBalances.forEach((pre) => ...)]. *)
Definition preStep (walletAddress : string) (posts : list tokenBalance)
    (acc : list tokenChange) (pre : tokenBalance) : list tokenChange :=
  let alreadyProcessed :=
    existsb (fun tc =>
      existsb (fun post =>
        (accountIndex post =? accountIndex pre)%Z
        && bool_decide (mint post = tc_mint tc)) posts) acc in
  if negb alreadyProcessed && bool_decide (owner pre = Some walletAddress)
  then
    let preAmt := default 0%Q (uiAmount pre) in
    if Qlt_bool 0 preAmt
    then acc ++ [{| tc_mint := mint pre; preAmount := preAmt;
                    postAmount := 0; change := (- preAmt)%Q |}]
    else acc
  else acc.

(** [tokenChanges] as it stands once both loops of [processTransaction]
    have run. *)
Definition tokenChanges (walletAddress : string) (tx : parsedTx)
    : list tokenChange :=
  let pres := orEmpty (preTokenBalances tx) in
  let posts := orEmpty (postTokenBalances tx) in
  fold_left (preStep walletAddress posts) pres
    (fold_left (postStep walletAddress pres) posts []).

(** The token deltas as the specification words them: each post balance
    of the wallet paired with the pre balance at the same account index,
    then each pre balance of the wallet that has a positive amount and no
    post balance at its index, as a full exit; of all these, the entries
    whose change is beyond [0.000001] in absolute value survive. *)
Definition pairedEntry (pres : list tokenBalance) (post : tokenBalance)
    : tokenChange :=
  let preAmt :=
    amountOf (find (fun p => (accountIndex p =? accountIndex post)%Z) pres) in
  let postAmt := default 0%Q (uiAmount post) in
  {| tc_mint := mint post; preAmount := preAmt; postAmount := postAmt;
     change := (postAmt - preAmt)%Q |}.

Definition exitEntry (pre : tokenBalance) : tokenChange :=
  let preAmt := default 0%Q (uiAmount pre) in
  {| tc_mint := mint pre; preAmount := preAmt; postAmount := 0;
     change := (- preAmt)%Q |}.

Definition survives (tc : tokenChange) : bool :=
  Qlt_bool EPS (Qabs (change tc)).

Definition ownedBy (walletAddress : string) (b : tokenBalance) : bool :=
  bool_decide (owner b = Some walletAddress).

Definition hasPostAt (posts : list tokenBalance) (pre : tokenBalance) : bool :=
  existsb (fun post => (accountIndex post =? accountIndex pre)%Z) posts.

Definition pairedEntries (walletAddress : string)
    (pres posts : list tokenBalance) : list tokenChange :=
  map (pairedEntry pres)
    (filter (fun post => ownedBy walletAddress post = true) posts).

Definition exitEntries (walletAddress : string)
    (pres posts : list tokenBalance) : list tokenChange :=
  map exitEntry
    (filter (fun pre => ownedBy walletAddress pre
                        && negb (hasPostAt posts pre)
                        && Qlt_bool 0 (default 0%Q (uiAmount pre)) = true)
            pres).

Definition tokenDeltas_spec (walletAddress : string) (tx : parsedTx)
    : list tokenChange :=
  let pres := orEmpty (preTokenBalances tx) in
  let posts := orEmpty (postTokenBalances tx) in
  filter (fun tc => survives tc = true)
    (pairedEntries walletAddress pres posts
     ++ exitEntries walletAddress pres posts).


(** [accountKeys.findIndex((a) => a.pubkey.toString() === walletAddress)];
    [None] is [-1]. *)
Fixpoint findIndex (walletAddress : string) (keys : list string)
    : option nat :=
  match keys with
  | [] => None
  | k :: keys' =>
      if bool_decide (k = walletAddress) then Some O
      else S <$> findIndex walletAddress keys'
  end.

(** [balances[i] / 1e9], a division of doubles; out of range the element
    is [undefined] and the quotient is [NaN]. *)
Definition solAt (balances : list Z) (i : nat) : spec_float :=
  match balances !! i with
  | Some l => Binary64.div (Binary64.ofZ l) (Binary64.ofZ 1000000000)
  | None => S754_nan
  end.

(** [postSol - preSol], a subtraction of doubles, by its value. *)
Definition solDelta (preSol postSol : spec_float) : option Q :=
  Binary64.toQ (Binary64.sub postSol preSol).

(** [Math.abs(solChange) < 0.000001]; a comparison with [NaN] is false. *)
Definition negligible (solChange : option Q) : bool :=
  match solChange with
  | Some c => Qlt_bool (Qabs c) EPS64
  | None => false
  end.

(** [solChange < 0] and [solChange > 0]. *)
Definition isNegative (solChange : option Q) : bool :=
  match solChange with Some c => Qlt_bool c 0 | None => false end.

Definition isPositive (solChange : option Q) : bool :=
  match solChange with Some c => Qlt_bool 0 c | None => false end.

Section WithEnv.
Variable e : env.

(** A read: fails when the environment says so, else answers from the
    tables. *)
Definition dbRead {A} (op : dbOp) (q : db -> A) : M A :=
  fun s => if dbThrows e op then (Threw (DbError op), s)
           else (Ok (q (database s)), s).

(** A write: fails when the environment says so and then changes
    nothing, else changes the tables. *)
Definition dbWrite (op : dbOp) (u : db -> db) : M unit :=
  fun s => if dbThrows e op then (Threw (DbError op), s)
           else (Ok tt, setDatabase (u (database s)) s).

Definition today : Z := Clock.getPSTStartOfDay (tzOffset e) (now e).

(** [this.activeWallets.get(walletAddress)?.userId] *)
Definition userIdOf (w : string) (s : state) : option Z :=
  match activeWallets s !! w with
  | Some info => userId info
  | None => None
  end.

(** *** [initializeDailyPnL] *)
Definition initializeDailyPnL (walletAddress : string)
    (balance : Q) : M unit :=
  do existingRecord <- dbRead (SelectPnl walletAddress today)
                      (selectPnl walletAddress today) ;
  match existingRecord with
  | [] =>
      do lastRecord <- dbRead (SelectLastPnl walletAddress)
                      (selectLastPnl walletAddress) ;
      let start :=
        match lastRecord with
        | r :: _ =>
            match pnl_endBalance r with
            | Some b => b
            | None => balance
            end
        | [] => balance
        end in
      do uid <- gets (userIdOf walletAddress) ;
      exec dbWrite (InsertPnl walletAddress today)
        (insertPnl {| pnl_id := 0; pnl_userId := uid;
                      pnl_walletAddress := walletAddress;
                      pnl_date := today;
                      pnl_startBalance := start;
                      pnl_endBalance := Some balance;
                      pnl_realizedPnl := 0;
                      pnl_totalTrades := 0;
                      pnl_lastTradeId := None;
                      pnl_createdAt := now e;
                      pnl_updatedAt := now e |}) ;
      modify (setCache walletAddress
                {| date := today; startBalance := start;
                   currentBalance := balance;
                   realizedPnl := 0; totalTrades := 0 |})
  | _ :: _ => ret tt
  end.

(** [if (lastTradeId)]: an id that is there and not zero. *)
Definition truthyId (i : option Z) : option Z :=
  match i with
  | Some n => if (n =? 0)%Z then None else Some n
  | None => None
  end.

(** *** [updateDailyPnL] *)
Definition updateDailyPnL (walletAddress : string) (balance tradePnl : Q)
    (lastTradeId : option Z) : M unit :=
  do cache <- gets (fun s => dailyPnLCache s !! walletAddress) ;
  match cache with
  | None => initializeDailyPnL walletAddress balance
  | Some c =>
      let c' :=
        {| date := date c; startBalance := startBalance c;
           currentBalance := balance;
           realizedPnl := (realizedPnl c + tradePnl)%Q;
           totalTrades := if Qeq_bool tradePnl 0 then totalTrades c
                          else (totalTrades c + 1)%Z |} in
      exec modify (setCache walletAddress c') ;
      exec dbWrite (UpdatePnl walletAddress (date c'))
        (updatePnl walletAddress (date c') (fun r =>
           {| pnl_id := pnl_id r; pnl_userId := pnl_userId r;
              pnl_walletAddress := pnl_walletAddress r;
              pnl_date := pnl_date r;
              pnl_startBalance := pnl_startBalance r;
              pnl_endBalance := Some balance;
              pnl_realizedPnl := realizedPnl c';
              pnl_totalTrades := totalTrades c';
              pnl_lastTradeId :=
                match truthyId lastTradeId with
                | Some i => Some i
                | None => pnl_lastTradeId r
                end;
              pnl_createdAt := pnl_createdAt r;
              pnl_updatedAt := now e |})) ;
      modify (pushEvent (EvPnl walletAddress
                {| snap_date := date c';
                   snap_startBalance := startBalance c';
                   snap_currentBalance := currentBalance c';
                   snap_realizedPnl := realizedPnl c';
                   snap_totalTrades := totalTrades c';
                   snap_lastTradeId := lastTradeId;
                   snap_timestamp := now e |}))
  end.

(** *** [updateUserBalance]; the balance handed to it is not used by the
    body, and its own [try]/[catch] swallows a failed update. *)
Definition updateUserBalance (walletAddress : string) : M unit :=
  do uid <- gets (userIdOf walletAddress) ;
  match truthyId uid with
  | None => ret tt
  | Some id =>
      tryCatch (dbWrite (UpdateUser id) (updateUserLastActive id (now e)))
               (fun _ => ret tt)
  end.

(** *** [classifyAndSaveTransaction] *)

Definition rpcGetParsedTransaction (sig : string) : M (option parsedTx) :=
  fun s => match getParsedTransaction e sig with
           | RpcFailed => (Threw (RpcError sig), s)
           | RpcOk tx => (Ok tx, s)
           end.

(** The body of [for (const tokenChange of tokenChanges)]. In the trade
    branch [solChange] is a number, since one of the two sign tests
    held, and so is the post balance it was computed from; the defaults
    below are never taken there. The id sent with the event is
    [result.insertId || 0], and the driver's result has no [insertId]. *)
Definition classifyOne (signature walletAddress : string)
    (solChange : option Q) (tx : parsedTx) (blockTime : Z)
    (tc : tokenChange) : M unit :=
  if bool_decide (tc_mint tc = WSOL) then ret tt
  else
    let isBuy := Qlt_bool 0 (change tc) && isNegative solChange in
    let isSell := Qlt_bool (change tc) 0 && isPositive solChange in
    if isBuy || isSell then
      let absSol := Qabs (default 0%Q solChange) in
      let pnl := if isBuy then (- absSol)%Q else absSol in
      do uid <- gets (userIdOf walletAddress) ;
      let tradeData :=
        {| trade_userId := uid; signature := signature;
           trade_walletAddress := walletAddress;
           tokenA := tc_mint tc; tokenB := WSOL;
           type := if isBuy then buy else sell;
           amountA := Qabs (change tc); amountB := absSol;
           priceUsd := 0; platform := "unknown"; txFees := 0;
           timestamp := (blockTime * 1000)%Z; rawData := tx;
           tradePnl := pnl |} in
      exec dbWrite (UpsertTrade tradeData) (upsertTrade tradeData) ;
      exec modify (pushEvent (EvTrade walletAddress 0 tradeData)) ;
      let postSol :=
        match findIndex walletAddress (accountKeys tx) with
        | Some i => Binary64.toQ (solAt (postBalances tx) i)
        | None => None
        end in
      updateDailyPnL walletAddress (default 0%Q postSol) pnl None
    else
      let isDeposit := Qlt_bool 0 (change tc) in
      do uid <- gets (userIdOf walletAddress) ;
      let transferData :=
        {| trade_userId := uid; signature := signature;
           trade_walletAddress := walletAddress;
           tokenA := tc_mint tc; tokenB := tc_mint tc;
           type := if isDeposit then deposit else withdrawal;
           amountA := Qabs (change tc); amountB := Qabs (change tc);
           priceUsd := 0; platform := "transfer"; txFees := 0;
           timestamp := (blockTime * 1000)%Z; rawData := tx;
           tradePnl := 0 |} in
      dbWrite (UpsertTrade transferData) (upsertTrade transferData).

Fixpoint classifyEach (signature walletAddress : string)
    (solChange : option Q) (tx : parsedTx) (blockTime : Z)
    (tcs : list tokenChange) : M unit :=
  match tcs with
  | [] => ret tt
  | tc :: tcs' =>
      exec classifyOne signature walletAddress solChange tx blockTime tc ;
      classifyEach signature walletAddress solChange tx blockTime tcs'
  end.

Definition classifyAndSaveTransaction (signature walletAddress : string)
    (solChange : option Q) (tcs : list tokenChange) (tx : parsedTx)
    (blockTime : Z) : M unit :=
  if err tx then ret tt
  else classifyEach signature walletAddress solChange tx blockTime tcs.

(** *** [processTransaction] *)

(** [!blockTime]: the argument is missing or zero. *)
Definition truthyTime (blockTime : option Z) : option Z :=
  match blockTime with
  | Some t => if (t =? 0)%Z then None else Some t
  | None => None
  end.

(** The [try] block. Each [return] of the source is a branch that ends;
    [cached] is [this.processedTransactions.add(signature); return]. *)
Definition processTransaction_try (signature walletAddress : string)
    (blockTime : option Z) : M unit :=
  let cached := modify (addProcessed signature) in
  do seen <- gets (fun s =>
               bool_decide (signature ∈ processedTransactions s)) ;
  if seen then ret tt else
  do existingTrade <- dbRead (SelectTradeBySignature signature)
                        (selectTradeBySignature signature) ;
  match existingTrade with
  | _ :: _ => cached
  | [] =>
    match truthyTime blockTime with
    | None => cached
    | Some bt =>
      if negb (Clock.isToday (tzOffset e) (now e) (bt * 1000)%Z)
      then cached
      else
        do tx <- rpcGetParsedTransaction signature ;
        match tx with
        | None => cached
        | Some tx =>
          match findIndex walletAddress (accountKeys tx) with
          | None => cached
          | Some i =>
            let preSol := solAt (preBalances tx) i in
            let postSol := solAt (postBalances tx) i in
            let solChange := solDelta preSol postSol in
            if negligible solChange then cached
            else
              let tcs := tokenChanges walletAddress tx in
              match tcs with
              | [] => ret tt
              | _ :: _ =>
                exec classifyAndSaveTransaction signature walletAddress
                       solChange tcs tx bt ;
                exec updateUserBalance walletAddress ;
                cached
              end
          end
        end
    end
  end.

(** [try { ... } catch (error) { this.processedTransactions.add(signature) }] *)
Definition processTransaction (signature walletAddress : string)
    (blockTime : option Z) : M unit :=
  tryCatch (processTransaction_try signature walletAddress blockTime)
           (fun _ => modify (addProcessed signature)).
End WithEnv.

(** *** Properties of the process state kept by a method *)

(** [m] keeps [I]: from a state with [I] it leaves a state with [I],
    whether it returns or throws. *)
Definition preserves {A} (I : state -> Prop) (m : M A) : Prop :=
  forall s, I s -> I (snd (m s)).

(** The rows of the trades table under a signature. *)
Definition rowsOf (sig : string) (d : db) : list tradeRow :=
  filter (fun r => signature (trade_values r) = sig) (trades d).

(** The unique index on [trades.signature]. *)
Definition uniqueSignatures (d : db) : Prop :=
  NoDup (map (fun r => signature (trade_values r)) (trades d)).

Definition indexed (s : state) : Prop := uniqueSignatures (database s).

(** A restart keeps the database and the events already delivered and
    loses what was in memory. *)
Definition restartOf (s s' : state) : Prop :=
  database s' = database s /\ emitted s' = emitted s.

End Monitor.

(** ** Push hub *)

Module Hub.
Import Store Monitor.

Inductive MessageType :=
  | SUBSCRIBE_WALLET
  | UNSUBSCRIBE_WALLET
  | TRADE_UPDATE
  | BALANCE_UPDATE
  | PNL_UPDATE
  | USERS_LIST
  | USERS_UPDATE
  | ERROR.

(** [ws.readyState] *)
Inductive readyState := CONNECTING | OPEN | CLOSING | CLOSED.

(** A socket: its identity, which is what keys [clients], and its
    state. *)
Record WebSocket := {
  sock : nat;
  ready : readyState;
}.

Record ClientConnection := {
  ws : WebSocket;
  walletAddresses : gset string;
  subscriptions : gset string;
}.

#[global] Instance MessageType_eq_dec : EqDecision MessageType.
Proof. solve_decision. Defined.

#[global] Instance readyState_eq_dec : EqDecision readyState.
Proof. solve_decision. Defined.

(** A client counts as connected while its socket is open. *)
Definition connected (c : ClientConnection) : Prop := ready (ws c) = OPEN.

(** The two sets of a client are kept in step: an address is in the one
    exactly if its tagged form is in the other. *)
Definition coherent (c : ClientConnection) : Prop :=
  forall a : string,
    a ∈ walletAddresses c <-> ("wallet:" +:+ a)%string ∈ subscriptions c.

Section WithMeta.
(** What [TokenMetadataService.getTokenMetadata] resolves to, and the
    lookup itself; the service is outside the files at hand. *)
Variable tokenMetadata : Type.
Variable getTokenMetadata : string -> tokenMetadata.

(** The per-user object both [sendInitialUsersList] and
    [broadcastUserUpdate] build. *)
Record userData := {
  user : userRow;
  lastTrade : option (tradeRow * tokenMetadata * tokenMetadata);
  dailyPnl : option pnlRow;
  balance : Q;
  pnlLastTrade : option tradeRow;
  pnlTokenMetadata : option tokenMetadata;
}.

(** The [data] of a frame. [AckRaw] is the acknowledgement of a
    [walletAddress] that is not a string: the value goes back as it came,
    and [form] is what a template literal makes of it. *)
Inductive payload :=
  | Ack (walletAddress : string) (success : bool)
  | AckRaw (form : string) (success : bool)
  | TradeData (walletAddress : string) (id : Z) (trade : tradeData)
  | PnlData (walletAddress : string) (pnl : pnlSnapshot)
  | UsersData (us : list userData)
  | UserData (u : userData)
  | ErrorData (message : string).

Record WebSocketMessage := {
  msg_type : MessageType;
  data : payload;
}.

(** A frame handed to [ws.send], with the socket it went to. *)
Definition sent : Type := nat * WebSocketMessage.

(** [sendToClient]: nothing leaves unless the socket is open. *)
Definition sendToClient (w : WebSocket) (m : WebSocketMessage)
    : list sent :=
  match ready w with
  | OPEN => [(sock w, m)]
  | _ => []
  end.

Definition sendError (w : WebSocket) (errorMessage : string) : list sent :=
  sendToClient w {| msg_type := ERROR; data := ErrorData errorMessage |}.

(** [clients] is a [Map] walked in insertion order: the list of its
    values. *)
Definition getSubscribedClients (walletAddress : string)
    (clients : list ClientConnection) : list ClientConnection :=
  filter (fun c => walletAddress ∈ walletAddresses c) clients.

Definition broadcastToAll (m : WebSocketMessage)
    (clients : list ClientConnection) : list sent :=
  flat_map (fun c => sendToClient (ws c) m) clients.

Definition broadcastToWalletSubscribers (walletAddress : string)
    (m : WebSocketMessage) (clients : list ClientConnection) : list sent :=
  flat_map (fun c =>
    if bool_decide (walletAddress ∈ walletAddresses c)
    then sendToClient (ws c) m else []) clients.

(** How many frames of one kind a socket was handed. *)
Definition framesTo (s : nat) (k : MessageType) (out : list sent) : nat :=
  length (filter (fun p => p.1 = s /\ msg_type p.2 = k) out).

(** *** Subscriptions *)

Definition handleSubscribeWallet (client : ClientConnection)
    (walletAddress : string) : ClientConnection * list sent :=
  ({| ws := ws client;
      walletAddresses := {[walletAddress]} ∪ walletAddresses client;
      subscriptions :=
        {[("wallet:" +:+ walletAddress)%string]} ∪ subscriptions client |},
   sendToClient (ws client)
     {| msg_type := SUBSCRIBE_WALLET; data := Ack walletAddress true |}).

Definition handleUnsubscribeWallet (client : ClientConnection)
    (walletAddress : string) : ClientConnection * list sent :=
  ({| ws := ws client;
      walletAddresses := walletAddresses client ∖ {[walletAddress]};
      subscriptions :=
        subscriptions client ∖ {[("wallet:" +:+ walletAddress)%string]} |},
   sendToClient (ws client)
     {| msg_type := UNSUBSCRIBE_WALLET; data := Ack walletAddress true |}).

(** *** Snapshot assembly *)

Section WithStore.
Variable dbFails : dbOp -> bool.
Variable d : db.

Definition query {A} (op : dbOp) (q : db -> A) : outcome A :=
  if dbFails op then Threw (DbError op) else Ok (q d).

Definition andThen {A B} (m : outcome A) (f : A -> outcome B)
    : outcome B :=
  match m with
  | Ok a => f a
  | Threw x => Threw x
  end.

(** From "Get latest trade" to the object literal: the text shared by
    the two methods, for the user row [u]. *)
Definition assemble (u : userRow) : outcome userData :=
  let walletAddress := user_walletAddress u in
  andThen (query (SelectLatestTrade walletAddress)
             (selectLatestTrade walletAddress)) (fun trades =>
  let last :=
    match trades with
    | t :: _ => Some (t, getTokenMetadata (tokenA (trade_values t)),
                      getTokenMetadata (tokenB (trade_values t)))
    | [] => None
    end in
  andThen (query (SelectLastPnl walletAddress)
             (selectLastPnl walletAddress)) (fun pnl =>
  let pnl0 := head pnl in
  andThen
    (match truthyId (pnl0 ≫= pnl_lastTradeId) with
     | Some i =>
         andThen (query (SelectTradeById i) (selectTradeById i))
           (fun pnlTrades => Ok (head pnlTrades))
     | None => Ok None
     end) (fun pnlLast =>
  Ok {| user := u;
        lastTrade := last;
        dailyPnl := pnl0;
        balance := default 0%Q (pnl0 ≫= pnl_endBalance);
        pnlLastTrade := pnlLast;
        pnlTokenMetadata :=
          (fun t => getTokenMetadata
             (match type (trade_values t) with
              | buy => tokenA (trade_values t)
              | _ => tokenB (trade_values t)
              end)) <$> pnlLast |}))).

Fixpoint assembleAll (us : list userRow) : outcome (list userData) :=
  match us with
  | [] => Ok []
  | u :: us' =>
      andThen (assemble u) (fun x =>
      andThen (assembleAll us') (fun xs => Ok (x :: xs)))
  end.

(** [sendInitialUsersList] *)
Definition sendInitialUsersList (w : WebSocket) : list sent :=
  match andThen (query SelectUsers selectUsersByLastActive) assembleAll
  with
  | Ok usersWithData =>
      sendToClient w {| msg_type := USERS_LIST;
                        data := UsersData usersWithData |}
  | Threw _ => sendError w "Failed to fetch users data"
  end.

(** [broadcastUserUpdate]; a failure is logged and nothing is sent. *)
Definition broadcastUserUpdate (walletAddress : string)
    (clients : list ClientConnection) : list sent :=
  match query (SelectUser walletAddress) (selectUser walletAddress) with
  | Ok [] => []
  | Ok (u :: _) =>
      match assemble u with
      | Ok userData =>
          broadcastToAll {| msg_type := USERS_UPDATE;
                            data := UserData userData |} clients
      | Threw _ => []
      end
  | Threw _ => []
  end.

(** [handleTradeUpdate]; [tradeData] is the payload of the monitor's
    ["trade"] event. *)
Definition handleTradeUpdate (walletAddress : string) (id : Z)
    (trade : tradeData) (clients : list ClientConnection) : list sent :=
  flat_map (fun client =>
    sendToClient (ws client)
      {| msg_type := TRADE_UPDATE;
         data := TradeData walletAddress id trade |})
    (getSubscribedClients walletAddress clients)
  ++ broadcastUserUpdate walletAddress clients.

(** [handlePnLUpdate] *)
Definition handlePnLUpdate (walletAddress : string) (pnl : pnlSnapshot)
    (clients : list ClientConnection) : list sent :=
  broadcastToWalletSubscribers walletAddress
    {| msg_type := PNL_UPDATE; data := PnlData walletAddress pnl |}
    clients
  ++ broadcastUserUpdate walletAddress clients.
End WithStore.
End WithMeta.

Arguments Ack {tokenMetadata}.
Arguments AckRaw {tokenMetadata}.
Arguments TradeData {tokenMetadata}.
Arguments PnlData {tokenMetadata}.
Arguments UsersData {tokenMetadata}.
Arguments UserData {tokenMetadata}.
Arguments ErrorData {tokenMetadata}.
Arguments Build_WebSocketMessage {tokenMetadata}.
Arguments msg_type {tokenMetadata}.
Arguments data {tokenMetadata}.
Arguments Build_userData {tokenMetadata}.
Arguments user {tokenMetadata}.
Arguments lastTrade {tokenMetadata}.
Arguments dailyPnl {tokenMetadata}.
Arguments balance {tokenMetadata}.
Arguments pnlLastTrade {tokenMetadata}.
Arguments pnlTokenMetadata {tokenMetadata}.
Arguments framesTo {tokenMetadata}.
Arguments sendToClient {tokenMetadata}.
Arguments sendError {tokenMetadata}.
Arguments broadcastToAll {tokenMetadata}.
Arguments broadcastToWalletSubscribers {tokenMetadata}.
Arguments handleSubscribeWallet {tokenMetadata}.
Arguments handleUnsubscribeWallet {tokenMetadata}.
Arguments assemble {tokenMetadata}.
Arguments assembleAll {tokenMetadata}.
Arguments sendInitialUsersList {tokenMetadata}.
Arguments broadcastUserUpdate {tokenMetadata}.
Arguments handleTradeUpdate {tokenMetadata}.
Arguments handlePnLUpdate {tokenMetadata}.

End Hub.

(** ** Concrete scenarios *)

Module Scenario.
Import Chain Store Monitor Hub.

Definition W1 : string := "W1".
Definition W2 : string := "W2".
Definition MintM : string := "MintM".

(** 2024-01-15T12:00:00Z on a host whose own zone is UTC-8; the UTC-8 day
    starts at 2024-01-15T08:00:00Z. *)
Definition noon : Z := 1705320000000.
Definition dayStart : Z := 1705305600000.
Definition dayBefore : Z := 1705219200000.

(** The block time of the transactions below, in seconds. *)
Definition blockTime : Z := 1705320000.

Definition tokenAt (amount : Q) : tokenBalance :=
  {| accountIndex := 3; mint := MintM; owner := Some W1;
     uiAmount := Some amount |}.

(** Scenario "buy": 0.1 SOL out, 500 tokens in. *)
Definition txBuy : parsedTx :=
  {| err := false;
     preBalances := [1000000000; 5]%Z;
     postBalances := [900000000; 5]%Z;
     preTokenBalances := Some [];
     postTokenBalances := Some [tokenAt 500];
     accountKeys := [W1; "Program"] |}.

(** Scenario "transfer in": the SOL balance does not move, the token
    balance goes from 0 to 100. *)
Definition txTransferIn : parsedTx :=
  {| err := false;
     preBalances := [1000000000; 5]%Z;
     postBalances := [1000000000; 5]%Z;
     preTokenBalances := Some [];
     postTokenBalances := Some [tokenAt 100];
     accountKeys := [W1; "Program"] |}.

(** The same token movement with 0.1 SOL coming in as well. *)
Definition txDepositWithSol : parsedTx :=
  {| err := false;
     preBalances := [1000000000; 5]%Z;
     postBalances := [1100000000; 5]%Z;
     preTokenBalances := Some [];
     postTokenBalances := Some [tokenAt 100];
     accountKeys := [W1; "Program"] |}.

(** A token account holding 100 before and after. *)
Definition txUntouched : parsedTx :=
  {| err := false;
     preBalances := [1000000000; 5]%Z;
     postBalances := [900000000; 5]%Z;
     preTokenBalances := Some [tokenAt 100];
     postTokenBalances := Some [tokenAt 100];
     accountKeys := [W1; "Program"] |}.


Definition chain (sig : string) : rpcResult :=
  if bool_decide (sig = "sigBuy") then RpcOk (Some txBuy)
  else if bool_decide (sig = "sigTransferIn") then RpcOk (Some txTransferIn)
  else if bool_decide (sig = "sigDeposit") then RpcOk (Some txDepositWithSol)
  else RpcOk None.

(** Every statement succeeds. *)
Definition healthy : env :=
  {| now := noon; tzOffset := 480; getParsedTransaction := chain;
     dbThrows := fun _ => false |}.

(** Writes to the trades table fail, everything else succeeds. *)
Definition tradesDown : env :=
  {| now := noon; tzOffset := 480; getParsedTransaction := chain;
     dbThrows := fun op => match op with UpsertTrade _ => true
                                       | _ => false end |}.

Definition user1 : userRow :=
  {| user_id := 1; displayName := "one"; user_walletAddress := W1;
     isLive := true; lastActive := None |}.

Definition pnlOn (day : Z) (startBal endBal : Q) : pnlRow :=
  {| pnl_id := 1; pnl_userId := Some 1%Z; pnl_walletAddress := W1;
     pnl_date := day; pnl_startBalance := startBal;
     pnl_endBalance := Some endBal; pnl_realizedPnl := 0;
     pnl_totalTrades := 0; pnl_lastTradeId := None;
     pnl_createdAt := day; pnl_updatedAt := day |}.

Definition dbWith (rows : list pnlRow) : db :=
  {| users := [user1]; trades := []; pnlRecords := rows;
     tradesSeq := 1; pnlSeq := 2 |}.

(** A process that has just started: nothing cached, nothing seen. *)
Definition started (d : db) : state :=
  {| activeWallets := {[ W1 := {| userId := Some 1%Z;
                                  lastSignature := None |} ]};
     dailyPnLCache := ∅;
     processedTransactions := ∅;
     database := d;
     emitted := [] |}.

(** Started on a database that has no PnL row at all. *)
Definition fresh : state := started (dbWith []).

(** Restarted in the course of the day: today's row is in the store. *)
Definition restarted : state := started (dbWith [pnlOn dayStart 1 1]).

(** First start of the day: the store holds the row of the day before,
    which ended on a balance of 5. *)
Definition rolledOver : state := started (dbWith [pnlOn dayBefore 4 5]).

(** Two clients on open sockets: [clientA] follows [W1], [clientB] follows
    [W1] and [W2]. *)
Definition clientA : ClientConnection :=
  {| ws := {| sock := 1; ready := OPEN |};
     walletAddresses := {[ W1 ]};
     subscriptions := {[ "wallet:W1" ]} |}.

Definition clientB : ClientConnection :=
  {| ws := {| sock := 2; ready := OPEN |};
     walletAddresses := {[ W1; W2 ]};
     subscriptions := {[ "wallet:W1"; "wallet:W2" ]} |}.

Definition user2 : userRow :=
  {| user_id := 2; displayName := "two"; user_walletAddress := W2;
     isLive := true; lastActive := None |}.

Definition dbTwoUsers : db :=
  {| users := [user1; user2]; trades := []; pnlRecords := [];
     tradesSeq := 1; pnlSeq := 1 |}.

(** The values of the trade row the buy gives rise to. *)
Definition buyValues (sig w : string) : tradeData :=
  {| trade_userId := Some 1%Z; signature := sig;
     trade_walletAddress := w;
     tokenA := MintM; tokenB := WSOL; type := buy;
     amountA := 500; amountB := 1 # 10; priceUsd := 0;
     platform := "unknown"; txFees := 0;
     timestamp := noon; rawData := txBuy; tradePnl := - (1 # 10) |}.

(** The values of the row the monitor builds for the buy, amounts as it
    computes them: 500 tokens for 0.09999999999999998 SOL, which is what
    0.9 - 1 is in doubles. *)
Definition spentSol : Q :=
  Qabs (default 0%Q (solDelta (solAt (preBalances txBuy) 0)
                              (solAt (postBalances txBuy) 0))).

Definition buyRow : tradeData :=
  {| trade_userId := Some 1%Z; signature := "sigBuy";
     trade_walletAddress := W1;
     tokenA := MintM; tokenB := WSOL; type := buy;
     amountA := Qabs (500 - 0); amountB := spentSol; priceUsd := 0;
     platform := "unknown"; txFees := 0;
     timestamp := (blockTime * 1000)%Z; rawData := txBuy;
     tradePnl := - spentSol |}.

End Scenario.


From Stdlib Require Import Sorted.

(** ** What the rows and the process state are expected to satisfy *)

Module Laws.
Import Chain Store Monitor.

(** The shape of the values of a trade row, by its type: a buy or a sell
    is against the native-wrapped mint, for the SOL that moved, with a PnL
    of the sign of the trade; a transfer names its mint twice and has no
    PnL. *)
Definition wellClassified (v : tradeData) : Prop :=
  tokenA v <> WSOL /\ (0 <= amountA v)%Q /\
  match type v with
  | buy =>
      tokenB v = WSOL /\ (tradePnl v < 0)%Q /\
      (amountB v == - tradePnl v)%Q /\ platform v = "unknown"
  | sell =>
      tokenB v = WSOL /\ (0 < tradePnl v)%Q /\
      (amountB v == tradePnl v)%Q /\ platform v = "unknown"
  | deposit | withdrawal =>
      tokenB v = tokenA v /\ tradePnl v = 0%Q /\
      amountB v = amountA v /\ platform v = "transfer"
  end.

Definition classified (s : state) : Prop :=
  Forall (fun r => wellClassified (trade_values r)) (trades (database s)).

(** At most one PnL row under each key (wallet, day). *)
Definition onePerDay (d : db) : Prop :=
  forall (w : string) (day : Z),
    (length (filter (fun r => pnlKeyed w day r = true) (pnlRecords d))
     <= 1)%nat.

Definition keyed (s : state) : Prop := onePerDay (database s).

(** What of a PnL row never changes once the row is there. *)
Definition pnlIdentity (r : pnlRow) : Z * string * Z * Q :=
  (pnl_id r, pnl_walletAddress r, pnl_date r, pnl_startBalance r).

(** What of a user row the monitor never changes. *)
Definition userIdentity (u : userRow) : Z * string * string * bool :=
  (user_id u, displayName u, user_walletAddress u, isLive u).

(** [s'] has everything [s] had: the seen signatures, the events in their
    order, a row for each signature that had one, the PnL rows in their
    order with their identity, the users but for [lastActive], and the
    same active wallets. *)
Definition grows (s s' : state) : Prop :=
  processedTransactions s ⊆ processedTransactions s' /\
  emitted s `prefix_of` emitted s' /\
  map (fun r => (trade_id r, signature (trade_values r)))
      (trades (database s))
    `prefix_of`
  map (fun r => (trade_id r, signature (trade_values r)))
      (trades (database s')) /\
  map pnlIdentity (pnlRecords (database s))
    `prefix_of` map pnlIdentity (pnlRecords (database s')) /\
  map userIdentity (users (database s'))
    = map userIdentity (users (database s)) /\
  activeWallets s' = activeWallets s.

(** The same but for the active wallets, which a poll does change. *)
Definition history (s s' : state) : Prop :=
  processedTransactions s ⊆ processedTransactions s' /\
  emitted s `prefix_of` emitted s' /\
  map (fun r => (trade_id r, signature (trade_values r)))
      (trades (database s))
    `prefix_of`
  map (fun r => (trade_id r, signature (trade_values r)))
      (trades (database s')) /\
  map pnlIdentity (pnlRecords (database s))
    `prefix_of` map pnlIdentity (pnlRecords (database s')) /\
  map userIdentity (users (database s'))
    = map userIdentity (users (database s)).

(** The rows of every signature but [sig] are as they were. *)
Definition sameOtherRows (sig : string) (s s' : state) : Prop :=
  forall sig', sig' <> sig ->
    rowsOf sig' (database s') = rowsOf sig' (database s).

(** [m] moves along [R]: the state it leaves is related to the one it
    started from, whether it returns or throws. *)
Definition along {A} (R : state -> state -> Prop) (m : M A) : Prop :=
  forall s, R s (snd (m s)).

(** The gates a transaction has passed when [processTransaction] comes to
    look at its token balances: the signature is new to the process, the
    look-up by signature succeeds and finds no row, the block time is
    there and of today, the node returns the transaction, the wallet is
    among its account keys at index [i], and its SOL delta is not
    negligible. *)
Definition reached (e : env) (sig w : string) (bt : option Z) (s : state)
    (t : Z) (tx : parsedTx) (i : nat) : Prop :=
  (sig ∉ processedTransactions s) /\
  dbThrows e (SelectTradeBySignature sig) = false /\
  rowsOf sig (database s) = [] /\
  bt = Some t /\ t <> 0%Z /\
  Clock.isToday (tzOffset e) (now e) (t * 1000) = true /\
  getParsedTransaction e sig = RpcOk (Some tx) /\
  findIndex w (accountKeys tx) = Some i /\
  negligible (solDelta (solAt (preBalances tx) i)
                       (solAt (postBalances tx) i)) = false.

(** Trades, PnL rows, PnL cache and events are as they were. *)
Definition unchanged (s s' : state) : Prop :=
  trades (database s') = trades (database s) /\
  pnlRecords (database s') = pnlRecords (database s) /\
  dailyPnLCache s' = dailyPnLCache s /\
  emitted s' = emitted s.



(** No PnL row names a trade. *)
Definition noLastTrade (s : state) : Prop :=
  Forall (fun r => pnl_lastTradeId r = None) (pnlRecords (database s)).

(** [sig] is the signature of a stored trade of wallet [w]. *)
Definition storedFor (w sig : string) (d : db) : Prop :=
  exists r, r ∈ trades d /\
            trade_walletAddress (trade_values r) = w /\
            signature (trade_values r) = sig.

(** [w] is the wallet of a live user. *)
Definition liveWallet (w : string) (d : db) (u : userRow) : Prop :=
  u ∈ users d /\ isLive u = true /\ user_walletAddress u = w.

(** What the loop over the new wallets of [loadActiveWallets] keeps,
    from the state [s] the method began in and the map [m] it has put
    together: the store, the PnL cache and the events are those of [s];
    the seen signatures have grown by signatures of stored trades of
    new wallets; the entries of other wallets are those of [m], every
    entry has the user id it has in [m], and a [lastSignature] that is
    set is the seen signature of a stored trade of that wallet, which
    is a new one. *)
Definition loaded (s : state) (m : gmap string walletInfo)
    (news : list string) (s2 : state) : Prop :=
  database s2 = database s /\ dailyPnLCache s2 = dailyPnLCache s /\
  emitted s2 = emitted s /\
  processedTransactions s ⊆ processedTransactions s2 /\
  (forall sig, sig ∈ processedTransactions s2 ->
     sig ∈ processedTransactions s \/
     exists w, w ∈ news /\ storedFor w sig (database s)) /\
  (forall w, w ∉ news -> activeWallets s2 !! w = m !! w) /\
  (forall w, userId <$> activeWallets s2 !! w = userId <$> m !! w) /\
  (forall w info sig, activeWallets s2 !! w = Some info ->
     lastSignature info = Some sig ->
     w ∈ news /\ sig ∈ processedTransactions s2 /\
     storedFor w sig (database s)).




End Laws.

(** ** Further scenarios *)

Module Cases.
Import Chain Store Monitor Hub Scenario.

(** The process has run past midnight: the cache entry of W1 is still
    that of the day before, and so is the only row in the store. *)
Definition overnight : state :=
  {| activeWallets := {[ W1 := {| userId := Some 1%Z;
                                  lastSignature := None |} ]};
     dailyPnLCache := {[ W1 := {| date := dayBefore; startBalance := 4;
                                  currentBalance := 5; realizedPnl := 0;
                                  totalTrades := 0 |} ]};
     processedTransactions := ∅;
     database := dbWith [pnlOn dayBefore 4 5];
     emitted := [] |}.

(** Start-up done: today's row and the cache entry of W1 are there, on a
    balance of 1. *)
Definition warm : state :=
  {| activeWallets := {[ W1 := {| userId := Some 1%Z;
                                  lastSignature := None |} ]};
     dailyPnLCache := {[ W1 := {| date := dayStart; startBalance := 1;
                                  currentBalance := 1; realizedPnl := 0;
                                  totalTrades := 0 |} ]};
     processedTransactions := ∅;
     database := dbWith [pnlOn dayStart 1 1];
     emitted := [] |}.

(** 0.1 SOL sent away and no token balance at all. *)
Definition txSolOnly : parsedTx :=
  {| err := false;
     preBalances := [1000000000; 5]%Z;
     postBalances := [900000000; 5]%Z;
     preTokenBalances := Some [];
     postTokenBalances := Some [];
     accountKeys := [W1; "Program"] |}.

(** The buy of the scenario, failed on chain. *)
Definition txFailed : parsedTx :=
  {| err := true;
     preBalances := [1000000000; 5]%Z;
     postBalances := [900000000; 5]%Z;
     preTokenBalances := Some [];
     postTokenBalances := Some [tokenAt 500];
     accountKeys := [W1; "Program"] |}.

(** 0.1 SOL out, 500 of one token and 7 of another in. *)
Definition txTwoTokens : parsedTx :=
  {| err := false;
     preBalances := [1000000000; 5]%Z;
     postBalances := [900000000; 5]%Z;
     preTokenBalances := Some [];
     postTokenBalances :=
       Some [tokenAt 500;
             {| accountIndex := 4; mint := "MintN"; owner := Some W1;
                uiAmount := Some 7%Q |}];
     accountKeys := [W1; "Program"] |}.

(** 100 tokens come in with 1000 lamports on a balance of 1 SOL: the
    lamport delta is 0.000001 SOL to the digit, the delta in doubles is
    9.999999999177334e-07. *)
Definition txEdge : parsedTx :=
  {| err := false;
     preBalances := [1000000000; 5]%Z;
     postBalances := [1000001000; 5]%Z;
     preTokenBalances := Some [];
     postTokenBalances := Some [tokenAt 100];
     accountKeys := [W1; "Program"] |}.

Definition ledger (sig : string) : rpcResult :=
  if bool_decide (sig = "sigEdge") then RpcOk (Some txEdge) else
  if bool_decide (sig = "sigSol") then RpcOk (Some txSolOnly)
  else if bool_decide (sig = "sigFailed") then RpcOk (Some txFailed)
  else if bool_decide (sig = "sigTwo") then RpcOk (Some txTwoTokens)
  else chain sig.

(** Every statement succeeds, on the larger ledger. *)
Definition calm : env :=
  {| now := noon; tzOffset := 480; getParsedTransaction := ledger;
     dbThrows := fun _ => false |}.

(** The store once the buy of the scenario has been recorded. *)
Definition dbTraded : db :=
  {| users := [user1];
     trades := [{| trade_id := 1; trade_values := buyValues "sigBuy" W1 |}];
     pnlRecords := [pnlOn dayStart 1 (9 # 10)];
     tradesSeq := 2; pnlSeq := 2 |}.

End Cases.

(** ** Connections and client messages *)

Module Session.
Import Store Monitor Hub.

(** The registry [clients] is a [Map] from socket to client; as before
    it is the list of its values in insertion order, and the key of a
    value is the socket it holds. *)

(** [clients.get(ws)] *)
Definition clientOf (w : WebSocket) (clients : list ClientConnection)
    : option ClientConnection :=
  find (fun c => bool_decide (sock (ws c) = sock w)) clients.

(** [clients.set(ws, c)]: the value under a key that is there is
    replaced where it stands, a new key goes last. *)
Definition clientsSet (c : ClientConnection)
    (clients : list ClientConnection) : list ClientConnection :=
  if bool_decide (Exists (fun c' => sock (ws c') = sock (ws c)) clients)
  then map (fun c' => if bool_decide (sock (ws c') = sock (ws c))
                      then c else c') clients
  else clients ++ [c].

(** [clients.delete(ws)] *)
Definition clientsDelete (w : WebSocket) (clients : list ClientConnection)
    : list ClientConnection :=
  filter (fun c => sock (ws c) <> sock w) clients.

(** [message.type], as far as the [switch] tells values apart. *)
Inductive request := Subscribe | Unsubscribe | Other.

(** What [JSON.parse(messageData)] comes to, as far as [handleMessage]
    looks at it: the parse throws; the text is [null], so that reading
    [message.type] throws; or there is a [type] to switch on. Of
    [message.data.walletAddress], which is of type [any], three cases
    are told apart. [Frame t None]: [message.data] is null or missing, so
    that reading [data.walletAddress] throws, or the value is one of
    which no string can be made, so that the template literal throws.
    [Frame t (Some a)]: the value is the string [a]. [FrameRaw t form]:
    the value is not a string (a number, a boolean, null, an array, an
    object, or [undefined] where [data] has no such field) and the
    template literal makes [form] of it. *)
Inductive incoming :=
  | Malformed
  | Null
  | Frame (type : request) (walletAddress : option string)
  | FrameRaw (type : request) (form : string).

(** The frame asks for no change of subscription under a
    [walletAddress] that is not a string. *)
Definition textual (m : incoming) : Prop :=
  match m with
  | FrameRaw Subscribe _ | FrameRaw Unsubscribe _ => False
  | _ => True
  end.

(** The registry is keyed by socket and the two sets of every client
    are in step. *)
Definition wellFormed (clients : list ClientConnection) : Prop :=
  NoDup (map (fun c => sock (ws c)) clients) /\ Forall coherent clients.

Section WithMeta.
Variable tokenMetadata : Type.
Variable getTokenMetadata : string -> tokenMetadata.

(** [handleSubscribeWallet] and [handleUnsubscribeWallet] on a
    [walletAddress] that is not a string. The value itself is added to,
    or deleted from, the set [walletAddresses], where no look-up ever
    finds it: the set is only asked for the wallet address of a monitor
    event, a string. [walletAddresses] holds the strings of the set, and
    these stay as they were; the tag is made of the string form of the
    value, and the value goes back in the acknowledgement. *)
Definition subscribeRaw (client : ClientConnection) (form : string)
    : ClientConnection * list (sent tokenMetadata) :=
  ({| ws := ws client;
      walletAddresses := walletAddresses client;
      subscriptions :=
        {[("wallet:" +:+ form)%string]} ∪ subscriptions client |},
   sendToClient (ws client)
     {| msg_type := SUBSCRIBE_WALLET; data := AckRaw form true |}).

Definition unsubscribeRaw (client : ClientConnection) (form : string)
    : ClientConnection * list (sent tokenMetadata) :=
  ({| ws := ws client;
      walletAddresses := walletAddresses client;
      subscriptions :=
        subscriptions client ∖ {[("wallet:" +:+ form)%string]} |},
   sendToClient (ws client)
     {| msg_type := UNSUBSCRIBE_WALLET; data := AckRaw form true |}).

(** [handleMessage]; the handlers change the client object the registry
    holds, which is the registry changed under the socket's key. *)
Definition handleMessage (w : WebSocket) (m : incoming)
    (clients : list ClientConnection)
    : list ClientConnection * list (sent tokenMetadata) :=
  let invalid := sendError w "Invalid message format" in
  match m with
  | Malformed => (clients, invalid)
  | _ =>
      match clientOf w clients with
      | None => (clients, [])
      | Some client =>
          match m with
          | Malformed | Null => (clients, invalid)
          | Frame Subscribe (Some a) =>
              let r := handleSubscribeWallet client a in
              (clientsSet (fst r) clients, snd r)
          | Frame Unsubscribe (Some a) =>
              let r := handleUnsubscribeWallet client a in
              (clientsSet (fst r) clients, snd r)
          | Frame Subscribe None | Frame Unsubscribe None =>
              (clients, invalid)
          | FrameRaw Subscribe form =>
              let r := subscribeRaw client form in
              (clientsSet (fst r) clients, snd r)
          | FrameRaw Unsubscribe form =>
              let r := unsubscribeRaw client form in
              (clientsSet (fst r) clients, snd r)
          | Frame Other _ | FrameRaw Other _ =>
              (clients, sendError w "Unknown message type")
          end
      end
  end.

(** [handleDisconnection] *)
Definition handleDisconnection (w : WebSocket)
    (clients : list ClientConnection) : list ClientConnection :=
  match clientOf w clients with
  | Some _ => clientsDelete w clients
  | None => clients
  end.

Section WithStore.
Variable dbFails : dbOp -> bool.
Variable d : db.

(** [handleConnection]: the client is registered with two empty sets
    and sent the users list. *)
Definition handleConnection (w : WebSocket)
    (clients : list ClientConnection)
    : list ClientConnection * list (sent tokenMetadata) :=
  (clientsSet {| ws := w; walletAddresses := ∅; subscriptions := ∅ |}
     clients,
   sendInitialUsersList getTokenMetadata dbFails d w).

(** [setupEventListeners]: a ["trade"] event of the monitor goes to
    [handleTradeUpdate], a ["pnl"] event to [handlePnLUpdate]. *)
Definition deliver (ev : event) (clients : list ClientConnection)
    : list (sent tokenMetadata) :=
  match ev with
  | EvTrade w id t =>
      handleTradeUpdate getTokenMetadata dbFails d w id t clients
  | EvPnl w p => handlePnLUpdate getTokenMetadata dbFails d w p clients
  end.
End WithStore.
End WithMeta.

Arguments subscribeRaw {tokenMetadata}.
Arguments unsubscribeRaw {tokenMetadata}.
Arguments handleMessage {tokenMetadata}.
Arguments handleConnection {tokenMetadata}.
Arguments deliver {tokenMetadata}.

End Session.

(** ** The polling cycle *)

Module Cycle.
Import Chain Store Monitor.

Fixpoint forEachM {A} (f : A -> M unit) (l : list A) : M unit :=
  match l with
  | [] => ret tt
  | x :: l' => bind (f x) (fun _ => forEachM f l')
  end.

(** [await Promise.all(l.map(f))] for an [f] that leaves the state
    alone: the results in order, or the exception. *)
Fixpoint mapM {A B} (f : A -> M B) (l : list A) : M (list B) :=
  match l with
  | [] => ret []
  | x :: l' =>
      bind (f x) (fun y => bind (mapM f l') (fun ys => ret (y :: ys)))
  end.

(** A stable sort: [x] goes in front of the first element it may stand
    before. *)
Fixpoint insertSorted {A} (before : A -> A -> bool) (x : A) (l : list A)
    : list A :=
  match l with
  | [] => [x]
  | y :: l' => if before x y then x :: l else y :: insertSorted before x l'
  end.

Definition stableSort {A} (before : A -> A -> bool) (l : list A) : list A :=
  foldr (insertSorted before) [] l.

(** [select().from(usersTable).where(eq(isLive, true))] *)
Definition selectLiveUsers (d : db) : list userRow :=
  filter (fun u => isLive u = true) (users d).

(** [select({signature, timestamp}).from(tradesTable)
    .where(eq(walletAddress, w)).orderBy(desc(timestamp)).limit(20)] *)
Definition selectRecentTrades (w : string) (d : db) : list tradeRow :=
  take 20
    (stableSort
       (fun x y =>
          (timestamp (trade_values y) <=? timestamp (trade_values x))%Z)
       (filter (fun r => trade_walletAddress (trade_values r) = w)
          (trades d))).

Definition setActive (m : gmap string walletInfo) (s : state) : state :=
  {| activeWallets := m; dailyPnLCache := dailyPnLCache s;
     processedTransactions := processedTransactions s;
     database := database s; emitted := emitted s |}.

(** [activeWallets.set(w, {...activeWallets.get(w)!, lastSignature})] *)
Definition setLastSignature (w sig : string) (s : state) : state :=
  setActive
    (<[w := {| userId := activeWallets s !! w ≫= userId;
               lastSignature := Some sig |}]> (activeWallets s)) s.

(** The body of [activeUsers.forEach]: the wallet is noted as new if it
    has no entry, and its entry is set to [{ userId: user.id }]. *)
Definition addUser (acc : gmap string walletInfo * list string)
    (u : userRow) : gmap string walletInfo * list string :=
  (<[user_walletAddress u := {| userId := Some (user_id u);
                                lastSignature := None |}]> (fst acc),
   match fst acc !! user_walletAddress u with
   | None => snd acc ++ [user_walletAddress u]
   | Some _ => snd acc
   end).

(** [blockTime] of the sorted batch: [a.blockTime - b.blockTime]. *)
Definition olderFirst (x y : string * Z) : bool := (snd x <=? snd y)%Z.

(** [txsWithTime.find((tx) => tx.signature === signature)?.blockTime] *)
Definition timeOf (sig : string) (txs : list (string * Z)) : option Z :=
  snd <$> find (fun p => bool_decide (fst p = sig)) txs.

Section WithOutside.
Variable e : env.
(** Whether the query for the live users fails, and that for the recent
    trades of a wallet. The exception raised stands for whatever the
    driver throws; no handler looks at it. *)
Variable usersQueryFails : bool.
Variable recentQueryFails : string -> bool.
(** The node: the signatures of an address, newest first, and the block
    time of a transaction, [None] where the transaction or its block
    time is null; the outer [None] is a call that rejects, which for the
    signatures includes an address [new PublicKey] does not accept. *)
Variable getSignaturesForAddress : string -> option (list string).
Variable getTransaction : string -> option (option Z).

Definition liveUsers : M (list userRow) :=
  fun s => if usersQueryFails then (Threw (DbError SelectUsers), s)
           else (Ok (selectLiveUsers (database s)), s).

Definition recentTrades (w : string) : M (list tradeRow) :=
  fun s => if recentQueryFails w
           then (Threw (DbError (SelectLatestTrade w)), s)
           else (Ok (selectRecentTrades w (database s)), s).

(** The body of the loop of [loadRecentTransactionsForWallets]. *)
Definition loadRecent (w : string) : M unit :=
  bind (recentTrades w) (fun transactions =>
  bind (modify (fun s =>
          fold_left (fun s r => addProcessed (signature (trade_values r)) s)
            transactions s)) (fun _ =>
  match transactions with
  | [] => ret tt
  | r :: _ => modify (setLastSignature w (signature (trade_values r)))
  end)).

(** [loadRecentTransactionsForWallets]; the [catch] only logs. *)
Definition loadRecentTransactionsForWallets (walletAddresses : list string)
    : M unit :=
  tryCatch (forEachM loadRecent walletAddresses) (fun _ => ret tt).

(** [loadActiveWallets] *)
Definition loadActiveWallets : M unit :=
  bind liveUsers (fun activeUsers =>
  let current := map user_walletAddress activeUsers in
  bind (gets (fun s =>
          fold_left addUser activeUsers
            (filter (fun kv => fst kv ∈ current) (activeWallets s), [])))
    (fun loaded =>
  bind (modify (setActive (fst loaded))) (fun _ =>
  match snd loaded with
  | [] => ret tt
  | _ :: _ => loadRecentTransactionsForWallets (snd loaded)
  end))).

(** [tx?.blockTime || 0] *)
Definition blockTimeOf (sig : string) : M (string * Z) :=
  fun s => match getTransaction sig with
           | None => (Threw (RpcError sig), s)
           | Some bt => (Ok (sig, default 0%Z bt), s)
           end.

(** [processTransactions] *)
Definition processTransactions (signatures : list string)
    (walletAddress : string) : M unit :=
  bind (mapM blockTimeOf signatures) (fun txsWithTime =>
  forEachM (fun p =>
      processTransaction e (fst p) walletAddress
        (timeOf (fst p) txsWithTime))
    (stableSort olderFirst txsWithTime)).

(** [walletInfo.lastSignature && signatures[0].signature ===
    walletInfo.lastSignature] *)
Definition sameAsLast (info : walletInfo) (newest : string) : bool :=
  match lastSignature info with
  | Some l => negb (bool_decide (l = "")) && bool_decide (newest = l)
  | None => false
  end.

(** The body of the loop of [fetchRecentTransactions] for the entry
    [(walletAddress, walletInfo)]; the [catch] only logs. *)
Definition pollWallet (entry : string * walletInfo) : M unit :=
  let walletAddress := fst entry in
  let walletInfo := snd entry in
  tryCatch
    (fun s =>
       match getSignaturesForAddress walletAddress with
       | None => (Threw (RpcError walletAddress), s)
       | Some [] => (Ok tt, s)
       | Some (newest :: rest) =>
           if sameAsLast walletInfo newest then (Ok tt, s)
           else
             bind (modify (fun s =>
                     setActive
                       (<[walletAddress :=
                            {| userId := userId walletInfo;
                               lastSignature := Some newest |}]>
                          (activeWallets s)) s))
               (fun _ => processTransactions (newest :: rest) walletAddress)
               s
       end)
    (fun _ => ret tt).

(** [fetchRecentTransactions], for the entries of [activeWallets] in the
    order the [Map] yields them. A pass changes the entry of the wallet
    it is on and no other, so each entry is met as it was when the loop
    began. *)
Definition fetchRecentTransactions (entries : list (string * walletInfo))
    : M unit :=
  forEachM pollWallet entries.

(** The body of the interval of [startPolling], one run of it; runs
    that overlap are not modelled. *)
Definition cycle (entriesOf : state -> list (string * walletInfo))
    : M unit :=
  tryCatch
    (bind loadActiveWallets (fun _ =>
     fun s => fetchRecentTransactions (entriesOf s) s))
    (fun _ => ret tt).
End WithOutside.

End Cycle.


(** ** What a snapshot is to carry *)

Module Carried.
Import Store Monitor Hub.

Section WithMeta.
Context {tokenMetadata : Type}.
Variable getTokenMetadata : string -> tokenMetadata.

End WithMeta.

End Carried.
(** * Properties *)

(** ** Comparisons of rationals *)

Lemma Qlt_bool_iff (x y : Q) : Qlt_bool x y = true <-> (x < y)%Q.
Proof.
  unfold Qlt_bool. rewrite negb_true_iff. split.
  - intros H. apply Qnot_le_lt. intros Hle.
    apply Qle_bool_iff in Hle. congruence.
  - intros H. destruct (Qle_bool y x) eqn:E; [|reflexivity].
    apply Qle_bool_iff in E. exfalso. exact (Qlt_not_le _ _ H E).
Qed.

Lemma Qlt_bool_false_iff (x y : Q) : Qlt_bool x y = false <-> (y <= x)%Q.
Proof.
  unfold Qlt_bool. rewrite negb_false_iff. apply Qle_bool_iff.
Qed.

(** ** Day boundaries *)

Module ClockFacts.
Import Clock.
Local Open Scope Z_scope.

(** The instant the code returns differs from the start of the UTC-8 day
    by the distance of the host zone from UTC-8. *)
Lemma getPSTStartOfDay_offset (tz t : Z) :
  getPSTStartOfDay tz t = dayStart_spec t + (tz - 480) * msPerMinute.
Proof.
  unfold getPSTStartOfDay, setHours, getPSTDate, dayStart_spec,
    PST_OFFSET, msPerHour, msPerMinute, msPerDay.
  replace (t + tz * 60000 + 3600000 * -8 - tz * 60000)
    with (t - 8 * 3600000) by lia.
  lia.
Qed.

Lemma getPSTEndOfDay_offset (tz t : Z) :
  getPSTEndOfDay tz t = dayEnd_spec t + (tz - 480) * msPerMinute.
Proof.
  unfold getPSTEndOfDay, setHours, getPSTDate, dayEnd_spec, dayStart_spec,
    PST_OFFSET, msPerHour, msPerMinute, msPerDay.
  replace (t + tz * 60000 + 3600000 * -8 - tz * 60000)
    with (t - 8 * 3600000) by lia.
  lia.
Qed.

(** Only a host that itself sits at UTC-8 gets the boundary of the
    specification. *)
Lemma getPSTStartOfDay_correct_iff (tz t : Z) :
  getPSTStartOfDay tz t = dayStart_spec t <-> tz = 480.
Proof.
  rewrite getPSTStartOfDay_offset. unfold msPerMinute. lia.
Qed.

(** Two hosts agree on the boundary only if they share their offset. *)
Lemma getPSTStartOfDay_hosts (tz tz' t : Z) :
  getPSTStartOfDay tz t = getPSTStartOfDay tz' t <-> tz = tz'.
Proof.
  rewrite !getPSTStartOfDay_offset. unfold msPerMinute. lia.
Qed.

(** The test "is the transaction from today", on the other hand, compares
    values that are all shifted alike and is the same on every host. *)
Lemma isToday_host_independent (tz tz' now bt : Z) :
  isToday tz now bt = isToday tz' now bt.
Proof.
  unfold isToday. rewrite !getPSTStartOfDay_offset, !getPSTEndOfDay_offset.
  unfold getPSTDate, PST_OFFSET, msPerHour, msPerMinute.
  f_equal. f_equal.
  - destruct (Z.ltb_spec (bt + tz * 60000 + 3600000 * -8)
                (dayStart_spec now + (tz - 480) * 60000));
    destruct (Z.ltb_spec (bt + tz' * 60000 + 3600000 * -8)
                (dayStart_spec now + (tz' - 480) * 60000)); lia.
  - destruct (Z.ltb_spec (dayEnd_spec now + (tz - 480) * 60000)
                (bt + tz * 60000 + 3600000 * -8));
    destruct (Z.ltb_spec (dayEnd_spec now + (tz' - 480) * 60000)
                (bt + tz' * 60000 + 3600000 * -8)); lia.
Qed.

Lemma isToday_spec (tz now bt : Z) :
  isToday tz now bt = true <->
  dayStart_spec now <= bt <= dayEnd_spec now.
Proof.
  unfold isToday. rewrite getPSTStartOfDay_offset, getPSTEndOfDay_offset.
  unfold getPSTDate, PST_OFFSET, msPerHour, msPerMinute.
  rewrite negb_true_iff, orb_false_iff, !Z.ltb_ge. lia.
Qed.

(** C9. The instant is 2024-01-15T12:00:00Z. The UTC-8 day that contains
    it starts at 2024-01-15T08:00:00Z and ends one millisecond before
    2024-01-16T08:00:00Z. On a host whose local zone is UTC the code
    returns 2024-01-15T00:00:00Z as the start, on a host at UTC+1 it
    returns 2024-01-14T23:00:00Z: neither is the start of the UTC-8 day,
    and the two hosts disagree; likewise for the end. *)
Theorem day_boundary_follows_host_zone :
  let t := 1705320000000 in
  dayStart_spec t = 1705305600000 /\
  dayEnd_spec t = 1705391999999 /\
  getPSTStartOfDay 0 t = 1705276800000 /\
  getPSTStartOfDay (-60) t = 1705273200000 /\
  getPSTEndOfDay 0 t = 1705363199999 /\
  getPSTEndOfDay (-60) t = 1705359599999 /\
  getPSTStartOfDay 0 t <> dayStart_spec t /\
  getPSTStartOfDay 0 t <> getPSTStartOfDay (-60) t /\
  getPSTEndOfDay 0 t <> dayEnd_spec t /\
  getPSTEndOfDay 0 t <> getPSTEndOfDay (-60) t.
Proof.
  cbv zeta. repeat split; try reflexivity; vm_compute; discriminate.
Qed.

End ClockFacts.

(** ** Token deltas *)

Module TokenFacts.
Import Chain Store Monitor.

Section Deltas.
Variable w : string.
Implicit Types (pres posts : list tokenBalance) (acc : list tokenChange).

(** One turn of the first loop. *)
Lemma postStep_eq pres acc (post : tokenBalance) :
  postStep w pres acc post
  = acc ++ (if ownedBy w post && survives (pairedEntry pres post)
            then [pairedEntry pres post] else []).
Proof.
  unfold postStep, ownedBy. case_bool_decide; [|by rewrite app_nil_r].
  rewrite andb_true_l.
  change (Qlt_bool EPS (Qabs (default 0%Q (uiAmount post)
            - amountOf (find (fun p =>
                (accountIndex p =? accountIndex post)%Z) pres))))
    with (survives (pairedEntry pres post)).
  destruct (survives (pairedEntry pres post)); [done|by rewrite app_nil_r].
Qed.

(** The first loop appends, in order, the paired entries that pass the
    threshold test. *)
Lemma postStep_fold pres posts acc :
  fold_left (postStep w pres) posts acc
  = acc ++ filter (fun tc => survives tc = true) (pairedEntries w pres posts).
Proof.
  revert acc. induction posts as [|post posts IH]; intros acc.
  - by rewrite app_nil_r.
  - cbn [fold_left]. rewrite IH, postStep_eq, <- app_assoc. f_equal.
    unfold pairedEntries. rewrite filter_cons.
    destruct (ownedBy w post) eqn:Ho.
    + rewrite decide_True by done. rewrite andb_true_l.
      cbn [map]. rewrite filter_cons.
      destruct (survives (pairedEntry pres post)) eqn:E.
      * by rewrite decide_True by done.
      * by rewrite decide_False by (by intros ?).
    + by rewrite decide_False by (by intros ?).
Qed.

Lemma hasPostAt_false_already posts acc (pre : tokenBalance) :
  hasPostAt posts pre = false ->
  existsb (fun tc =>
    existsb (fun post =>
      (accountIndex post =? accountIndex pre)%Z
      && bool_decide (mint post = tc_mint tc)) posts) acc = false.
Proof.
  intros Hno. induction acc as [|tc acc IH]; simpl; [done|].
  rewrite IH, orb_false_r. clear IH.
  unfold hasPostAt in Hno. induction posts as [|p posts IH]; simpl; [done|].
  simpl in Hno. apply orb_false_iff in Hno as [H1 H2].
  by rewrite H1, (IH H2).
Qed.

(** The second loop only appends full exits of pre balances that the
    wallet owns and that are positive, and it appends one at least for
    each such pre balance that has no post balance at its index. *)
Lemma preStep_fold posts pres acc :
  exists exits,
    fold_left (preStep w posts) pres acc = acc ++ exits /\
    (forall tc, tc ∈ exits ->
       exists pre, pre ∈ pres /\ owner pre = Some w /\
                   (0 < default 0 (uiAmount pre))%Q /\ tc = exitEntry pre) /\
    (forall pre, pre ∈ pres -> owner pre = Some w ->
       (0 < default 0 (uiAmount pre))%Q ->
       hasPostAt posts pre = false -> exitEntry pre ∈ exits).
Proof.
  revert acc. induction pres as [|pre pres IH]; intros acc; simpl.
  - exists []. rewrite app_nil_r. split; [done|]. split.
    + intros tc H. by apply elem_of_nil in H.
    + intros p H. by apply elem_of_nil in H.
  - destruct (IH (preStep w posts acc pre))
      as (exits & Hfold & Hsound & Hcompl).
    unfold preStep in Hfold |- *.
    set (already := existsb _ acc) in *.
    destruct (negb already && bool_decide (owner pre = Some w)) eqn:Hguard.
    + apply andb_true_iff in Hguard as [Hal Ho].
      apply bool_decide_eq_true in Ho.
      destruct (Qlt_bool 0 (default 0%Q (uiAmount pre))) eqn:Hpos.
      * exists (exitEntry pre :: exits).
        rewrite Hfold, <- app_assoc. split; [done|]. split.
        -- intros tc Htc. apply elem_of_cons in Htc as [->|Htc].
           ++ exists pre. apply Qlt_bool_iff in Hpos.
              split_and!; [set_solver|done|done|done].
           ++ destruct (Hsound tc Htc) as (p & ? & ?).
              exists p. split; [set_solver|done].
        -- intros p Hp. apply elem_of_cons in Hp as [->|Hp]; [set_solver|].
           intros. apply elem_of_cons. right. by apply Hcompl.
      * exists exits. split; [done|]. split.
        -- intros tc Htc. destruct (Hsound tc Htc) as (p & ? & ?).
           exists p. split; [set_solver|done].
        -- intros p Hp Hown Hp0 Hnp.
           apply elem_of_cons in Hp as [->|Hp]; [|by apply Hcompl].
           apply Qlt_bool_iff in Hp0. congruence.
    + exists exits. split; [done|]. split.
      * intros tc Htc. destruct (Hsound tc Htc) as (p & ? & ?).
        exists p. split; [set_solver|done].
      * intros p Hp Hown Hp0 Hnp.
        apply elem_of_cons in Hp as [->|Hp]; [|by apply Hcompl].
        exfalso. unfold already in Hguard.
        rewrite (hasPostAt_false_already posts acc pre Hnp) in Hguard.
        rewrite bool_decide_eq_true_2 in Hguard by done. discriminate.
Qed.




End Deltas.


Lemma survives_iff (tc : tokenChange) :
  survives tc = true <-> (EPS < Qabs (change tc))%Q.
Proof. apply Qlt_bool_iff. Qed.


(** A pre balance that has a post balance at its index is not always
    passed over: the second loop looks for the index among the entries
    that survived the first loop, so a token account that holds 100 before
    and after, whose paired entry was dropped for having no change, is
    reported as a full exit of 100. *)
Lemma untouched_balance_reported_as_exit :
  tokenChanges Scenario.W1 Scenario.txUntouched
  = [{| tc_mint := Scenario.MintM; preAmount := 100; postAmount := 0;
        change := - 100 |}] /\
  tokenDeltas_spec Scenario.W1 Scenario.txUntouched = [].
Proof. split; reflexivity. Qed.


End TokenFacts.

(** ** Daily PnL aggregator *)

Module PnlFacts.
Import Chain Store Monitor.

Lemma selectPnl_keyed (w : string) (day : Z) (d : db) (r : pnlRow) :
  r ∈ selectPnl w day d -> pnl_walletAddress r = w /\ pnl_date r = day.
Proof.
  unfold selectPnl. intros H.
  assert (Hin : r ∈ filter (fun r => pnlKeyed w day r = true) (pnlRecords d)).
  { destruct (filter _ (pnlRecords d)) as [|x l]; simpl in H;
      [by apply elem_of_nil in H|].
    rewrite take_0 in H. set_solver. }
  apply list_elem_of_filter in Hin as [Hk _].
  unfold pnlKeyed in Hk. apply andb_true_iff in Hk as [H1 H2].
  apply bool_decide_eq_true in H1. apply Z.eqb_eq in H2. done.
Qed.

(** The statement that looks for today's row finds none exactly if no row
    of the table is under the key. *)
Lemma selectPnl_nil (w : string) (day : Z) (d : db) :
  selectPnl w day d = [] <->
  filter (fun r => pnlKeyed w day r = true) (pnlRecords d) = [].
Proof.
  unfold selectPnl. destruct (filter _ (pnlRecords d)); simpl; [done|].
  by rewrite take_0.
Qed.

(** What [updateDailyPnL] does when the wallet has no cache entry while
    today's row is in the store: the look-up finds the row, nothing is
    inserted, nothing is cached, and the method returns. *)
Lemma updateDailyPnL_uncached (e : env) (w : string) (balance pnl : Q)
    (lastTradeId : option Z) (s : state) (r : pnlRow) (rest : list pnlRow) :
  dailyPnLCache s !! w = None ->
  dbThrows e (SelectPnl w (today e)) = false ->
  selectPnl w (today e) (database s) = r :: rest ->
  updateDailyPnL e w balance pnl lastTradeId s = (Ok tt, s).
Proof.
  intros Hc Hok Hrow.
  unfold updateDailyPnL, bind, gets. rewrite Hc.
  unfold initializeDailyPnL, bind, dbRead. rewrite Hok, Hrow. done.
Qed.


(** C1. The process was restarted during the day: today's row of wallet
    W1 is in the store (0 trades, realized PnL 0, end balance 1) and the
    in-memory cache is empty. A buy that costs 0.1 SOL and leaves 0.9 is
    applied. The method returns without having touched anything: the row
    is as before (0 trades, not 1; end balance 1, not 0.9; realized PnL
    0, not -0.1), no ["pnl"] event was emitted, and the cache is still
    empty, so that the next trade fares the same. *)
Theorem apply_trade_lost_after_restart :
  let e := Scenario.healthy in
  let s := Scenario.restarted in
  selectPnl Scenario.W1 (today e) (database s)
    = [Scenario.pnlOn Scenario.dayStart 1 1] /\
  dailyPnLCache s !! Scenario.W1 = None /\
  updateDailyPnL e Scenario.W1 (9 # 10) (- (1 # 10)) None s = (Ok tt, s) /\
  let s' := run (updateDailyPnL e Scenario.W1 (9 # 10) (- (1 # 10)) None) s in
  selectPnl Scenario.W1 (today e) (database s')
    = [Scenario.pnlOn Scenario.dayStart 1 1] /\
  emitted s' = [] /\
  dailyPnLCache s' !! Scenario.W1 = None.
Proof.
  cbv zeta.
  assert (H : updateDailyPnL Scenario.healthy Scenario.W1 (9 # 10)
                (- (1 # 10)) None Scenario.restarted
              = (Ok tt, Scenario.restarted)).
  { eapply updateDailyPnL_uncached; reflexivity. }
  unfold run. rewrite H. split_and!; reflexivity.
Qed.

(** The row [initializeDailyPnL] inserts when the store has none for
    today and the statements succeed: seeded from the most recent row if
    that one has an end balance, and ending on the balance passed in. *)
Lemma initializeDailyPnL_inserts (e : env) (w : string) (balance : Q)
    (s : state) :
  dbThrows e (SelectPnl w (today e)) = false ->
  dbThrows e (SelectLastPnl w) = false ->
  dbThrows e (InsertPnl w (today e)) = false ->
  selectPnl w (today e) (database s) = [] ->
  let start := default balance
                 (head (selectLastPnl w (database s)) ≫= pnl_endBalance) in
  let r := {| pnl_id := pnlSeq (database s);
              pnl_userId := userIdOf w s;
              pnl_walletAddress := w; pnl_date := today e;
              pnl_startBalance := start;
              pnl_endBalance := Some balance;
              pnl_realizedPnl := 0; pnl_totalTrades := 0;
              pnl_lastTradeId := None;
              pnl_createdAt := now e; pnl_updatedAt := now e |} in
  exists s',
    initializeDailyPnL e w balance s = (Ok tt, s') /\
    pnlRecords (database s') = pnlRecords (database s) ++ [r] /\
    selectPnl w (today e) (database s') = [r] /\
    trades (database s') = trades (database s) /\
    emitted s' = emitted s /\
    dailyPnLCache s' !! w =
      Some {| date := today e; startBalance := start;
              currentBalance := balance; realizedPnl := 0;
              totalTrades := 0 |}.
Proof.
  intros H1 H2 H3 Hnone. cbv zeta.
  unfold initializeDailyPnL, bind, dbRead, dbWrite, gets, modify.
  rewrite H1, Hnone, H2, H3. simpl.
  eexists. split; [reflexivity|]. simpl.
  assert (Hstart :
    match selectLastPnl w (database s) with
    | [] => balance
    | r :: _ => match pnl_endBalance r with Some b => b | None => balance end
    end = default balance
            (head (selectLastPnl w (database s)) ≫= pnl_endBalance)).
  { destruct (selectLastPnl w (database s)) as [|r l]; [done|].
    simpl. by destruct (pnl_endBalance r). }
  rewrite Hstart. split_and!; try reflexivity.
  - unfold selectPnl. simpl. rewrite filter_app.
    apply selectPnl_nil in Hnone. rewrite Hnone. simpl.
    rewrite filter_cons, filter_nil.
    rewrite decide_True; [done|].
    unfold pnlKeyed. simpl.
    rewrite bool_decide_eq_true_2 by done. by rewrite Z.eqb_refl.
  - by rewrite lookup_insert_eq.
Qed.

(** C2, as stated, does not hold. Yesterday's row of W1 ended on 5 and
    there is no row for today; the first touch passes a current balance
    of 7. The row inserted for today starts on 5 but ends on 7: its end
    balance is not its start balance. *)
Lemma seeded_row_end_is_not_start :
  let e := Scenario.healthy in
  let s := Scenario.rolledOver in
  let s' := run (initializeDailyPnL e Scenario.W1 7) s in
  selectPnl Scenario.W1 (today e) (database s) = [] /\
  selectLastPnl Scenario.W1 (database s)
    = [Scenario.pnlOn Scenario.dayBefore 4 5] /\
  exists r,
    selectPnl Scenario.W1 (today e) (database s') = [r] /\
    pnl_startBalance r = 5%Q /\
    pnl_endBalance r = Some 7%Q /\
    ~ (exists b, pnl_endBalance r = Some b /\ (b == pnl_startBalance r)%Q).
Proof.
  cbv zeta. split; [reflexivity|]. split; [reflexivity|].
  eexists. split; [reflexivity|]. split; [reflexivity|].
  split; [reflexivity|].
  intros (b & Hb & Hq). simpl in Hb. injection Hb as <-.
  simpl in Hq. discriminate Hq.
Qed.

(** C2, amended. On the first touch of a wallet on a day without a row
    for that day, when the most recent row of the wallet has an end
    balance, the row inserted starts on that end balance whatever it is,
    ends on the current balance that was passed in, and has a realized
    PnL of 0 and 0 trades; its end balance is its start balance exactly
    when the balance passed in is the previous end balance. *)
Theorem seeded_from_previous_end_balance (e : env) (w : string)
    (balance : Q) (s : state) (prev : pnlRow) (b : Q) :
  dbThrows e (SelectPnl w (today e)) = false ->
  dbThrows e (SelectLastPnl w) = false ->
  dbThrows e (InsertPnl w (today e)) = false ->
  selectPnl w (today e) (database s) = [] ->
  selectLastPnl w (database s) = [prev] ->
  pnl_endBalance prev = Some b ->
  exists s' r,
    initializeDailyPnL e w balance s = (Ok tt, s') /\
    pnlRecords (database s') = pnlRecords (database s) ++ [r] /\
    selectPnl w (today e) (database s') = [r] /\
    pnl_walletAddress r = w /\
    pnl_date r = today e /\
    pnl_startBalance r = b /\
    pnl_endBalance r = Some balance /\
    pnl_realizedPnl r = 0%Q /\
    pnl_totalTrades r = 0%Z /\
    ((balance == b)%Q <->
     exists x, pnl_endBalance r = Some x /\ (x == pnl_startBalance r)%Q).
Proof.
  intros H1 H2 H3 Hnone Hprev Hb.
  destruct (initializeDailyPnL_inserts e w balance s H1 H2 H3 Hnone)
    as (s' & Hrun & Hrows & Hsel & _).
  rewrite Hprev in Hrows, Hsel. simpl in Hrows, Hsel.
  rewrite Hb in Hrows, Hsel. simpl in Hrows, Hsel.
  eexists s', _. split; [exact Hrun|]. split; [exact Hrows|].
  split; [exact Hsel|]. simpl. split_and!; try reflexivity.
  split.
  - intros Hq. exists balance. by split.
  - intros (x & Hx & Hq). by injection Hx as <-.
Qed.

Lemma seeded_from_previous_end_balance_witness :
  exists s' r,
    initializeDailyPnL Scenario.healthy Scenario.W1 7 Scenario.rolledOver
      = (Ok tt, s') /\
    pnlRecords (database s')
      = pnlRecords (database Scenario.rolledOver) ++ [r] /\
    selectPnl Scenario.W1 (today Scenario.healthy) (database s') = [r] /\
    pnl_walletAddress r = Scenario.W1 /\
    pnl_date r = today Scenario.healthy /\
    pnl_startBalance r = 5%Q /\
    pnl_endBalance r = Some 7%Q /\
    pnl_realizedPnl r = 0%Q /\
    pnl_totalTrades r = 0%Z /\
    ((7 == 5)%Q <->
     exists x, pnl_endBalance r = Some x /\ (x == pnl_startBalance r)%Q).
Proof.
  apply (seeded_from_previous_end_balance Scenario.healthy Scenario.W1 7
           Scenario.rolledOver (Scenario.pnlOn Scenario.dayBefore 4 5) 5);
    reflexivity.
Defined.

End PnlFacts.

(** ** The per-signature pipeline *)

Module PipelineFacts.
Import Chain Store Monitor.

Lemma filter_none {X : Type} (P : X -> Prop) `{forall x, Decision (P x)}
    (l : list X) :
  (forall x, x ∈ l -> ~ P x) -> filter P l = [].
Proof.
  induction l as [|x l IH]; intros Hl; [done|].
  rewrite filter_cons, decide_False by (apply Hl; set_solver).
  apply IH. intros y Hy. apply Hl. set_solver.
Qed.

(** *** Rules for [preserves] *)

Section Preserves.
Context {A B : Type} (I : state -> Prop).

Lemma preserves_ret (a : A) : preserves I (ret a).
Proof. by intros s Hs. Qed.

Lemma preserves_throw (x : exn) : preserves I (@throw A x).
Proof. by intros s Hs. Qed.

Lemma preserves_gets (f : state -> A) : preserves I (gets f).
Proof. by intros s Hs. Qed.

Lemma preserves_bind (m : M A) (k : A -> M B) :
  preserves I m -> (forall a, preserves I (k a)) -> preserves I (bind m k).
Proof.
  intros Hm Hk s Hs. unfold bind. specialize (Hm s Hs).
  destruct (m s) as [[a|x] s']; simpl in *; [|done]. by apply Hk.
Qed.

Lemma preserves_tryCatch (m : M A) (h : exn -> M A) :
  preserves I m -> (forall x, preserves I (h x)) ->
  preserves I (tryCatch m h).
Proof.
  intros Hm Hh s Hs. unfold tryCatch. specialize (Hm s Hs).
  destruct (m s) as [[a|x] s']; simpl in *; [done|]. by apply Hh.
Qed.

Lemma preserves_dbRead (e : env) (op : dbOp) (q : db -> A) :
  preserves I (dbRead e op q).
Proof. intros s Hs. unfold dbRead. by destruct (dbThrows e op). Qed.

Lemma preserves_rpc (e : env) (sig : string) :
  preserves I (rpcGetParsedTransaction e sig).
Proof.
  intros s Hs. unfold rpcGetParsedTransaction.
  by destruct (getParsedTransaction e sig).
Qed.
End Preserves.

Lemma preserves_modify (I : state -> Prop) (f : state -> state) :
  (forall s, I s -> I (f s)) -> preserves I (modify f).
Proof. intros Hf s Hs. by apply Hf. Qed.

Lemma preserves_dbWrite (I : state -> Prop) (e : env) (op : dbOp)
    (u : db -> db) :
  (forall s, I s -> I (setDatabase (u (database s)) s)) ->
  preserves I (dbWrite e op u).
Proof.
  intros Hu s Hs. unfold dbWrite. destruct (dbThrows e op); [done|].
  by apply Hu.
Qed.

(** *** The unique index on signatures is kept *)

Lemma upsertTrade_unique (v : tradeData) (d : db) :
  uniqueSignatures d -> uniqueSignatures (upsertTrade v d).
Proof.
  unfold uniqueSignatures, upsertTrade. intros Hnd.
  case_bool_decide as Hex; simpl.
  - assert (E : map (fun r => signature (trade_values r))
                  (map (fun r =>
                    if bool_decide (signature (trade_values r) = signature v)
                    then {| trade_id := trade_id r; trade_values := v |}
                    else r) (trades d))
                = map (fun r => signature (trade_values r)) (trades d)).
    { rewrite map_map. apply map_ext. intros r.
      case_bool_decide; simpl; congruence. }
    by rewrite E.
  - rewrite map_app. simpl. apply NoDup_app. split; [done|]. split.
    + intros x Hx Hv. apply list_elem_of_singleton in Hv as ->.
      apply Hex. apply Exists_exists.
      apply list_elem_of_fmap in Hx as (r & Hr & Hin).
      exists r. by split.
    + apply NoDup_singleton.
Qed.

Lemma upsertTrade_rowsOf_le (v : tradeData) (d : db) (sig : string) :
  uniqueSignatures d -> (length (rowsOf sig d) <= 1)%nat.
Proof.
  unfold uniqueSignatures, rowsOf. intros Hnd.
  induction (trades d) as [|r l IH]; [simpl; lia|].
  simpl in Hnd. apply NoDup_cons in Hnd as [Hr Hnd].
  rewrite filter_cons. case_decide as E; [|by apply IH].
  assert (filter (fun r0 => signature (trade_values r0) = sig) l = []) as ->.
  { apply filter_none. intros r' Hin Hs.
    apply Hr. rewrite E, <- Hs.
    apply (list_elem_of_fmap_2 (fun r => signature (trade_values r)) _ _ Hin). }
  simpl. lia.
Qed.

Ltac keep_database :=
  first
    [ apply preserves_modify; intros ? Hkeep; exact Hkeep
    | apply preserves_dbWrite; intros ? Hkeep; exact Hkeep ].

Ltac preserves_step :=
  first
    [ apply preserves_ret | apply preserves_throw | apply preserves_gets
    | apply preserves_dbRead | apply preserves_rpc
    | apply preserves_bind; [|intros ?]
    | apply preserves_tryCatch; [|intros ?]
    | match goal with
      | |- preserves _ (match ?x with _ => _ end) => destruct x
      end ].

Lemma initializeDailyPnL_indexed (e : env) (w : string) (b : Q) :
  preserves indexed (initializeDailyPnL e w b).
Proof.
  unfold initializeDailyPnL. repeat preserves_step; keep_database.
Qed.

Lemma updateDailyPnL_indexed (e : env) (w : string) (b p : Q)
    (i : option Z) :
  preserves indexed (updateDailyPnL e w b p i).
Proof.
  unfold updateDailyPnL. cbv zeta.
  repeat first [ apply initializeDailyPnL_indexed | preserves_step ];
    keep_database.
Qed.

Lemma updateUserBalance_indexed (e : env) (w : string) :
  preserves indexed (updateUserBalance e w).
Proof.
  unfold updateUserBalance. repeat preserves_step; keep_database.
Qed.

Lemma upsert_indexed (e : env) (v : tradeData) :
  preserves indexed (dbWrite e (UpsertTrade v) (upsertTrade v)).
Proof.
  apply preserves_dbWrite. intros s Hs. by apply upsertTrade_unique.
Qed.

Lemma classifyOne_indexed (e : env) (sig w : string) (sc : option Q)
    (tx : parsedTx) (bt : Z) (tc : tokenChange) :
  preserves indexed (classifyOne e sig w sc tx bt tc).
Proof.
  unfold classifyOne. cbv zeta.
  repeat first [ apply upsert_indexed | apply updateDailyPnL_indexed
               | preserves_step ]; keep_database.
Qed.

Lemma classifyEach_indexed (e : env) (sig w : string) (sc : option Q)
    (tx : parsedTx) (bt : Z) (tcs : list tokenChange) :
  preserves indexed (classifyEach e sig w sc tx bt tcs).
Proof.
  induction tcs as [|tc tcs IH]; simpl.
  - apply preserves_ret.
  - apply preserves_bind; [apply classifyOne_indexed|intros _; exact IH].
Qed.

Lemma classifyAndSaveTransaction_indexed (e : env) (sig w : string)
    (sc : option Q) (tcs : list tokenChange) (tx : parsedTx) (bt : Z) :
  preserves indexed (classifyAndSaveTransaction e sig w sc tcs tx bt).
Proof.
  unfold classifyAndSaveTransaction. destruct (err tx).
  - apply preserves_ret.
  - apply classifyEach_indexed.
Qed.

Lemma processTransaction_indexed (e : env) (sig w : string)
    (bt : option Z) :
  preserves indexed (processTransaction e sig w bt).
Proof.
  unfold processTransaction, processTransaction_try. cbv zeta.
  repeat first [ apply classifyAndSaveTransaction_indexed
               | apply updateUserBalance_indexed
               | preserves_step ]; keep_database.
Qed.

(** *** The SOL delta *)

(** The literal of the test, [0.000001], is the double that 1 / 1000000
    rounds to. *)
Lemma EPS64_literal :
  Binary64.toQ (Binary64.div (Binary64.ofZ 1) (Binary64.ofZ 1000000))
  = Some EPS64.
Proof. reflexivity. Qed.

Lemma EPS64_below : (EPS64 < EPS)%Q /\ (0 < EPS64)%Q.
Proof. split; reflexivity. Qed.

(** A sign test only holds of a number, and the delta is a number only if
    both balances are. *)
Lemma sign_test_number (sc : option Q) :
  isNegative sc || isPositive sc = true -> exists c, sc = Some c.
Proof. destruct sc as [c|]; [by exists c|discriminate]. Qed.

Lemma solDelta_number (preSol postSol : spec_float) (c : Q) :
  solDelta preSol postSol = Some c ->
  exists a b, Binary64.toQ preSol = Some a /\ Binary64.toQ postSol = Some b.
Proof.
  unfold solDelta, Binary64.sub, SFsub.
  destruct preSol as [sa|sa| |sa ma ea], postSol as [sb|sb| |sb mb eb];
    try destruct sa; try destruct sb; cbn [Binary64.toQ negb];
    try discriminate; eauto.
Qed.

(** A balance that is a number, taken from itself, leaves 0. *)
Lemma solDelta_diag (x : spec_float) (q : Q) :
  Binary64.toQ x = Some q -> solDelta x x = Some 0%Q.
Proof.
  unfold solDelta, Binary64.sub, SFsub.
  destruct x as [sx|sx| |sx mx ex]; try discriminate; intros _.
  - by destruct sx.
  - cbv zeta. by rewrite Z.sub_diag.
Qed.

Lemma solAt_lookup (l : list Z) (i : nat) (a : Z) :
  l !! i = Some a ->
  solAt l i = Binary64.div (Binary64.ofZ a) (Binary64.ofZ 1000000000).
Proof. unfold solAt. by intros ->. Qed.

(** One SOL and 1000 lamports more: the exact delta is 0.000001, the
    doubles give 9.999999999177334e-07, which is below the threshold. From
    an empty balance the same 1000 lamports give the double 0.000001
    itself, which is not. *)
Lemma thousand_lamports_either_way :
  Qred <$> solDelta (solAt [1000000000%Z] 0) (solAt [1000001000%Z] 0)
    = Some (4503599627 # 4503599627370496)%Q /\
  negligible (solDelta (solAt [1000000000%Z] 0)
                       (solAt [1000001000%Z] 0)) = true /\
  solDelta (solAt [0%Z] 0) (solAt [1000%Z] 0) = Some EPS64 /\
  negligible (solDelta (solAt [0%Z] 0) (solAt [1000%Z] 0)) = false.
Proof. split_and!; reflexivity. Qed.

(** *** Paths through [processTransaction] *)

Section Paths.
Variable e : env.
Implicit Types (sig w : string) (bt : option Z) (s : state).

(** Step 1: a signature in [processedTransactions] is skipped and nothing
    at all changes. *)
Lemma processTransaction_seen sig w bt s :
  sig ∈ processedTransactions s ->
  processTransaction e sig w bt s = (Ok tt, s).
Proof.
  intros Hin.
  unfold processTransaction, tryCatch, processTransaction_try, bind, gets.
  by rewrite bool_decide_eq_true_2.
Qed.

Lemma selectTradeBySignature_rowsOf sig (d : db) :
  selectTradeBySignature sig d = take 1 (rowsOf sig d).
Proof. reflexivity. Qed.

Lemma selectTradeBySignature_nil sig (d : db) :
  selectTradeBySignature sig d = [] <-> rowsOf sig d = [].
Proof.
  rewrite selectTradeBySignature_rowsOf.
  destruct (rowsOf sig d); simpl; [done|]. by rewrite take_0.
Qed.

(** Step 2: a signature that is not in memory but has a row in the store
    is added to the set and skipped; so is it when the look-up fails. *)
Lemma processTransaction_stored sig w bt s :
  sig ∉ processedTransactions s ->
  rowsOf sig (database s) <> [] ->
  processTransaction e sig w bt s = (Ok tt, addProcessed sig s).
Proof.
  intros Hnot Hrow.
  unfold processTransaction, tryCatch, processTransaction_try, bind, gets,
    dbRead, modify.
  rewrite bool_decide_eq_false_2 by done.
  destruct (dbThrows e (SelectTradeBySignature sig)); [done|].
  destruct (selectTradeBySignature sig (database s)) eqn:E; [|done].
  by apply selectTradeBySignature_nil in E.
Qed.

(** Whatever the path, the signature ends up in the set, or else nothing
    at all has changed (the path that ends on "no token balance
    changes"). *)
Lemma processTransaction_cached_or_unchanged sig w bt s :
  sig ∈ processedTransactions (run (processTransaction e sig w bt) s) \/
  processTransaction e sig w bt s = (Ok tt, s).
Proof.
  unfold run, processTransaction, tryCatch, processTransaction_try, bind,
    gets, dbRead, modify, ret, rpcGetParsedTransaction.
  cbv zeta.
  repeat (case_match; simplify_eq/=; try (by right);
          try (left; simpl; set_solver)).
Qed.

(** The way down to the balances: the signature is new, the store has no
    row for it, the block time is of today, the node returns the
    transaction and the wallet is among its account keys. *)
Lemma processTransaction_try_reaches sig w (t : Z) s (tx : parsedTx)
    (i : nat) :
  sig ∉ processedTransactions s ->
  dbThrows e (SelectTradeBySignature sig) = false ->
  rowsOf sig (database s) = [] ->
  t <> 0%Z ->
  Clock.isToday (tzOffset e) (now e) (t * 1000) = true ->
  getParsedTransaction e sig = RpcOk (Some tx) ->
  findIndex w (accountKeys tx) = Some i ->
  processTransaction_try e sig w (Some t) s
  = (let solChange :=
       solDelta (solAt (preBalances tx) i) (solAt (postBalances tx) i) in
     if negligible solChange then (Ok tt, addProcessed sig s)
     else match tokenChanges w tx with
          | [] => (Ok tt, s)
          | _ :: _ =>
              bind (classifyAndSaveTransaction e sig w solChange
                      (tokenChanges w tx) tx t)
                (fun _ => bind (updateUserBalance e w)
                  (fun _ => modify (addProcessed sig))) s
          end).
Proof.
  intros Hnew Hdb Hnone Ht Htoday Hrpc Hidx.
  apply selectTradeBySignature_nil in Hnone.
  unfold processTransaction_try, bind at 1 2 3, gets, dbRead,
    rpcGetParsedTransaction.
  rewrite bool_decide_eq_false_2 by done.
  rewrite Hdb, Hnone. unfold truthyTime.
  rewrite (proj2 (Z.eqb_neq t 0) Ht), Htoday. simpl.
  rewrite Hrpc, Hidx. cbv zeta.
  destruct (negligible _); [done|].
  by destruct (tokenChanges w tx).
Qed.

(** [updateUserBalance] always returns and only touches the users
    table. *)
Lemma updateUserBalance_frame w s :
  exists s',
    updateUserBalance e w s = (Ok tt, s') /\
    trades (database s') = trades (database s) /\
    pnlRecords (database s') = pnlRecords (database s) /\
    dailyPnLCache s' = dailyPnLCache s /\
    processedTransactions s' = processedTransactions s /\
    emitted s' = emitted s.
Proof.
  unfold updateUserBalance, bind, gets, tryCatch, dbWrite, ret.
  destruct (truthyId (userIdOf w s)) as [id|]; [|by exists s].
  destruct (dbThrows e (UpdateUser id)); eexists; split; done.
Qed.
End Paths.

(** *** Transfers *)

(** C4, as stated, does not hold. The transaction of signature
    "sigTransferIn" is of today and successful, leaves the SOL balance of
    W1 as it was and takes its balance of MintM from 0 to 100. The
    monitor persists no trade row for it: the signature is cached and
    that is all. *)
Lemma zero_sol_transfer_is_skipped :
  let s' := run (processTransaction Scenario.healthy "sigTransferIn"
                   Scenario.W1 (Some Scenario.blockTime)) Scenario.fresh in
  tokenChanges Scenario.W1 Scenario.txTransferIn
    = [{| tc_mint := Scenario.MintM; preAmount := 0; postAmount := 100;
          change := 100 - 0 |}] /\
  s' = addProcessed "sigTransferIn" Scenario.fresh /\
  trades (database s') = [] /\
  ~ (exists r, r ∈ trades (database s') /\
               type (trade_values r) = deposit).
Proof.
  cbv zeta.
  assert (H : run (processTransaction Scenario.healthy "sigTransferIn"
                     Scenario.W1 (Some Scenario.blockTime)) Scenario.fresh
              = addProcessed "sigTransferIn" Scenario.fresh)
    by reflexivity.
  rewrite H. split_and!; try reflexivity.
  intros (r & Hr & _). simpl in Hr. by apply elem_of_nil in Hr.
Qed.

(** The two ways of a transfer in through [processTransaction], by the
    SOL delta of the wallet as the monitor computes it. *)
Lemma transfer_in_paths (e : env) (sig w : string) (t : Z)
    (s : state) (tx : parsedTx) (i : nat) (tc : tokenChange) (c : Q) :
  sig ∉ processedTransactions s ->
  dbThrows e (SelectTradeBySignature sig) = false ->
  rowsOf sig (database s) = [] ->
  t <> 0%Z ->
  Clock.isToday (tzOffset e) (now e) (t * 1000) = true ->
  getParsedTransaction e sig = RpcOk (Some tx) ->
  err tx = false ->
  findIndex w (accountKeys tx) = Some i ->
  tokenChanges w tx = [tc] ->
  tc_mint tc <> WSOL ->
  (preAmount tc == 0)%Q -> (postAmount tc == 100)%Q ->
  (change tc == 100)%Q ->
  solDelta (solAt (preBalances tx) i) (solAt (postBalances tx) i) = Some c ->
  let s' := run (processTransaction e sig w (Some t)) s in
  (postBalances tx !! i = preBalances tx !! i -> c = 0%Q) /\
  ((Qabs c < EPS64)%Q ->
     s' = addProcessed sig s /\
     trades (database s') = trades (database s) /\
     pnlRecords (database s') = pnlRecords (database s) /\
     emitted s' = emitted s /\
     sig ∈ processedTransactions s') /\
  ((EPS64 <= c)%Q ->
   (forall v, dbThrows e (UpsertTrade v) = false) ->
   exists row,
     trades (database s') = trades (database s) ++ [row] /\
     signature (trade_values row) = sig /\
     trade_walletAddress (trade_values row) = w /\
     type (trade_values row) = deposit /\
     tokenA (trade_values row) = tc_mint tc /\
     tokenB (trade_values row) = tc_mint tc /\
     (amountA (trade_values row) == 100)%Q /\
     tradePnl (trade_values row) = 0%Q /\
     platform (trade_values row) = "transfer" /\
     pnlRecords (database s') = pnlRecords (database s) /\
     dailyPnLCache s' = dailyPnLCache s /\
     emitted s' = emitted s /\
     sig ∈ processedTransactions s').
Proof.
  intros Hnew Hdb Hnone Ht Htoday Hrpc Herr Hidx Htc Hmint
    Hpre Hpost Hchg Hsol s'.
  pose proof (processTransaction_try_reaches e sig w t s tx i
                Hnew Hdb Hnone Ht Htoday Hrpc Hidx) as Hreach.
  rewrite Hsol in Hreach. cbv zeta in Hreach.
  split_and!.
  - intros Heq.
    assert (Hsame : solAt (postBalances tx) i = solAt (preBalances tx) i)
      by (unfold solAt; by rewrite Heq).
    rewrite Hsame in Hsol.
    destruct (solDelta_number _ _ _ Hsol) as (a & _ & Ha & _).
    rewrite (solDelta_diag _ _ Ha) in Hsol. by injection Hsol.
  - intros Hsmall.
    assert (Hneg : negligible (Some c) = true)
      by (by apply Qlt_bool_iff).
    rewrite Hneg in Hreach.
    assert (Hs : s' = addProcessed sig s).
    { unfold s', run, processTransaction, tryCatch. by rewrite Hreach. }
    rewrite Hs. simpl. split_and!; try reflexivity. set_solver.
  - intros Hin Hup.
    assert (Hc0 : (0 <= c)%Q).
    { eapply Qle_trans; [|exact Hin]. discriminate. }
    assert (Hneg : negligible (Some c) = false).
    { apply Qlt_bool_false_iff. by rewrite (Qabs_pos c Hc0). }
    rewrite Hneg, Htc in Hreach.
    set (v := {| trade_userId := userIdOf w s; signature := sig;
                 trade_walletAddress := w; tokenA := tc_mint tc;
                 tokenB := tc_mint tc; type := deposit;
                 amountA := Qabs (change tc);
                 amountB := Qabs (change tc);
                 priceUsd := 0; platform := "transfer"; txFees := 0;
                 timestamp := (t * 1000)%Z; rawData := tx;
                 tradePnl := 0 |}).
    assert (Hcls :
      classifyAndSaveTransaction e sig w (Some c) [tc] tx t s
      = (Ok tt, setDatabase (upsertTrade v (database s)) s)).
    { unfold classifyAndSaveTransaction. rewrite Herr.
      cbn [classifyEach]. unfold classifyOne.
      rewrite bool_decide_eq_false_2 by done.
      assert (Hpos : Qlt_bool 0 (change tc) = true).
      { apply Qlt_bool_iff. rewrite Hchg. reflexivity. }
      assert (Hnotneg : Qlt_bool (change tc) 0 = false).
      { apply Qlt_bool_false_iff. rewrite Hchg. discriminate. }
      assert (Hsolneg : isNegative (Some c) = false)
        by (by apply Qlt_bool_false_iff).
      rewrite Hpos, Hnotneg, Hsolneg. cbn [andb orb].
      unfold bind, gets, dbWrite, ret. fold v. by rewrite (Hup v). }
    destruct (updateUserBalance_frame e w
                (setDatabase (upsertTrade v (database s)) s))
      as (s2 & Hrun & Htr & Hpnl & Hcache & Hproc & Hev).
    assert (Hs : s' = addProcessed sig s2).
    { unfold s', run, processTransaction, tryCatch. rewrite Hreach.
      unfold bind. by rewrite Hcls, Hrun. }
    rewrite Hs. cbn [addProcessed database dailyPnLCache emitted
                     processedTransactions].
    rewrite Htr, Hpnl, Hcache, Hev.
    cbn [setDatabase database dailyPnLCache emitted].
    unfold upsertTrade.
    rewrite bool_decide_eq_false_2.
    2:{ rewrite Exists_exists. intros (r & Hr & Hsig).
        by eapply (filter_nil_not_elem_of _ _ r Hnone). }
    cbn [trades pnlRecords].
    exists {| trade_id := tradesSeq (database s); trade_values := v |}.
    split; [reflexivity|]. unfold v. cbn.
    split_and!; try reflexivity.
    + rewrite Hchg. reflexivity.
    + set_solver.
Qed.

(** C4, amended. A successful transaction of today, new to the monitor,
    has a single token delta for the wallet, taking its balance of a mint
    other than the native-wrapped one from 0 to 100; [c] is the SOL delta
    of the wallet as the monitor computes it, in doubles, and it is 0
    when the lamport balance is the same before and after. If [c] is
    below the double 0.000001 in absolute value, and so if it is 0, the
    transaction counts as fee-only: the signature is added to the set of
    seen signatures and nothing else happens, no trade row is persisted
    and the PnL rows are as before. If SOL came in as well, [c] being
    the double 0.000001 or more, the monitor persists the row
    [{type: "deposit", tokenA = tokenB = mint, amountA = 100,
    tradePnl = 0, platform = "transfer"}], and the PnL rows, the PnL
    cache and the events emitted are as before. *)
Theorem transfer_in_by_sol_delta (e : env) (sig w : string) (t : Z)
    (s : state) (tx : parsedTx) (i : nat) (tc : tokenChange) (c : Q) :
  sig ∉ processedTransactions s ->
  dbThrows e (SelectTradeBySignature sig) = false ->
  rowsOf sig (database s) = [] ->
  t <> 0%Z ->
  Clock.isToday (tzOffset e) (now e) (t * 1000) = true ->
  getParsedTransaction e sig = RpcOk (Some tx) ->
  err tx = false ->
  findIndex w (accountKeys tx) = Some i ->
  tokenChanges w tx = [tc] ->
  tc_mint tc <> WSOL ->
  (preAmount tc == 0)%Q -> (postAmount tc == 100)%Q ->
  (change tc == 100)%Q ->
  solDelta (solAt (preBalances tx) i) (solAt (postBalances tx) i) = Some c ->
  let s' := run (processTransaction e sig w (Some t)) s in
  (postBalances tx !! i = preBalances tx !! i -> c = 0%Q) /\
  ((Qabs c < EPS64)%Q ->
     s' = addProcessed sig s /\
     trades (database s') = trades (database s) /\
     pnlRecords (database s') = pnlRecords (database s) /\
     emitted s' = emitted s /\
     sig ∈ processedTransactions s') /\
  ((EPS64 <= c)%Q ->
   (forall v, dbThrows e (UpsertTrade v) = false) ->
   exists row,
     trades (database s') = trades (database s) ++ [row] /\
     signature (trade_values row) = sig /\
     trade_walletAddress (trade_values row) = w /\
     type (trade_values row) = deposit /\
     tokenA (trade_values row) = tc_mint tc /\
     tokenB (trade_values row) = tc_mint tc /\
     (amountA (trade_values row) == 100)%Q /\
     tradePnl (trade_values row) = 0%Q /\
     platform (trade_values row) = "transfer" /\
     pnlRecords (database s') = pnlRecords (database s) /\
     dailyPnLCache s' = dailyPnLCache s /\
     emitted s' = emitted s /\
     sig ∈ processedTransactions s').
Proof. exact (transfer_in_paths e sig w t s tx i tc c). Qed.

(** The statement on three transactions that bring in 100 tokens: with
    the SOL balance as it was; with 1000 lamports more on a balance of
    1 SOL, where the delta in doubles, 9.999999999177334e-07, is below
    the threshold; and with 0.1 SOL more. *)
Lemma transfer_in_by_sol_delta_witness :
  run (processTransaction Scenario.healthy "sigTransferIn" Scenario.W1
         (Some Scenario.blockTime)) Scenario.fresh
  = addProcessed "sigTransferIn" Scenario.fresh /\
  (Qred <$> solDelta (solAt (preBalances Cases.txEdge) 0)
                     (solAt (postBalances Cases.txEdge) 0)
   = Some (4503599627 # 4503599627370496)%Q /\
   run (processTransaction Cases.calm "sigEdge" Scenario.W1
          (Some Scenario.blockTime)) Scenario.fresh
   = addProcessed "sigEdge" Scenario.fresh) /\
  (Qred <$> solDelta (solAt (preBalances Scenario.txDepositWithSol) 0)
                     (solAt (postBalances Scenario.txDepositWithSol) 0)
   = Some (225179981368525 # 2251799813685248)%Q /\
   exists row,
     trades (database
               (run (processTransaction Scenario.healthy "sigDeposit"
                       Scenario.W1 (Some Scenario.blockTime))
                  Scenario.fresh)) = [row] /\
     type (trade_values row) = deposit /\
     tokenA (trade_values row) = Scenario.MintM /\
     (amountA (trade_values row) == 100)%Q /\
     tradePnl (trade_values row) = 0%Q).
Proof.
  assert (Hnew : forall sig, sig ∉ processedTransactions Scenario.fresh)
    by (intros sig; apply not_elem_of_empty).
  pose (tc := {| tc_mint := Scenario.MintM; preAmount := 0;
                 postAmount := 100; change := 100 - 0 |}).
  pose (edge := default 0%Q
                  (solDelta (solAt (preBalances Cases.txEdge) 0)
                            (solAt (postBalances Cases.txEdge) 0))).
  pose (more := default 0%Q
                  (solDelta
                     (solAt (preBalances Scenario.txDepositWithSol) 0)
                     (solAt (postBalances Scenario.txDepositWithSol) 0))).
  split_and!.
  - exact (proj1 (proj1 (proj2
      (transfer_in_by_sol_delta Scenario.healthy "sigTransferIn"
         Scenario.W1 Scenario.blockTime Scenario.fresh
         Scenario.txTransferIn 0 tc 0
         (Hnew _) eq_refl eq_refl ltac:(discriminate) eq_refl eq_refl
         eq_refl eq_refl eq_refl ltac:(discriminate) eq_refl eq_refl
         eq_refl eq_refl)) eq_refl)).
  - reflexivity.
  - exact (proj1 (proj1 (proj2
      (transfer_in_by_sol_delta Cases.calm "sigEdge"
         Scenario.W1 Scenario.blockTime Scenario.fresh
         Cases.txEdge 0 tc edge
         (Hnew _) eq_refl eq_refl ltac:(discriminate) eq_refl eq_refl
         eq_refl eq_refl eq_refl ltac:(discriminate) eq_refl eq_refl
         eq_refl eq_refl)) eq_refl)).
  - reflexivity.
  - destruct (proj2 (proj2
      (transfer_in_by_sol_delta Scenario.healthy "sigDeposit"
         Scenario.W1 Scenario.blockTime Scenario.fresh
         Scenario.txDepositWithSol 0 tc more
         (Hnew _) eq_refl eq_refl ltac:(discriminate) eq_refl eq_refl
         eq_refl eq_refl eq_refl ltac:(discriminate) eq_refl eq_refl
         eq_refl eq_refl)) ltac:(vm_compute; discriminate)
      (fun _ => eq_refl))
      as (row & H1 & _ & _ & H4 & H5 & _ & H7 & H8 & _).
    exists row. split_and!; [exact H1|exact H4|exact H5|exact H7|exact H8].
Defined.

(** The second half of the statement on the scenario in which 0.1 SOL
    comes in with the 100 tokens. *)
Lemma deposit_with_sol_is_persisted :
  let s' := run (processTransaction Scenario.healthy "sigDeposit"
                   Scenario.W1 (Some Scenario.blockTime)) Scenario.fresh in
  exists row,
    trades (database s') = [row] /\
    type (trade_values row) = deposit /\
    tokenA (trade_values row) = Scenario.MintM /\
    tokenB (trade_values row) = Scenario.MintM /\
    (amountA (trade_values row) == 100)%Q /\
    tradePnl (trade_values row) = 0%Q /\
    platform (trade_values row) = "transfer" /\
    pnlRecords (database s') = [] /\
    emitted s' = [].
Proof.
  assert (Hnew : "sigDeposit" ∉ processedTransactions Scenario.fresh)
    by apply not_elem_of_empty.
  pose (c := default 0%Q
                (solDelta (solAt (preBalances Scenario.txDepositWithSol) 0)
                          (solAt (postBalances Scenario.txDepositWithSol) 0))).
  assert (Hsol : solDelta (solAt (preBalances Scenario.txDepositWithSol) 0)
                          (solAt (postBalances Scenario.txDepositWithSol) 0)
                 = Some c) by reflexivity.
  destruct (proj2 (proj2
    (transfer_in_paths Scenario.healthy "sigDeposit" Scenario.W1
       Scenario.blockTime Scenario.fresh Scenario.txDepositWithSol 0
       {| tc_mint := Scenario.MintM; preAmount := 0; postAmount := 100;
          change := 100 - 0 |} c
       Hnew eq_refl eq_refl ltac:(discriminate) eq_refl eq_refl eq_refl
       eq_refl eq_refl ltac:(discriminate) eq_refl eq_refl
       eq_refl Hsol)) ltac:(vm_compute; discriminate) (fun _ => eq_refl))
    as (row & H1 & _ & _ & H4 & H5 & H6 & H7 & H8 & H9 & H10 & _ & H12 & _).
  exists row. split_and!; done.
Qed.

(** *** Failures and second passes *)

(** C5, as stated, does not hold. Writes to the trades table fail. The
    buy of signature "sigBuy" is classified, with a PnL of
    -0.09999999999999998, which is 0.9 - 1 in doubles; its upsert throws
    and no row is written; the signature is in the set of seen signatures
    all the same, and the next pass skips it. *)
Lemma failed_write_is_cached :
  let e := Scenario.tradesDown in
  let s := Scenario.fresh in
  let s' := run (processTransaction e "sigBuy" Scenario.W1
                   (Some Scenario.blockTime)) s in
  processTransaction_try e "sigBuy" Scenario.W1 (Some Scenario.blockTime) s
    = (Threw (DbError (UpsertTrade Scenario.buyRow)), s) /\
  (tradePnl Scenario.buyRow
   == - (900719925474099 # 9007199254740992))%Q /\
  trades (database s') = [] /\
  ~ ("sigBuy" ∉ processedTransactions s') /\
  processTransaction Scenario.healthy "sigBuy" Scenario.W1
    (Some Scenario.blockTime) s' = (Ok tt, s').
Proof.
  cbv zeta.
  assert (H : run (processTransaction Scenario.tradesDown "sigBuy"
                     Scenario.W1 (Some Scenario.blockTime)) Scenario.fresh
              = addProcessed "sigBuy" Scenario.fresh) by reflexivity.
  rewrite H. split_and!.
  - reflexivity.
  - reflexivity.
  - reflexivity.
  - intros Hn. apply Hn. simpl. set_solver.
  - apply processTransaction_seen. simpl. set_solver.
Qed.

(** C5, amended. Whenever the processing of a signature throws, and so
    when the upsert of its classified trade throws, the signature is
    added to the set of seen signatures, the store being left as the
    failed statement left it; a later pass for the same signature
    returns at once and changes nothing: the signature is not retried. *)
Theorem failed_processing_is_not_retried (e : env) (sig w : string)
    (bt : option Z) (s s1 : state) (x : exn) :
  processTransaction_try e sig w bt s = (Threw x, s1) ->
  let s' := run (processTransaction e sig w bt) s in
  s' = addProcessed sig s1 /\
  database s' = database s1 /\
  sig ∈ processedTransactions s' /\
  forall (e' : env) (w' : string) (bt' : option Z),
    processTransaction e' sig w' bt' s' = (Ok tt, s').
Proof.
  intros Hthrow s'.
  assert (Hs : s' = addProcessed sig s1).
  { unfold s', run, processTransaction, tryCatch. by rewrite Hthrow. }
  assert (Hin : sig ∈ processedTransactions s').
  { rewrite Hs. simpl. set_solver. }
  split_and!; try done.
  - by rewrite Hs.
  - intros e' w' bt'. by apply processTransaction_seen.
Qed.

Lemma failed_processing_is_not_retried_witness :
  let s' := run (processTransaction Scenario.tradesDown "sigBuy"
                   Scenario.W1 (Some Scenario.blockTime)) Scenario.fresh in
  s' = addProcessed "sigBuy" Scenario.fresh /\
  "sigBuy" ∈ processedTransactions s'.
Proof.
  destruct (failed_processing_is_not_retried Scenario.tradesDown "sigBuy"
              Scenario.W1 (Some Scenario.blockTime) Scenario.fresh
              Scenario.fresh
              (DbError (UpsertTrade Scenario.buyRow))
              eq_refl) as (H1 & _ & H3 & _).
  cbv zeta. split; [exact H1|exact H3].
Defined.

(** C6. A signature has been through the monitor once. Feeding it again
    in the same process changes nothing at all: not the trades table, not
    the events emitted, not the PnL rows; that is so for the very same
    call, and for any later call once the signature is in the set of seen
    signatures. After a restart, the row of the signature being in the
    store, the pass only adds the signature to the set: the database and
    the events are as the first pass left them. With the unique index on
    signatures there is at most one row for the signature throughout. *)
Theorem second_pass_changes_nothing (e : env) (sig w : string)
    (bt : option Z) (s : state) :
  let s1 := run (processTransaction e sig w bt) s in
  run (processTransaction e sig w bt) s1 = s1 /\
  (sig ∈ processedTransactions s1 ->
   forall (e' : env) (w' : string) (bt' : option Z),
     processTransaction e' sig w' bt' s1 = (Ok tt, s1)) /\
  (forall (s2 : state) (e' : env) (w' : string) (bt' : option Z),
     restartOf s1 s2 ->
     rowsOf sig (database s1) <> [] ->
     let s3 := run (processTransaction e' sig w' bt') s2 in
     database s3 = database s1 /\
     emitted s3 = emitted s1 /\
     rowsOf sig (database s3) = rowsOf sig (database s1) /\
     dailyPnLCache s3 = dailyPnLCache s2 /\
     sig ∈ processedTransactions s3) /\
  (indexed s ->
   indexed s1 /\ (length (rowsOf sig (database s1)) <= 1)%nat).
Proof.
  intros s1. split_and!.
  - destruct (processTransaction_cached_or_unchanged e sig w bt s)
      as [Hin|Hsame].
    + unfold run at 1. by rewrite (processTransaction_seen e sig w bt s1 Hin).
    + assert (Hs : s1 = s) by (unfold s1, run; by rewrite Hsame).
      rewrite Hs. unfold run. by rewrite Hsame.
  - intros Hin e' w' bt'. by apply processTransaction_seen.
  - intros s2 e' w' bt' [Hdb Hev] Hrow s3.
    destruct (decide (sig ∈ processedTransactions s2)) as [Hin|Hnot].
    + assert (Hs : s3 = s2).
      { unfold s3, run. by rewrite (processTransaction_seen e' sig w' bt' s2). }
      rewrite Hs, Hdb. by split_and!.
    + assert (Hs : s3 = addProcessed sig s2).
      { unfold s3, run.
        rewrite (processTransaction_stored e' sig w' bt' s2); [done|done|].
        by rewrite Hdb. }
      rewrite Hs. simpl. rewrite Hdb. split_and!; try done. set_solver.
  - intros Hidx.
    assert (Hidx1 : indexed s1)
      by apply (processTransaction_indexed e sig w bt s Hidx).
    split; [done|].
    by apply (upsertTrade_rowsOf_le
                {| trade_userId := None; signature := sig;
                   trade_walletAddress := w; tokenA := ""; tokenB := "";
                   type := buy; amountA := 0; amountB := 0; priceUsd := 0;
                   platform := ""; txFees := 0; timestamp := 0;
                   rawData :=
                     {| err := false; preBalances := [];
                        postBalances := []; preTokenBalances := None;
                        postTokenBalances := None; accountKeys := [] |};
                   tradePnl := 0 |}).
Qed.

(** The buy of the scenario, twice over: one row, one ["trade"] event, a
    PnL row that the second pass leaves alone. *)
Lemma second_pass_changes_nothing_witness :
  let p := processTransaction Scenario.healthy "sigBuy" Scenario.W1
             (Some Scenario.blockTime) in
  let s1 := run p Scenario.restarted in
  run p s1 = s1 /\
  length (rowsOf "sigBuy" (database s1)) = 1%nat /\
  length (emitted s1) = 1%nat /\
  length (emitted (run p s1)) = 1%nat /\
  pnlRecords (database (run p s1)) = pnlRecords (database s1).
Proof.
  destruct (second_pass_changes_nothing Scenario.healthy "sigBuy"
              Scenario.W1 (Some Scenario.blockTime) Scenario.restarted)
    as (H1 & _).
  cbv zeta. rewrite H1. split_and!; reflexivity.
Defined.

(** *** The buy of the specification, end to end *)

(** At start-up [initializeDailyPnL] has created today's row and the cache
    entry of W1 on a balance of 1. The buy then leaves one trade row, a
    PnL row of 1 trade, -0.09999999999999998 realized, which is 0.9 - 1
    in doubles, and an end balance of 0.9, the double, one ["trade"] and
    one ["pnl"] event, and the signature among the seen ones. *)
Lemma buy_scenario :
  let e := Scenario.healthy in
  let s0 := run (initializeDailyPnL e Scenario.W1 1) Scenario.fresh in
  let s1 := run (processTransaction e "sigBuy" Scenario.W1
                   (Some Scenario.blockTime)) s0 in
  map trade_values (trades (database s1)) = [Scenario.buyRow] /\
  (amountA Scenario.buyRow == 500)%Q /\
  (amountB Scenario.buyRow == 900719925474099 # 9007199254740992)%Q /\
  (tradePnl Scenario.buyRow == - (900719925474099 # 9007199254740992))%Q /\
  (exists r b,
     pnlRecords (database s1) = [r] /\
     pnl_totalTrades r = 1%Z /\
     (pnl_realizedPnl r == - (900719925474099 # 9007199254740992))%Q /\
     pnl_endBalance r = Some b /\
     (b == 8106479329266893 # 9007199254740992)%Q) /\
  (exists p, emitted s1 = [EvTrade Scenario.W1 0 Scenario.buyRow;
                           EvPnl Scenario.W1 p]) /\
  "sigBuy" ∈ processedTransactions s1.
Proof.
  cbv zeta. split_and!.
  - reflexivity.
  - reflexivity.
  - reflexivity.
  - reflexivity.
  - eexists _, _. split_and!; reflexivity.
  - eexists. reflexivity.
  - apply (bool_decide_unpack _). vm_compute. exact I.
Qed.

End PipelineFacts.

(** ** Push hub *)

Module HubFacts.
Import Store Monitor Hub.

Section Subscriptions.
Context {tokenMetadata : Type}.
Implicit Types (client : ClientConnection) (w : string).

Lemma wallet_tag_inj (a b : string) :
  ("wallet:" +:+ a)%string = ("wallet:" +:+ b)%string -> a = b.
Proof. intros H. by simplify_eq/=. Qed.

(** The client [handleConnection] registers, with its two empty sets. *)
Lemma new_client_coherent (socket : WebSocket) :
coherent {| ws := socket; walletAddresses := ∅; subscriptions := ∅ |}.
Proof. intros a. simpl. set_solver. Qed.

Lemma subscribe_coherent client w :
  coherent client ->
  coherent (handleSubscribeWallet (tokenMetadata:=tokenMetadata) client w).1.
Proof.
  intros Hc a. simpl. rewrite !elem_of_union, !elem_of_singleton, (Hc a).
  split; (intros [H|H]; [left|by right]).
  - by rewrite H.
  - by apply wallet_tag_inj.
Qed.

Lemma unsubscribe_coherent client w :
  coherent client ->
  coherent (handleUnsubscribeWallet (tokenMetadata:=tokenMetadata) client w).1.
Proof.
  intros Hc a. simpl.
  rewrite !elem_of_difference, !elem_of_singleton, (Hc a).
  split; intros [H1 H2]; split; try done.
  - intros E. apply H2. by apply wallet_tag_inj.
  - intros ->. by apply H2.
Qed.

Lemma unsubscribe_removes client w :
  w ∉ walletAddresses
        (handleUnsubscribeWallet (tokenMetadata:=tokenMetadata) client w).1.
Proof. simpl. set_solver. Qed.

(** Whatever the client, the only frame [handleUnsubscribeWallet] can
    hand out is the acknowledgement with [success: true]. *)
Lemma unsubscribe_reply client w (p : sent tokenMetadata) :
  p ∈ (handleUnsubscribeWallet client w).2 ->
  p = (sock (ws client),
       {| msg_type := UNSUBSCRIBE_WALLET; data := Ack w true |}).
Proof.
  simpl. unfold sendToClient. destruct (ready (ws client)); set_solver.
Qed.

(** C10. Unsubscribing from a wallet that is not in the client's set
    (never subscribed, or unsubscribed before) leaves both sets of the
    client as they were; the reply is the [UNSUBSCRIBE_WALLET] frame with
    [{walletAddress, success: true}], the one frame sent on the open
    socket; the client stays coherent and without the wallet, so that a
    further unsubscribe behaves the same and changes nothing. *)
Theorem unsubscribe_unknown_wallet client w :
  coherent client ->
  w ∉ walletAddresses client ->
  let ack : WebSocketMessage tokenMetadata :=
    {| msg_type := UNSUBSCRIBE_WALLET; data := Ack w true |} in
  let res := handleUnsubscribeWallet client w in
  walletAddresses (fst res) = walletAddresses client /\
  subscriptions (fst res) = subscriptions client /\
  ws (fst res) = ws client /\
  snd res = sendToClient (ws client) ack /\
  (connected client -> snd res = [(sock (ws client), ack)]) /\
  coherent (fst res) /\
  (w ∉ walletAddresses (fst res)) /\
  fst (@handleUnsubscribeWallet tokenMetadata (fst res) w) = fst res /\
  snd (@handleUnsubscribeWallet tokenMetadata (fst res) w) = snd res.
Proof.
  intros Hc Hw. cbv zeta.
  assert (Hs : ("wallet:" +:+ w)%string ∉ subscriptions client)
    by (by rewrite <- (Hc w)).
  assert (E1 : walletAddresses client ∖ {[w]} = walletAddresses client)
    by set_solver.
  assert (E2 : subscriptions client ∖ {[("wallet:" +:+ w)%string]}
               = subscriptions client) by set_solver.
  split_and!; simpl; try (rewrite ?E1, ?E2; done).
  unfold connected, sendToClient. by intros ->.
Qed.
End Subscriptions.

Lemma clientA_coherent : coherent Scenario.clientA.
Proof.
  intros a. unfold Scenario.clientA. simpl.
  rewrite !elem_of_singleton. split.
  - by intros ->.
  - apply wallet_tag_inj.
Qed.

Lemma unsubscribe_unknown_wallet_witness :
  let res := @handleUnsubscribeWallet unit Scenario.clientA Scenario.W2 in
  walletAddresses (fst res) = walletAddresses Scenario.clientA /\
  subscriptions (fst res) = subscriptions Scenario.clientA /\
  snd res = [(1%nat, {| msg_type := UNSUBSCRIBE_WALLET;
                        data := Ack Scenario.W2 true |})].
Proof.
  assert (Hw : Scenario.W2 ∉ walletAddresses Scenario.clientA).
  { unfold Scenario.clientA. simpl. apply not_elem_of_singleton.
    discriminate. }
  destruct (@unsubscribe_unknown_wallet unit Scenario.clientA Scenario.W2
              clientA_coherent Hw) as (H1 & H2 & _ & _ & H5 & _).
  split; [exact H1|]. split; [exact H2|]. exact (H5 eq_refl).
Defined.

Section FanOut.
Context {tokenMetadata : Type}.
Variable getTokenMetadata : string -> tokenMetadata.
Implicit Types (clients : list ClientConnection) (c : ClientConnection).
Implicit Types (m : WebSocketMessage tokenMetadata).
Implicit Types (out : list (sent tokenMetadata)).

Lemma framesTo_nil s k : @framesTo tokenMetadata s k [] = 0%nat.
Proof. reflexivity. Qed.

Lemma framesTo_app s k out1 out2 :
  framesTo s k (out1 ++ out2) = (framesTo s k out1 + framesTo s k out2)%nat.
Proof. unfold framesTo. by rewrite filter_app, length_app. Qed.

Lemma framesTo_sendToClient s k (w : WebSocket) m :
  framesTo s k (sendToClient w m) =
  if bool_decide (ready w = OPEN /\ sock w = s /\ msg_type m = k)
  then 1%nat else 0%nat.
Proof.
  unfold framesTo, sendToClient.
  destruct (ready w) eqn:E;
    try (rewrite bool_decide_eq_false_2; [done|by intros [? _]]).
  rewrite filter_cons, filter_nil. simpl. case_bool_decide as H.
  - rewrite decide_True by tauto. done.
  - rewrite decide_False by tauto. done.
Qed.

(** A walk over the clients that hands [m] to those selected by [P]. *)
Lemma framesTo_walk_absent (P : ClientConnection -> bool) s k m clients :
  s ∉ map (fun c => sock (ws c)) clients ->
  framesTo s k
    (flat_map (fun c => if P c then sendToClient (ws c) m else []) clients)
  = 0%nat.
Proof.
  induction clients as [|c clients IH]; intros Hs; [done|].
  simpl in *. rewrite framesTo_app, IH by set_solver.
  destruct (P c); [|done].
  rewrite framesTo_sendToClient, bool_decide_eq_false_2; [done|].
  intros (_ & E & _). set_solver.
Qed.

Lemma framesTo_walk (P : ClientConnection -> bool) m clients c :
  NoDup (map (fun c => sock (ws c)) clients) ->
  c ∈ clients ->
  framesTo (sock (ws c)) (msg_type m)
    (flat_map (fun c => if P c then sendToClient (ws c) m else []) clients)
  = if P c && bool_decide (connected c) then 1%nat else 0%nat.
Proof.
  induction clients as [|c' clients IH]; intros Hnd Hc; [set_solver|].
  simpl in Hnd. apply NoDup_cons in Hnd as [Hnew Hnd].
  simpl. rewrite framesTo_app.
  destruct (decide (sock (ws c') = sock (ws c))) as [E|NE].
  - assert (c ∉ clients).
    { intros Hin. apply Hnew. rewrite E.
      apply (list_elem_of_fmap_2 (fun c => sock (ws c)) _ _ Hin). }
    assert (c = c') as <- by set_solver.
    rewrite framesTo_walk_absent by done.
    destruct (P c); simpl; [|done].
    rewrite framesTo_sendToClient. unfold connected.
    rewrite Nat.add_0_r.
    rewrite (bool_decide_ext _ (ready (ws c) = OPEN)) by tauto. done.
  - assert (c ∈ clients) by set_solver.
    rewrite IH by done.
    destruct (P c'); [|done].
    rewrite framesTo_sendToClient, bool_decide_eq_false_2; [done|tauto].
Qed.

Lemma framesTo_walk_other_kind (P : ClientConnection -> bool) s k m clients :
  msg_type m <> k ->
  framesTo s k
    (flat_map (fun c => if P c then sendToClient (ws c) m else []) clients)
  = 0%nat.
Proof.
  intros Hk. induction clients as [|c clients IH]; [done|].
  simpl. rewrite framesTo_app, IH. destruct (P c); [|done].
  rewrite framesTo_sendToClient, bool_decide_eq_false_2; [done|tauto].
Qed.

Lemma walk_elem (P : ClientConnection -> bool) m clients
    (p : sent tokenMetadata) :
  p ∈ flat_map (fun c => if P c then sendToClient (ws c) m else []) clients ->
  p.2 = m /\ exists c, c ∈ clients /\ connected c /\ sock (ws c) = p.1.
Proof.
  induction clients as [|c clients IH]; simpl; [set_solver|].
  rewrite elem_of_app. intros [H|H].
  - destruct (P c); [|set_solver]. unfold sendToClient in H.
    destruct (ready (ws c)) eqn:E; try (by apply elem_of_nil in H).
    apply list_elem_of_singleton in H as ->. split; [done|].
    exists c. split; [set_solver|]. by split.
  - destruct (IH H) as (? & c' & ? & ? & ?). split; [done|].
    exists c'. split; [set_solver|]. by split.
Qed.

(** [getSubscribedClients] followed by a [forEach] is one walk. *)
Lemma subscribed_walk (walletAddress : string) m clients :
  flat_map (fun c => sendToClient (ws c) m)
    (getSubscribedClients walletAddress clients)
  = flat_map (fun c =>
      if bool_decide (walletAddress ∈ walletAddresses c)
      then sendToClient (ws c) m else []) clients.
Proof.
  unfold getSubscribedClients.
  induction clients as [|c clients IH]; [done|].
  rewrite filter_cons. simpl. case_bool_decide.
  - rewrite decide_True by done. simpl. by rewrite IH.
  - rewrite decide_False by done. by rewrite IH.
Qed.


Lemma framesTo_broadcastToAll_other_kind s k m clients :
  msg_type m <> k -> framesTo s k (broadcastToAll m clients) = 0%nat.
Proof. apply (framesTo_walk_other_kind (fun _ => true)). Qed.


Lemma selectUser_wallet (w : string) (d : db) (u : userRow) :
  selectUser w d = [u] -> user_walletAddress u = w /\ u ∈ users d.
Proof.
  unfold selectUser. intros H.
  assert (Hin : u ∈ filter (fun u => user_walletAddress u = w) (users d)).
  { destruct (filter _ (users d)) as [|x l]; simpl in H; [done|].
    rewrite take_0 in H. set_solver. }
  by apply list_elem_of_filter in Hin.
Qed.


End FanOut.

(** ** Snapshot assembly *)

(** The PnL row of a snapshot is the most recent row of the wallet, of
    whatever day. *)
Lemma assemble_dailyPnl {tokenMetadata : Type}
    (getTokenMetadata : string -> tokenMetadata) (dbFails : dbOp -> bool)
    (d : db) (u : userRow) (x : userData tokenMetadata) :
  assemble getTokenMetadata dbFails d u = Ok x ->
  dailyPnl x = head (selectLastPnl (user_walletAddress u) d) /\
  balance x = default 0%Q (dailyPnl x ≫= pnl_endBalance).
Proof.
  unfold assemble, query, andThen.
  destruct (dbFails (SelectLatestTrade _)); [discriminate|].
  destruct (dbFails (SelectLastPnl _)); [discriminate|].
  destruct (truthyId _) as [i|];
    [destruct (dbFails (SelectTradeById i)); [discriminate|]|];
    by intros [= <-].
Qed.

(** C7. The store holds one PnL row for W1, that of the day before, which
    ended on 5, and none for today. The snapshot broadcast in
    [USERS_UPDATE] and the one sent in [USERS_LIST] on connect both carry
    the row of the day before as [dailyPnl] and 5 as [balance], where
    [dailyPnl] should be absent and [balance] 0. *)
Theorem snapshot_carries_row_of_day_before :
  let d := Scenario.dbWith [Scenario.pnlOn Scenario.dayBefore 4 5] in
  let stale : userData string :=
    {| user := Scenario.user1; lastTrade := None;
       dailyPnl := Some (Scenario.pnlOn Scenario.dayBefore 4 5);
       balance := 5; pnlLastTrade := None; pnlTokenMetadata := None |} in
  today Scenario.healthy = Scenario.dayStart /\
  selectPnl Scenario.W1 Scenario.dayStart d = [] /\
  pnl_date (Scenario.pnlOn Scenario.dayBefore 4 5) <> Scenario.dayStart /\
  broadcastUserUpdate (fun m : string => m) (fun _ => false) d Scenario.W1
    [Scenario.clientA]
  = [(1%nat, {| msg_type := USERS_UPDATE; data := UserData stale |})] /\
  sendInitialUsersList (fun m : string => m) (fun _ => false) d
    (ws Scenario.clientA)
  = [(1%nat, {| msg_type := USERS_LIST; data := UsersData [stale] |})].
Proof.
  cbv zeta. split_and!; try reflexivity. discriminate.
Qed.

End HubFacts.

(** ** The store *)

Module StoreFacts.
Import Chain Store Monitor Laws.

Lemma map_id_on {X : Type} (f : X -> X) (l : list X) :
  (forall x, x ∈ l -> f x = x) -> map f l = l.
Proof.
  induction l as [|x l IH]; intros H; [done|].
  simpl. rewrite H by set_solver. f_equal. apply IH.
  intros y Hy. apply H. set_solver.
Qed.

Lemma rowsOf_app (sig : string) (d : db) (l1 l2 : list tradeRow) :
  trades d = l1 ++ l2 ->
  rowsOf sig d
  = filter (fun r => signature (trade_values r) = sig) l1
    ++ filter (fun r => signature (trade_values r) = sig) l2.
Proof. unfold rowsOf. intros ->. apply filter_app. Qed.

(** The statement that overwrites, as a function on the rows. *)
Lemma overwrite_filter (v : tradeData) (sig : string) (l : list tradeRow) :
  filter (fun r => signature (trade_values r) = sig)
    (map (fun r =>
       if bool_decide (signature (trade_values r) = signature v)
       then {| trade_id := trade_id r; trade_values := v |} else r) l)
  = map (fun r =>
       if bool_decide (signature (trade_values r) = signature v)
       then {| trade_id := trade_id r; trade_values := v |} else r)
      (filter (fun r => signature (trade_values r) = sig) l).
Proof.
  induction l as [|r l IH]; [done|].
  cbn [map]. rewrite !filter_cons.
  case_bool_decide as E; simpl.
  - destruct (decide (signature v = sig)) as [Hs|Hs].
    + rewrite decide_True by congruence. cbn [map].
      rewrite bool_decide_eq_true_2 by done. by rewrite IH.
    + rewrite decide_False by congruence. apply IH.
  - destruct (decide (signature (trade_values r) = sig)) as [Hs|Hs].
    + cbn [map]. rewrite bool_decide_eq_false_2 by done. by rewrite IH.
    + apply IH.
Qed.

(** X1. Insert and look up. With the unique index in place, the look-up by
    the signature just upserted returns exactly one row, which carries
    the values upserted; it has the id of the row that was under the
    signature, or the next id of the sequence if there was none. *)
Theorem upsert_then_select (v : tradeData) (d : db) :
  uniqueSignatures d ->
  exists row,
    selectTradeBySignature (signature v) (upsertTrade v d) = [row] /\
    rowsOf (signature v) (upsertTrade v d) = [row] /\
    trade_values row = v /\
    (forall old, old ∈ rowsOf (signature v) d ->
       trade_id row = trade_id old) /\
    (rowsOf (signature v) d = [] -> trade_id row = tradesSeq d).
Proof.
  intros Hu.
  pose proof (PipelineFacts.upsertTrade_rowsOf_le v d (signature v) Hu)
    as Hle.
  assert (Hrows : exists row,
    rowsOf (signature v) (upsertTrade v d) = [row] /\
    trade_values row = v /\
    (forall old, old ∈ rowsOf (signature v) d ->
       trade_id row = trade_id old) /\
    (rowsOf (signature v) d = [] -> trade_id row = tradesSeq d)).
  { unfold upsertTrade. case_bool_decide as Hex.
    - unfold rowsOf at 1. cbn [trades]. rewrite overwrite_filter.
      fold (rowsOf (signature v) d).
      destruct (rowsOf (signature v) d) as [|r [|r' l]] eqn:Hr.
      + exfalso. apply Exists_exists in Hex as (r & Hin & Hs).
        assert (r ∈ rowsOf (signature v) d)
          by (by apply list_elem_of_filter).
        rewrite Hr in H. by apply elem_of_nil in H.
      + assert (Hs : signature (trade_values r) = signature v).
        { assert (Hin : r ∈ rowsOf (signature v) d)
            by (rewrite Hr; set_solver).
          by apply list_elem_of_filter in Hin as [? _]. }
        cbn [map]. rewrite bool_decide_eq_true_2 by done.
        eexists. split; [reflexivity|]. split; [done|]. split; [|done].
        intros old Hold. by apply list_elem_of_singleton in Hold as ->.
      + simpl in Hle. lia.
    - unfold rowsOf at 1. cbn [trades]. rewrite filter_app.
      assert (Hnone : rowsOf (signature v) d = []).
      { apply PipelineFacts.filter_none. intros r Hr Hs. apply Hex.
        apply Exists_exists. by exists r. }
      unfold rowsOf in Hnone. rewrite Hnone.
      rewrite filter_cons, filter_nil, decide_True by done.
      eexists. split; [reflexivity|]. split; [done|]. split; [|done].
      intros old Hold. fold (rowsOf (signature v) d) in Hnone.
      rewrite Hnone in Hold. by apply elem_of_nil in Hold. }
  destruct Hrows as (row & H1 & H2 & H3 & H4).
  exists row. split_and!; try done.
  rewrite PipelineFacts.selectTradeBySignature_rowsOf, H1. done.
Qed.

Lemma upsert_then_select_witness :
  exists row,
    selectTradeBySignature "sigBuy"
      (upsertTrade Scenario.buyRow (Scenario.dbWith [])) = [row] /\
    trade_values row = Scenario.buyRow /\ trade_id row = 1%Z.
Proof.
  assert (Hu : uniqueSignatures (Scenario.dbWith [])) by apply NoDup_nil_2.
  destruct (upsert_then_select Scenario.buyRow (Scenario.dbWith []) Hu)
    as (row & H1 & _ & H3 & _ & H5).
  exists row. split; [exact H1|]. split; [exact H3|]. exact (H5 eq_refl).
Defined.

(** The upsert leaves the rows of every other signature, the users and the
    PnL rows as they were, and doing it twice leaves the rows that doing
    it once leaves. *)
Lemma upsertTrade_frame (v : tradeData) (d : db) :
  (forall sig, sig <> signature v ->
     rowsOf sig (upsertTrade v d) = rowsOf sig d) /\
  users (upsertTrade v d) = users d /\
  pnlRecords (upsertTrade v d) = pnlRecords d /\
  trades (upsertTrade v (upsertTrade v d)) = trades (upsertTrade v d).
Proof.
  split_and!.
  - intros sig Hs. unfold upsertTrade. case_bool_decide as Hex.
    + unfold rowsOf. cbn [trades]. rewrite overwrite_filter.
      apply map_id_on. intros r Hr.
      apply list_elem_of_filter in Hr as [Hr _].
      rewrite bool_decide_eq_false_2 by congruence. done.
    + unfold rowsOf. cbn [trades]. rewrite filter_app, filter_cons.
      rewrite decide_False by (simpl; congruence).
      by rewrite filter_nil, app_nil_r.
  - unfold upsertTrade. by case_bool_decide.
  - unfold upsertTrade. by case_bool_decide.
  - destruct (decide (Exists (fun r => signature (trade_values r)
                                      = signature v) (trades d)))
      as [Hex|Hex].
    + assert (E : upsertTrade v d
                  = {| users := users d;
                       trades := map (fun r =>
                         if bool_decide (signature (trade_values r)
                                         = signature v)
                         then {| trade_id := trade_id r;
                                 trade_values := v |}
                         else r) (trades d);
                       pnlRecords := pnlRecords d;
                       tradesSeq := (tradesSeq d + 1)%Z;
                       pnlSeq := pnlSeq d |}).
      { unfold upsertTrade. by rewrite bool_decide_eq_true_2. }
      rewrite E. unfold upsertTrade.
      cbn [trades users pnlRecords tradesSeq pnlSeq].
      rewrite bool_decide_eq_true_2.
      2:{ apply Exists_exists in Hex as (r & Hin & Hs).
          apply Exists_exists.
          exists {| trade_id := trade_id r; trade_values := v |}.
          split; [|done].
          apply list_elem_of_fmap. exists r.
          by rewrite bool_decide_eq_true_2. }
      cbn [trades]. rewrite map_map. apply map_ext. intros r.
      destruct (decide (signature (trade_values r) = signature v))
        as [Hs|Hs].
      * rewrite !(bool_decide_eq_true_2 _ Hs). simpl.
        by rewrite bool_decide_eq_true_2.
      * rewrite !(bool_decide_eq_false_2 _ Hs).
        by rewrite ?(bool_decide_eq_false_2 _ Hs).
    + assert (E : upsertTrade v d
                  = {| users := users d;
                       trades := trades d ++
                         [{| trade_id := tradesSeq d; trade_values := v |}];
                       pnlRecords := pnlRecords d;
                       tradesSeq := (tradesSeq d + 1)%Z;
                       pnlSeq := pnlSeq d |}).
      { unfold upsertTrade. by rewrite bool_decide_eq_false_2. }
      rewrite E. unfold upsertTrade.
      cbn [trades users pnlRecords tradesSeq pnlSeq].
      rewrite bool_decide_eq_true_2.
      2:{ apply Exists_exists.
          exists {| trade_id := tradesSeq d; trade_values := v |}.
          split; [set_solver|done]. }
      cbn [trades]. rewrite map_app. cbn [map].
      rewrite bool_decide_eq_true_2 by done. f_equal.
      apply map_id_on. intros r Hr.
      rewrite bool_decide_eq_false_2; [done|].
      intros Hs. apply Hex. apply Exists_exists. by exists r.
Qed.

(** [ORDER BY ... DESC LIMIT 1]: nothing for an empty selection, else a
    row of the selection that no other row is beyond. *)
Lemma latestBy_spec {X : Type} (key : X -> Z) (l : list X) :
  (latestBy key l = None <-> l = []) /\
  (forall x, latestBy key l = Some x ->
     x ∈ l /\ forall y, y ∈ l -> (key y <= key x)%Z).
Proof.
  induction l as [|a l [IHn IHs]]; simpl.
  - split; [done|]. intros x Hx. discriminate.
  - split.
    + split; [|discriminate].
      destruct (latestBy key l); [|discriminate].
      by destruct (key a <? key x)%Z.
    + intros x Hx. destruct (latestBy key l) as [y|] eqn:Hl.
      * destruct (IHs y eq_refl) as [Hy Hmax].
        destruct (Z.ltb_spec (key a) (key y)); injection Hx as <-.
        -- split; [set_solver|]. intros z Hz.
           apply elem_of_cons in Hz as [->|Hz]; [lia|by apply Hmax].
        -- split; [set_solver|]. intros z Hz.
           apply elem_of_cons in Hz as [->|Hz]; [lia|].
           specialize (Hmax z Hz). lia.
      * injection Hx as <-.
        assert (l = []) as -> by (by apply IHn).
        split; [set_solver|]. intros z Hz.
        apply list_elem_of_singleton in Hz as ->. lia.
Qed.

(** X2. The most recent PnL row of a wallet: none if the wallet has no row,
    else one row, of the wallet, and no row of the wallet has a later
    date. *)
Theorem selectLastPnl_latest (w : string) (d : db) :
  (selectLastPnl w d = [] <->
   forall r, r ∈ pnlRecords d -> pnl_walletAddress r <> w) /\
  (forall r rest, selectLastPnl w d = r :: rest ->
     rest = [] /\ r ∈ pnlRecords d /\ pnl_walletAddress r = w /\
     forall r', r' ∈ pnlRecords d -> pnl_walletAddress r' = w ->
       (pnl_date r' <= pnl_date r)%Z).
Proof.
  unfold selectLastPnl.
  destruct (latestBy_spec pnl_date
              (filter (fun r => pnl_walletAddress r = w) (pnlRecords d)))
    as [Hn Hs].
  split.
  - destruct (latestBy pnl_date _) as [x|] eqn:E; simpl.
    + split; [discriminate|]. intros Hno.
      destruct (Hs x eq_refl) as [Hx _].
      apply list_elem_of_filter in Hx as [Hw Hin]. by destruct (Hno x Hin).
    + split; [|done]. intros _ r Hr Hw.
      assert (Hin : r ∈ filter (fun r => pnl_walletAddress r = w)
                          (pnlRecords d))
        by (by apply list_elem_of_filter).
      rewrite (proj1 Hn eq_refl) in Hin. by apply elem_of_nil in Hin.
  - intros r rest Hsel.
    destruct (latestBy pnl_date _) as [x|] eqn:E; simpl in Hsel;
      [|discriminate].
    injection Hsel as <- <-.
    destruct (Hs x eq_refl) as [Hx Hmax].
    apply list_elem_of_filter in Hx as [Hw Hin].
    split_and!; try done.
    intros r' Hr' Hw'. apply Hmax. by apply list_elem_of_filter.
Qed.

Lemma insertUser_perm (u : userRow) (l : list userRow) :
  insertUser u l ≡ₚ u :: l.
Proof.
  induction l as [|v l IH]; [done|].
  simpl. destruct (laterActive u v); [done|].
  rewrite IH. apply Permutation_swap.
Qed.

Lemma laterActive_total (a b : userRow) :
  laterActive a b = false -> laterActive b a = true.
Proof.
  unfold laterActive.
  destruct (lastActive a), (lastActive b); try done.
  intros H. apply Z.leb_gt in H. apply Z.leb_le. lia.
Qed.

Lemma laterActive_trans (a b c : userRow) :
  laterActive a b = true -> laterActive b c = true ->
  laterActive a c = true.
Proof.
  unfold laterActive.
  destruct (lastActive a), (lastActive b), (lastActive c); try done.
  rewrite !Z.leb_le. lia.
Qed.

Lemma insertUser_sorted (u : userRow) (l : list userRow) :
  StronglySorted (fun a b => laterActive a b = true) l ->
  StronglySorted (fun a b => laterActive a b = true) (insertUser u l).
Proof.
  induction l as [|v l IH]; intros Hs; simpl.
  - repeat constructor.
  - apply StronglySorted_inv in Hs as [Hs Hv].
    destruct (laterActive u v) eqn:E.
    + constructor; [by constructor|].
      constructor; [done|].
      eapply Forall_impl; [exact Hv|].
      intros c Hc. by apply (laterActive_trans u v c).
    + constructor; [by apply IH|].
      rewrite insertUser_perm. constructor; [|done].
      by apply laterActive_total.
Qed.

(** X3. [ORDER BY lastActive DESC]: the users, all of them and each once, in
    an order in which nobody comes before a user active later (users
    never active come first). *)
Theorem selectUsersByLastActive_sorted (d : db) :
  selectUsersByLastActive d ≡ₚ users d /\
  StronglySorted (fun a b => laterActive a b = true)
    (selectUsersByLastActive d).
Proof.
  unfold selectUsersByLastActive.
  induction (users d) as [|u l [IHp IHs]]; simpl.
  - split; [done|constructor].
  - split.
    + by rewrite insertUser_perm, IHp.
    + by apply insertUser_sorted.
Qed.

End StoreFacts.

(** ** Token deltas, continued *)

Module DeltaFacts.
Import Chain Store Monitor Laws.

(** Where the token deltas of a wallet come from. *)
Lemma tokenChanges_sources (w : string) (tx : parsedTx) :
  let pres := orEmpty (preTokenBalances tx) in
  let posts := orEmpty (postTokenBalances tx) in
  Forall (fun tc =>
    ~ (change tc == 0)%Q /\
    ((exists post, post ∈ posts /\ owner post = Some w /\
                   tc = pairedEntry pres post /\
                   (EPS < Qabs (change tc))%Q) \/
     (exists pre, pre ∈ pres /\ owner pre = Some w /\
                  tc = exitEntry pre /\ (change tc < 0)%Q /\
                  postAmount tc = 0%Q)))
    (tokenChanges w tx).
Proof.
  cbv zeta. unfold tokenChanges. rewrite TokenFacts.postStep_fold.
  destruct (TokenFacts.preStep_fold w (orEmpty (postTokenBalances tx))
              (orEmpty (preTokenBalances tx))
              ([] ++ filter (fun tc => survives tc = true)
                 (pairedEntries w (orEmpty (preTokenBalances tx))
                    (orEmpty (postTokenBalances tx)))))
    as (exits & -> & Hsound & _).
  apply Forall_forall. intros tc Htc. simpl in Htc.
  apply elem_of_app in Htc as [Htc|Htc].
  - apply list_elem_of_filter in Htc as [Hsurv Hin].
    apply TokenFacts.survives_iff in Hsurv.
    unfold pairedEntries in Hin.
    apply list_elem_of_fmap in Hin as (post & -> & Hpost).
    apply list_elem_of_filter in Hpost as [Hown Hpost].
    apply bool_decide_eq_true in Hown.
    split.
    + intros Hz. rewrite Hz in Hsurv. discriminate Hsurv.
    + left. exists post. by split_and!.
  - destruct (Hsound tc Htc) as (pre & Hpre & Hown & Hpos & ->).
    assert (Hneg : (change (exitEntry pre) < 0)%Q).
    { simpl. apply (Qopp_lt_compat 0) in Hpos. exact Hpos. }
    split.
    + intros Hz. rewrite Hz in Hneg. discriminate Hneg.
    + right. exists pre. by split_and!.
Qed.

(** X4. Every token delta of a wallet comes from a balance that the wallet
    owns and is not zero: it is the paired entry of a post balance of the
    wallet, beyond the threshold, or the full exit of a positive pre
    balance of the wallet, which is negative. *)
Theorem token_changes_owned_nonzero (w : string) (tx : parsedTx) :
  let pres := orEmpty (preTokenBalances tx) in
  let posts := orEmpty (postTokenBalances tx) in
  Forall (fun tc =>
    ~ (change tc == 0)%Q /\
    ((exists post, post ∈ posts /\ owner post = Some w /\
                   tc = pairedEntry pres post /\
                   (EPS < Qabs (change tc))%Q) \/
     (exists pre, pre ∈ pres /\ owner pre = Some w /\
                  tc = exitEntry pre /\ (change tc < 0)%Q /\
                  postAmount tc = 0%Q)))
    (tokenChanges w tx).
Proof. exact (tokenChanges_sources w tx). Qed.

(** X5. A wallet that owns none of the token balances of a transaction has no
    token delta in it. *)
Theorem token_changes_of_stranger (w : string) (tx : parsedTx) :
  (forall b, b ∈ orEmpty (preTokenBalances tx)
               ++ orEmpty (postTokenBalances tx) ->
             owner b <> Some w) ->
  tokenChanges w tx = [].
Proof.
  intros Hno.
  pose proof (tokenChanges_sources w tx) as Hall. cbv zeta in Hall.
  destruct (tokenChanges w tx) as [|tc l]; [done|].
  apply Forall_cons in Hall as [[_ [H|H]] _].
  - destruct H as (post & Hin & Hown & _).
    destruct (Hno post); [set_solver|done].
  - destruct H as (pre & Hin & Hown & _).
    destruct (Hno pre); [set_solver|done].
Qed.

Lemma token_changes_of_stranger_witness :
  tokenChanges Scenario.W2 Scenario.txBuy = [].
Proof.
  apply token_changes_of_stranger. intros b Hb. simpl in Hb.
  apply list_elem_of_singleton in Hb as ->. discriminate.
Defined.

(** X6. A token account that is alone in the transaction, that the wallet
    owns before and after, and whose balance, positive, has not moved
    beyond the threshold, is reported as a full exit: its paired entry is
    dropped by the first loop, and the second loop, which looks for the
    account among the entries that survived, takes it for gone. *)
Theorem unmoved_account_reported_as_exit (w : string) (tx : parsedTx)
    (pre post : tokenBalance) :
  preTokenBalances tx = Some [pre] ->
  postTokenBalances tx = Some [post] ->
  accountIndex post = accountIndex pre ->
  owner pre = Some w -> owner post = Some w ->
  (Qabs (default 0 (uiAmount post) - default 0 (uiAmount pre)) <= EPS)%Q ->
  (0 < default 0 (uiAmount pre))%Q ->
  tokenChanges w tx = [exitEntry pre].
Proof.
  intros Hpre Hpost Hidx Hown Hown' Hsmall Hpos.
  unfold tokenChanges. rewrite Hpre, Hpost.
  change (orEmpty (Some [pre])) with [pre].
  change (orEmpty (Some [post])) with [post].
  cbn [fold_left]. unfold postStep. rewrite bool_decide_eq_true_2 by done.
  cbn [find]. rewrite Hidx, Z.eqb_refl. cbn [amountOf].
  rewrite (proj2 (Qlt_bool_false_iff _ _) Hsmall).
  unfold preStep. cbn [existsb negb andb].
  rewrite bool_decide_eq_true_2 by done.
  rewrite (proj2 (Qlt_bool_iff _ _) Hpos). done.
Qed.

Lemma unmoved_account_reported_as_exit_witness :
  tokenChanges Scenario.W1 Scenario.txUntouched
  = [exitEntry (Scenario.tokenAt 100)].
Proof.
  apply (unmoved_account_reported_as_exit Scenario.W1 Scenario.txUntouched
           (Scenario.tokenAt 100) (Scenario.tokenAt 100));
    try reflexivity; discriminate.
Defined.

End DeltaFacts.

(** ** Daily PnL aggregator, continued *)

Module AggregatorFacts.
Import Chain Store Monitor Laws.

(** X7. A wallet whose most recent row has no end balance, or that has no row
    at all, is seeded from the balance passed in: the row inserted for
    today starts and ends on it. *)
Theorem seeded_from_current_balance (e : env) (w : string) (balance : Q)
    (s : state) :
  dbThrows e (SelectPnl w (today e)) = false ->
  dbThrows e (SelectLastPnl w) = false ->
  dbThrows e (InsertPnl w (today e)) = false ->
  selectPnl w (today e) (database s) = [] ->
  (forall r, head (selectLastPnl w (database s)) = Some r ->
             pnl_endBalance r = None) ->
  exists s' r,
    initializeDailyPnL e w balance s = (Ok tt, s') /\
    pnlRecords (database s') = pnlRecords (database s) ++ [r] /\
    pnl_walletAddress r = w /\ pnl_date r = today e /\
    pnl_startBalance r = balance /\ pnl_endBalance r = Some balance /\
    pnl_realizedPnl r = 0%Q /\ pnl_totalTrades r = 0%Z /\
    dailyPnLCache s' !! w =
      Some {| date := today e; startBalance := balance;
              currentBalance := balance; realizedPnl := 0;
              totalTrades := 0 |}.
Proof.
  intros H1 H2 H3 Hnone Hlast.
  destruct (PnlFacts.initializeDailyPnL_inserts e w balance s H1 H2 H3 Hnone)
    as (s' & Hrun & Hrows & _ & _ & _ & Hcache).
  assert (Hstart : default balance
            (head (selectLastPnl w (database s)) ≫= pnl_endBalance)
          = balance).
  { destruct (head (selectLastPnl w (database s))) as [r|] eqn:E; [|done].
    simpl. by rewrite (Hlast r eq_refl). }
  rewrite Hstart in Hrows, Hcache.
  eexists s', _. split; [exact Hrun|]. split; [exact Hrows|].
  by split_and!.
Qed.

Lemma seeded_from_current_balance_witness :
  exists s' r,
    initializeDailyPnL Scenario.healthy Scenario.W1 1 Scenario.fresh
      = (Ok tt, s') /\
    pnlRecords (database s') = [r] /\
    pnl_startBalance r = 1%Q /\ pnl_endBalance r = Some 1%Q.
Proof.
  destruct (seeded_from_current_balance Scenario.healthy Scenario.W1 1
              Scenario.fresh eq_refl eq_refl eq_refl eq_refl
              ltac:(intros r Hr; discriminate Hr))
    as (s' & r & H1 & H2 & _ & _ & H5 & H6 & _).
  exists s', r. by split_and!.
Defined.

(** *** At most one row per wallet and day *)

Lemma insertPnl_onePerDay (r : pnlRow) (d : db) :
  selectPnl (pnl_walletAddress r) (pnl_date r) d = [] ->
  onePerDay d -> onePerDay (insertPnl r d).
Proof.
  intros Hnone Hone w day. unfold insertPnl. cbn [pnlRecords].
  rewrite filter_app, length_app, filter_cons, filter_nil.
  apply PnlFacts.selectPnl_nil in Hnone.
  case_decide as Hk; cbn [length]; [|specialize (Hone w day); lia].
  unfold pnlKeyed in Hk. cbn [pnl_walletAddress pnl_date] in Hk.
  apply andb_true_iff in Hk as [Hw Hd].
  apply bool_decide_eq_true in Hw. apply Z.eqb_eq in Hd. subst w day.
  rewrite Hnone. simpl. lia.
Qed.

Lemma updatePnl_filter (w : string) (day : Z) (f : pnlRow -> pnlRow)
    (w' : string) (day' : Z) (l : list pnlRow) :
  (forall r, pnl_walletAddress (f r) = pnl_walletAddress r /\
             pnl_date (f r) = pnl_date r) ->
  filter (fun r => pnlKeyed w' day' r = true)
    (map (fun r => if pnlKeyed w day r then f r else r) l)
  = map (fun r => if pnlKeyed w day r then f r else r)
      (filter (fun r => pnlKeyed w' day' r = true) l).
Proof.
  intros Hf. induction l as [|r l IH]; [done|].
  cbn [map]. rewrite !filter_cons.
  assert (Hk : pnlKeyed w' day' (if pnlKeyed w day r then f r else r)
               = pnlKeyed w' day' r).
  { destruct (pnlKeyed w day r); [|done].
    unfold pnlKeyed. destruct (Hf r) as [-> ->]. done. }
  rewrite Hk. case_decide; cbn [map]; by rewrite IH.
Qed.

Lemma updatePnl_onePerDay (w : string) (day : Z) (f : pnlRow -> pnlRow)
    (d : db) :
  (forall r, pnl_walletAddress (f r) = pnl_walletAddress r /\
             pnl_date (f r) = pnl_date r) ->
  onePerDay d -> onePerDay (updatePnl w day f d).
Proof.
  intros Hf Hone w' day'. unfold updatePnl. cbn [pnlRecords].
  rewrite (updatePnl_filter w day f w' day' _ Hf), length_map.
  apply Hone.
Qed.

Lemma initializeDailyPnL_keyed (e : env) (w : string) (b : Q) :
  preserves keyed (initializeDailyPnL e w b).
Proof.
  intros s Hs.
  unfold initializeDailyPnL, bind, dbRead, dbWrite, gets, modify.
  destruct (dbThrows e (SelectPnl w (today e))); [done|].
  destruct (selectPnl w (today e) (database s)) eqn:Hnone; [|done].
  destruct (dbThrows e (SelectLastPnl w)); [done|].
  destruct (dbThrows e (InsertPnl w (today e))); [done|].
  cbn [snd]. unfold keyed. cbn [setCache setDatabase database].
  by apply insertPnl_onePerDay.
Qed.

Lemma updateDailyPnL_keyed (e : env) (w : string) (b p : Q)
    (i : option Z) :
  preserves keyed (updateDailyPnL e w b p i).
Proof.
  intros s Hs. unfold updateDailyPnL, bind, gets.
  destruct (dailyPnLCache s !! w) as [c|];
    [|by apply initializeDailyPnL_keyed].
  cbv zeta. unfold modify, dbWrite. cbn [setCache database].
  destruct (dbThrows e _); [done|].
  cbn [snd]. unfold keyed. cbn [pushEvent setDatabase database].
  by apply updatePnl_onePerDay.
Qed.

Lemma classifyOne_keyed (e : env) (sig w : string) (sc : option Q)
    (tx : parsedTx) (bt : Z) (tc : tokenChange) :
  preserves keyed (classifyOne e sig w sc tx bt tc).
Proof.
  unfold classifyOne. cbv zeta.
  repeat first
    [ apply updateDailyPnL_keyed
    | apply PipelineFacts.preserves_ret
    | apply PipelineFacts.preserves_gets
    | apply PipelineFacts.preserves_bind; [|intros ?]
    | match goal with
      | |- preserves _ (match ?x with _ => _ end) => destruct x
      end ].
  all: first
    [ apply PipelineFacts.preserves_modify; intros ? Hkeep; exact Hkeep
    | apply PipelineFacts.preserves_dbWrite; intros s0 Hkeep;
      unfold keyed in *; cbn [setDatabase database];
      intros w0 day0;
      rewrite (proj1 (proj2 (proj2
                 (StoreFacts.upsertTrade_frame _ (database s0)))));
      apply Hkeep ].
Qed.

Lemma classifyEach_keyed (e : env) (sig w : string) (sc : option Q)
    (tx : parsedTx) (bt : Z) (tcs : list tokenChange) :
  preserves keyed (classifyEach e sig w sc tx bt tcs).
Proof.
  induction tcs as [|tc tcs IH]; simpl.
  - apply PipelineFacts.preserves_ret.
  - apply PipelineFacts.preserves_bind;
      [apply classifyOne_keyed|intros _; exact IH].
Qed.

Lemma processTransaction_keyed (e : env) (sig w : string)
    (bt : option Z) :
  preserves keyed (processTransaction e sig w bt).
Proof.
  unfold processTransaction, processTransaction_try,
    classifyAndSaveTransaction, updateUserBalance.
  cbv zeta.
  repeat first
    [ apply classifyEach_keyed
    | apply PipelineFacts.preserves_ret
    | apply PipelineFacts.preserves_gets
    | apply PipelineFacts.preserves_dbRead
    | apply PipelineFacts.preserves_rpc
    | apply PipelineFacts.preserves_bind; [|intros ?]
    | apply PipelineFacts.preserves_tryCatch; [|intros ?]
    | match goal with
      | |- preserves _ (match ?x with _ => _ end) => destruct x
      end ].
  all: first
    [ apply PipelineFacts.preserves_modify; intros ? Hkeep; exact Hkeep
    | apply PipelineFacts.preserves_dbWrite; intros ? Hkeep; exact Hkeep ].
Qed.

(** X8. The monitor never makes a second PnL row for a wallet and a day: if
    no key has two rows before a transaction is processed, none has
    after, whatever fails on the way. The table itself has no unique
    key; it is the look-up before the insert that keeps the rows
    apart. *)
Theorem one_row_per_wallet_and_day (e : env) (sig w : string)
    (bt : option Z) (s : state) :
  onePerDay (database s) ->
  onePerDay (database (run (processTransaction e sig w bt) s)).
Proof. apply processTransaction_keyed. Qed.

Lemma one_row_per_wallet_and_day_witness :
  onePerDay (database
    (run (processTransaction Scenario.healthy "sigBuy" Scenario.W1
            (Some Scenario.blockTime)) Scenario.restarted)).
Proof.
  apply one_row_per_wallet_and_day.
  intros w day.
  change (pnlRecords (database Scenario.restarted))
    with [Scenario.pnlOn Scenario.dayStart 1 1].
  rewrite filter_cons, filter_nil. case_decide; simpl; lia.
Defined.

(** *** A day of trades *)




(** X10. The update goes to the cached day. With a cache entry in place no
    row is ever inserted, and only rows of the wallet under the date in
    the cache are rewritten: the row of any other day, and so today's
    if the cache is from the day before, and every row of another
    wallet is as it was. *)
Theorem update_goes_to_cached_day (e : env) (w : string)
    (balance pnl : Q) (lastTradeId : option Z) (s : state) (c : pnlCache) :
  dailyPnLCache s !! w = Some c ->
  let s' := run (updateDailyPnL e w balance pnl lastTradeId) s in
  length (pnlRecords (database s')) = length (pnlRecords (database s)) /\
  (forall r, r ∈ pnlRecords (database s) ->
     pnlKeyed w (date c) r = false -> r ∈ pnlRecords (database s')) /\
  (forall w' day, (w', day) <> (w, date c) ->
     selectPnl w' day (database s') = selectPnl w' day (database s)) /\
  (forall c', dailyPnLCache s' !! w = Some c' -> date c' = date c).
Proof.
  intros Hc. cbv zeta.
  unfold run, updateDailyPnL, bind, gets, modify, dbWrite. rewrite Hc.
  cbv zeta. cbn [date setCache database].
  destruct (dbThrows e (UpdatePnl w (date c))); cbn [snd].
  - cbn [database pnlRecords dailyPnLCache]. split_and!; try done.
    intros c'. unfold setCache. cbn [dailyPnLCache].
    rewrite lookup_insert_eq. by intros [= <-].
  - cbn [pushEvent setDatabase database updatePnl pnlRecords dailyPnLCache].
    split_and!.
    + by rewrite length_map.
    + intros r Hr Hk. apply list_elem_of_fmap.
      exists r. by rewrite Hk.
    + intros w' day Hne. unfold selectPnl. unfold updatePnl. cbn [pnlRecords].
      f_equal.
      induction (pnlRecords (database s)) as [|r l IH]; [done|].
      cbn [map]. rewrite !filter_cons.
      destruct (pnlKeyed w (date c) r) eqn:Hk.
      * assert (Hno : pnlKeyed w' day r = false).
        { unfold pnlKeyed in *. apply andb_true_iff in Hk as [H1 H2].
          apply bool_decide_eq_true in H1. apply Z.eqb_eq in H2.
          apply andb_false_iff.
          destruct (decide (w' = w)) as [->|Hw].
          - right. apply Z.eqb_neq. intros Hd. apply Hne. congruence.
          - left. apply bool_decide_eq_false. congruence. }
        rewrite !decide_False; [exact IH| by rewrite Hno |].
        unfold pnlKeyed in *. cbn [pnl_walletAddress pnl_date].
        by rewrite Hno.
      * case_decide; by rewrite IH.
    + intros c'. unfold setCache. cbn [dailyPnLCache].
      rewrite lookup_insert_eq. by intros [= <-].
Qed.

Lemma update_goes_to_cached_day_witness :
  let s' := run (updateDailyPnL Scenario.healthy Scenario.W1 (9 # 10)
                   (- (1 # 10)) None) Cases.overnight in
  selectPnl Scenario.W1 (today Scenario.healthy) (database s') = [].
Proof.
  cbv zeta.
  destruct (update_goes_to_cached_day Scenario.healthy Scenario.W1
              (9 # 10) (- (1 # 10)) None Cases.overnight _ eq_refl)
    as (_ & _ & H & _).
  rewrite (H Scenario.W1 (today Scenario.healthy)); [reflexivity|].
  intros E. vm_compute in E. discriminate E.
Defined.

End AggregatorFacts.

(** ** What processing a transaction never does *)

Module GrowthFacts.
Import Chain Store Monitor Laws.

(** *** Rules for [along] *)

Section Along.
Context {A B : Type} (R : state -> state -> Prop).

Lemma along_ret (HR : Reflexive R) (a : A) : along R (ret a).
Proof. intros s. simpl. reflexivity. Qed.

Lemma along_gets (HR : Reflexive R) (f : state -> A) : along R (gets f).
Proof. intros s. simpl. reflexivity. Qed.

Lemma along_dbRead (HR : Reflexive R) (e : env) (op : dbOp) (q : db -> A) :
  along R (dbRead e op q).
Proof.
  intros s. unfold dbRead. destruct (dbThrows e op); simpl; reflexivity.
Qed.

Lemma along_rpc (HR : Reflexive R) (e : env) (sig : string) :
  along R (rpcGetParsedTransaction e sig).
Proof.
  intros s. unfold rpcGetParsedTransaction.
  destruct (getParsedTransaction e sig); simpl; reflexivity.
Qed.

Lemma along_bind (HT : Transitive R) (m : M A) (k : A -> M B) :
  along R m -> (forall a, along R (k a)) -> along R (bind m k).
Proof.
  intros Hm Hk s. unfold bind. specialize (Hm s).
  destruct (m s) as [[a|x] s1]; simpl in *; [|done].
  etrans; [exact Hm|apply Hk].
Qed.

Lemma along_tryCatch (HT : Transitive R) (m : M A) (h : exn -> M A) :
  along R m -> (forall x, along R (h x)) -> along R (tryCatch m h).
Proof.
  intros Hm Hh s. unfold tryCatch. specialize (Hm s).
  destruct (m s) as [[a|x] s1]; simpl in *; [done|].
  etrans; [exact Hm|apply Hh].
Qed.
End Along.

Lemma along_modify (R : state -> state -> Prop) (f : state -> state) :
  (forall s, R s (f s)) -> along R (modify f).
Proof. intros Hf s. apply Hf. Qed.

Lemma along_dbWrite (R : state -> state -> Prop) (HR : Reflexive R) (e : env)
    (op : dbOp) (u : db -> db) :
  (forall s, R s (setDatabase (u (database s)) s)) ->
  along R (dbWrite e op u).
Proof.
  intros Hu s. unfold dbWrite. destruct (dbThrows e op); simpl;
    [reflexivity|apply Hu].
Qed.

Ltac along_step :=
  first
    [ apply along_ret; apply _ | apply along_gets; apply _
    | apply along_dbRead; apply _ | apply along_rpc; apply _
    | apply along_bind; [apply _| |intros ?]
    | apply along_tryCatch; [apply _| |intros ?]
    | match goal with
      | |- along _ (match ?x with _ => _ end) => destruct x
      end ].

(** *** Nothing is taken back *)

#[local] Instance grows_preorder : PreOrder grows.
Proof.
  split.
  - intros s. unfold grows. by split_and!.
  - intros s1 s2 s3 (A1 & A2 & A3 & A4 & A5 & A6)
      (B1 & B2 & B3 & B4 & B5 & B6).
    unfold grows. split_and!; try (by etrans); congruence.
Qed.

Lemma grows_addProcessed (sig : string) (s : state) :
  grows s (addProcessed sig s).
Proof. unfold grows. split_and!; try done. simpl. set_solver. Qed.

Lemma grows_setCache (w : string) (c : pnlCache) (s : state) :
  grows s (setCache w c s).
Proof. unfold grows. by split_and!. Qed.

Lemma grows_pushEvent (ev : event) (s : state) :
  grows s (pushEvent ev s).
Proof.
  unfold grows. split_and!; try done. simpl. by apply prefix_app_r.
Qed.

Lemma grows_upsertTrade (v : tradeData) (s : state) :
  grows s (setDatabase (upsertTrade v (database s)) s).
Proof.
  unfold grows, upsertTrade.
  case_bool_decide as Hex; cbn [setDatabase database trades pnlRecords
    users processedTransactions emitted activeWallets];
    split_and!; try done.
  - rewrite map_map.
    erewrite map_ext; [done|]. intros r. simpl.
    by case_bool_decide as E; simpl; [rewrite E|].
  - rewrite map_app. by apply prefix_app_r.
Qed.

Lemma grows_insertPnl (r : pnlRow) (s : state) :
  grows s (setDatabase (insertPnl r (database s)) s).
Proof.
  unfold grows, insertPnl.
  cbn [setDatabase database trades pnlRecords users processedTransactions
       emitted activeWallets].
  split_and!; try done. rewrite map_app. by apply prefix_app_r.
Qed.

Lemma grows_updatePnl (w : string) (day : Z) (f : pnlRow -> pnlRow)
    (s : state) :
  (forall r, pnlIdentity (f r) = pnlIdentity r) ->
  grows s (setDatabase (updatePnl w day f (database s)) s).
Proof.
  intros Hf. unfold grows, updatePnl.
  cbn [setDatabase database trades pnlRecords users processedTransactions
       emitted activeWallets].
  split_and!; try done. rewrite map_map.
  erewrite map_ext; [done|]. intros r. simpl.
  by destruct (pnlKeyed w day r); [rewrite Hf|].
Qed.

Lemma grows_updateUser (id t : Z) (s : state) :
  grows s (setDatabase (updateUserLastActive id t (database s)) s).
Proof.
  unfold grows, updateUserLastActive.
  cbn [setDatabase database trades pnlRecords users processedTransactions
       emitted activeWallets].
  split_and!; try done. rewrite map_map.
  apply map_ext. intros u. by destruct (user_id u =? id)%Z.
Qed.

Ltac grows_leaf :=
  first
    [ apply along_modify; intros ?;
      first [ apply grows_addProcessed | apply grows_setCache
            | apply grows_pushEvent ]
    | apply along_dbWrite; [apply _|]; intros ?;
      first [ apply grows_upsertTrade | apply grows_insertPnl
            | apply grows_updateUser
            | apply grows_updatePnl; intros ?; reflexivity ] ].

Lemma initializeDailyPnL_grows (e : env) (w : string) (b : Q) :
  along grows (initializeDailyPnL e w b).
Proof. unfold initializeDailyPnL. repeat along_step; grows_leaf. Qed.

Lemma updateDailyPnL_grows (e : env) (w : string) (b p : Q)
    (i : option Z) :
  along grows (updateDailyPnL e w b p i).
Proof.
  unfold updateDailyPnL. cbv zeta.
  repeat first [ apply initializeDailyPnL_grows | along_step ]; grows_leaf.
Qed.

Lemma classifyOne_grows (e : env) (sig w : string) (sc : option Q)
    (tx : parsedTx) (bt : Z) (tc : tokenChange) :
  along grows (classifyOne e sig w sc tx bt tc).
Proof.
  unfold classifyOne. cbv zeta.
  repeat first [ apply updateDailyPnL_grows | along_step ]; grows_leaf.
Qed.

Lemma classifyEach_grows (e : env) (sig w : string) (sc : option Q)
    (tx : parsedTx) (bt : Z) (tcs : list tokenChange) :
  along grows (classifyEach e sig w sc tx bt tcs).
Proof.
  induction tcs as [|tc tcs IH]; simpl.
  - apply along_ret, _.
  - apply along_bind; [apply _|apply classifyOne_grows|intros _; exact IH].
Qed.

Lemma processTransaction_along_grows (e : env) (sig w : string)
    (bt : option Z) :
  along grows (processTransaction e sig w bt).
Proof.
  unfold processTransaction, processTransaction_try,
    classifyAndSaveTransaction, updateUserBalance.
  cbv zeta.
  repeat first [ apply classifyEach_grows | along_step ]; grows_leaf.
Qed.

(** X11. Processing a transaction takes nothing back, whatever it finds and
    whatever fails: no signature leaves the set of seen ones, the events
    emitted so far stay as they are and in their order, no trade row is
    deleted, renumbered or moved to another signature, no PnL row is
    deleted or has its wallet, day or start balance changed, the users
    stay but for their [lastActive], and the set of active wallets is
    the same. *)
Theorem processTransaction_grows (e : env) (sig w : string)
    (bt : option Z) (s : state) :
  grows s (run (processTransaction e sig w bt) s).
Proof. apply processTransaction_along_grows. Qed.

(** *** Rows of other signatures *)

#[local] Instance sameOtherRows_preorder (sig : string) :
  PreOrder (sameOtherRows sig).
Proof.
  split.
  - by intros s sig' _.
  - intros s1 s2 s3 H12 H23 sig' Hne.
    by rewrite (H23 sig' Hne), (H12 sig' Hne).
Qed.

Lemma sameOtherRows_trades (sig : string) (s s' : state) :
  trades (database s') = trades (database s) -> sameOtherRows sig s s'.
Proof. intros E sig' _. unfold rowsOf. by rewrite E. Qed.

Lemma sameOtherRows_upsert (sig : string) (v : tradeData) (s : state) :
  signature v = sig ->
  sameOtherRows sig s (setDatabase (upsertTrade v (database s)) s).
Proof.
  intros <- sig' Hne.
  apply (proj1 (StoreFacts.upsertTrade_frame v (database s))).
  done.
Qed.

Ltac same_leaf :=
  first
    [ apply along_modify; intros ?; by apply sameOtherRows_trades
    | apply along_dbWrite; [apply _|]; intros ?;
      first [ by apply sameOtherRows_upsert
            | by apply sameOtherRows_trades ] ].

Lemma initializeDailyPnL_same (e : env) (sig w : string) (b : Q) :
  along (sameOtherRows sig) (initializeDailyPnL e w b).
Proof. unfold initializeDailyPnL. repeat along_step; same_leaf. Qed.

Lemma updateDailyPnL_same (e : env) (sig w : string) (b p : Q)
    (i : option Z) :
  along (sameOtherRows sig) (updateDailyPnL e w b p i).
Proof.
  unfold updateDailyPnL. cbv zeta.
  repeat first [ apply initializeDailyPnL_same | along_step ]; same_leaf.
Qed.

Lemma classifyOne_same (e : env) (sig w : string) (sc : option Q)
    (tx : parsedTx) (bt : Z) (tc : tokenChange) :
  along (sameOtherRows sig) (classifyOne e sig w sc tx bt tc).
Proof.
  unfold classifyOne. cbv zeta.
  repeat first [ apply updateDailyPnL_same | along_step ]; same_leaf.
Qed.

Lemma classifyEach_same (e : env) (sig w : string) (sc : option Q)
    (tx : parsedTx) (bt : Z) (tcs : list tokenChange) :
  along (sameOtherRows sig) (classifyEach e sig w sc tx bt tcs).
Proof.
  induction tcs as [|tc tcs IH]; simpl.
  - apply along_ret, _.
  - apply along_bind; [apply _|apply classifyOne_same|intros _; exact IH].
Qed.

Lemma processTransaction_along_same (e : env) (sig w : string)
    (bt : option Z) :
  along (sameOtherRows sig) (processTransaction e sig w bt).
Proof.
  unfold processTransaction, processTransaction_try,
    classifyAndSaveTransaction, updateUserBalance.
  cbv zeta.
  repeat first [ apply classifyEach_same | along_step ]; same_leaf.
Qed.

(** X12. Processing the transaction of one signature leaves the trade rows of
    every other signature exactly as they were. *)
Theorem other_signatures_untouched (e : env) (sig w : string)
    (bt : option Z) (s : state) (sig' : string) :
  sig' <> sig ->
  rowsOf sig' (database (run (processTransaction e sig w bt) s))
  = rowsOf sig' (database s).
Proof. intros Hne. by apply processTransaction_along_same. Qed.

Lemma other_signatures_untouched_witness :
  rowsOf "sigDeposit"
    (database (run (processTransaction Scenario.healthy "sigBuy"
                      Scenario.W1 (Some Scenario.blockTime))
                 Scenario.fresh))
  = rowsOf "sigDeposit" (database Scenario.fresh).
Proof. apply other_signatures_untouched. intros E. discriminate E. Defined.

End GrowthFacts.

(** ** The paths through [processTransaction] *)

Module PathFacts.
Import Chain Store Monitor Laws.

(** *** What is stored is well classified *)

Lemma Qabs_pos_of_neg (c : Q) : (c < 0)%Q -> (0 < Qabs c)%Q.
Proof.
  intros Hc. rewrite (Qabs_neg c) by (by apply Qlt_le_weak).
  rewrite <- (Qopp_involutive 0) at 1. apply Qopp_lt_compat.
  exact Hc.
Qed.

Lemma Qabs_pos_of_pos (c : Q) : (0 < c)%Q -> (0 < Qabs c)%Q.
Proof.
  intros Hc. by rewrite (Qabs_pos c) by (by apply Qlt_le_weak).
Qed.

Lemma upsertTrade_classified (v : tradeData) (d : db) :
  wellClassified v ->
  Forall (fun r => wellClassified (trade_values r)) (trades d) ->
  Forall (fun r => wellClassified (trade_values r))
         (trades (upsertTrade v d)).
Proof.
  intros Hv Hd. unfold upsertTrade. case_bool_decide; cbn [trades].
  - rewrite Forall_forall in Hd |- *. intros r Hr.
    apply list_elem_of_fmap in Hr as (r0 & -> & Hr0).
    case_bool_decide; [exact Hv|by apply Hd].
  - apply Forall_app. split; [done|]. by apply Forall_singleton.
Qed.

Lemma upsert_classified (e : env) (v : tradeData) :
  wellClassified v ->
  preserves classified (dbWrite e (UpsertTrade v) (upsertTrade v)).
Proof.
  intros Hv. apply PipelineFacts.preserves_dbWrite. intros s Hs.
  by apply upsertTrade_classified.
Qed.

Ltac keep_trades :=
  first
    [ apply PipelineFacts.preserves_modify; intros ? Hkeep; exact Hkeep
    | apply PipelineFacts.preserves_dbWrite; intros ? Hkeep; exact Hkeep ].

Ltac classified_step :=
  first
    [ apply PipelineFacts.preserves_ret
    | apply PipelineFacts.preserves_gets
    | apply PipelineFacts.preserves_dbRead
    | apply PipelineFacts.preserves_rpc
    | apply PipelineFacts.preserves_bind; [|intros ?]
    | apply PipelineFacts.preserves_tryCatch; [|intros ?]
    | match goal with
      | |- preserves _ (match ?x with _ => _ end) => destruct x
      end ].

Lemma initializeDailyPnL_classified (e : env) (w : string) (b : Q) :
  preserves classified (initializeDailyPnL e w b).
Proof.
  unfold initializeDailyPnL. repeat classified_step; keep_trades.
Qed.

Lemma updateDailyPnL_classified (e : env) (w : string) (b p : Q)
    (i : option Z) :
  preserves classified (updateDailyPnL e w b p i).
Proof.
  unfold updateDailyPnL. cbv zeta.
  repeat first [ apply initializeDailyPnL_classified | classified_step ];
    keep_trades.
Qed.

Lemma classifyOne_classified (e : env) (sig w : string) (sc : option Q)
    (tx : parsedTx) (bt : Z) (tc : tokenChange) :
  preserves classified (classifyOne e sig w sc tx bt tc).
Proof.
  unfold classifyOne.
  case_bool_decide as Hm; [apply PipelineFacts.preserves_ret|].
  cbv zeta.
  destruct (Qlt_bool 0 (change tc) && isNegative sc) eqn:Hbuy;
    [|destruct (Qlt_bool (change tc) 0 && isPositive sc) eqn:Hsell];
    cbn [orb].
  - apply andb_true_iff in Hbuy as [_ Hneg].
    destruct sc as [c|]; [|discriminate]. cbn [isNegative] in Hneg.
    apply Qlt_bool_iff in Hneg.
    apply PipelineFacts.preserves_bind;
      [apply PipelineFacts.preserves_gets|intros uid].
    apply PipelineFacts.preserves_bind; [|intros _].
    + apply upsert_classified. unfold wellClassified.
      cbn [tokenA amountA type tokenB tradePnl amountB platform default].
      split_and!; try done.
      * apply Qabs_nonneg.
      * rewrite <- (Qopp_involutive 0) at 1. apply Qopp_lt_compat.
        by apply Qabs_pos_of_neg.
      * symmetry. apply Qopp_involutive.
    + apply PipelineFacts.preserves_bind; [keep_trades|intros _].
      apply updateDailyPnL_classified.
  - apply andb_true_iff in Hsell as [_ Hpos].
    destruct sc as [c|]; [|discriminate]. cbn [isPositive] in Hpos.
    apply Qlt_bool_iff in Hpos.
    apply PipelineFacts.preserves_bind;
      [apply PipelineFacts.preserves_gets|intros uid].
    apply PipelineFacts.preserves_bind; [|intros _].
    + apply upsert_classified. unfold wellClassified.
      cbn [tokenA amountA type tokenB tradePnl amountB platform default].
      split_and!; try done.
      * apply Qabs_nonneg.
      * by apply Qabs_pos_of_pos.
    + apply PipelineFacts.preserves_bind; [keep_trades|intros _].
      apply updateDailyPnL_classified.
  - apply PipelineFacts.preserves_bind;
      [apply PipelineFacts.preserves_gets|intros uid].
    apply upsert_classified. unfold wellClassified.
    cbn [tokenA amountA type tokenB tradePnl amountB platform].
    split_and!; try done; [apply Qabs_nonneg|].
    by destruct (Qlt_bool 0 (change tc)).
Qed.

Lemma classifyEach_classified (e : env) (sig w : string) (sc : option Q)
    (tx : parsedTx) (bt : Z) (tcs : list tokenChange) :
  preserves classified (classifyEach e sig w sc tx bt tcs).
Proof.
  induction tcs as [|tc tcs IH]; simpl.
  - apply PipelineFacts.preserves_ret.
  - apply PipelineFacts.preserves_bind;
      [apply classifyOne_classified|intros _; exact IH].
Qed.

Lemma processTransaction_classified (e : env) (sig w : string)
    (bt : option Z) :
  preserves classified (processTransaction e sig w bt).
Proof.
  unfold processTransaction, processTransaction_try,
    classifyAndSaveTransaction, updateUserBalance.
  cbv zeta.
  repeat first [ apply classifyEach_classified | classified_step ];
    keep_trades.
Qed.

(** X13. Every trade row the monitor stores has one of two shapes. A buy or a
    sell is against the native-wrapped mint on platform ["unknown"],
    with a PnL that is negative for a buy and positive for a sell and
    whose size is the SOL amount of the row; a deposit or a withdrawal
    has the same mint and the same amount on both sides, PnL 0 and
    platform ["transfer"]. Token A is never the native-wrapped mint and
    its amount is never negative. If all rows are so before a
    transaction is processed, all are after. *)
Theorem stored_trades_well_classified (e : env) (sig w : string)
    (bt : option Z) (s : state) :
  classified s -> classified (run (processTransaction e sig w bt) s).
Proof. apply processTransaction_classified. Qed.

Lemma stored_trades_well_classified_witness :
  classified (run (processTransaction Scenario.healthy "sigBuy"
                     Scenario.W1 (Some Scenario.blockTime))
                Scenario.fresh).
Proof.
  apply stored_trades_well_classified. apply Forall_nil_2.
Defined.

(** *** Which path was taken *)

Lemma classifyEach_wsol (e : env) (sig w : string) (sc : option Q)
    (tx : parsedTx) (bt : Z) (tcs : list tokenChange) (s : state) :
  Forall (fun tc => tc_mint tc = WSOL) tcs ->
  classifyEach e sig w sc tx bt tcs s = (Ok tt, s).
Proof.
  induction 1 as [|tc tcs Htc _ IH]; [done|].
  cbn [classifyEach]. unfold bind, classifyOne.
  by rewrite (bool_decide_eq_true_2 _ Htc).
Qed.

Lemma unchanged_refl (s : state) : unchanged s s.
Proof. by unfold unchanged. Qed.

Lemma unchanged_addProcessed (sig : string) (s s1 : state) :
  unchanged s s1 -> unchanged s (addProcessed sig s1).
Proof. by unfold unchanged. Qed.

(** The four ways a call can go: the signature was in the set; a gate
    before the token balances was not passed and the signature is added
    to the set; the gates were passed and there is no token delta, so
    that nothing at all happens; the gates were passed and there are
    token deltas, after which the signature is in the set and, unless
    the transaction succeeded on chain and some delta is of a mint other
    than the native-wrapped one, nothing else has changed. *)
Lemma processTransaction_paths (e : env) (sig w : string)
    (bt : option Z) (s : state) :
  let s' := run (processTransaction e sig w bt) s in
  (sig ∈ processedTransactions s /\ s' = s) \/
  ((sig ∉ processedTransactions s) /\ s' = addProcessed sig s) \/
  (exists t tx i, reached e sig w bt s t tx i /\
     ((tokenChanges w tx = [] /\ s' = s) \/
      (tokenChanges w tx <> [] /\ sig ∈ processedTransactions s' /\
       ((err tx = false /\
         exists tc, tc ∈ tokenChanges w tx /\ tc_mint tc <> WSOL) \/
        unchanged s s')))).
Proof.
  intros s'.
  destruct (decide (sig ∈ processedTransactions s)) as [Hin|Hnew].
  { left. split; [done|]. unfold s', run.
    by rewrite PipelineFacts.processTransaction_seen. }
  right.
  assert (Hrun : s' = snd (tryCatch (processTransaction_try e sig w bt)
                             (fun _ => modify (addProcessed sig)) s))
    by reflexivity.
  clearbody s'.
  unfold tryCatch, processTransaction_try, bind, gets, dbRead, modify,
    ret, rpcGetParsedTransaction in Hrun.
  cbv zeta in Hrun.
  rewrite (bool_decide_eq_false_2 _ Hnew) in Hrun.
  destruct (dbThrows e (SelectTradeBySignature sig)) eqn:Hdb;
    [by left|].
  destruct (selectTradeBySignature sig (database s)) eqn:Hsel;
    [|by left].
  apply PipelineFacts.selectTradeBySignature_nil in Hsel.
  destruct bt as [t|]; [|by left].
  unfold truthyTime in Hrun.
  destruct (Z.eqb_spec t 0) as [->|Ht]; [by left|].
  destruct (Clock.isToday (tzOffset e) (now e) (t * 1000)) eqn:Htoday;
    cbn [negb] in Hrun; [|by left].
  destruct (getParsedTransaction e sig) as [|[tx|]] eqn:Hrpc;
    [by left| |by left].
  destruct (findIndex w (accountKeys tx)) as [i|] eqn:Hidx; [|by left].
  destruct (negligible _) eqn:Hneg; [by left|].
  right. exists t, tx, i. split; [by unfold reached|].
  destruct (tokenChanges w tx) as [|tc tcs] eqn:Htcs;
    [by left|right].
  split; [done|].
  destruct (classifyAndSaveTransaction e sig w _ (tc :: tcs) tx t s)
    as [r s1] eqn:Hcls.
  split.
  { rewrite Hrun. destruct r as [[]|x]; [|simpl; set_solver].
    destruct (PipelineFacts.updateUserBalance_frame e w s1)
      as (s2 & Hub & _).
    rewrite Hub. simpl. set_solver. }
  unfold classifyAndSaveTransaction in Hcls.
  destruct (err tx) eqn:Herr.
  { right. injection Hcls as <- <-.
    destruct (PipelineFacts.updateUserBalance_frame e w s)
      as (s2 & Hub & H1 & H2 & H3 & _ & H5).
    rewrite Hub in Hrun. rewrite Hrun. by unfold unchanged. }
  destruct (decide (Forall (fun tc => tc_mint tc = WSOL) (tc :: tcs)))
    as [Hall|Hsome].
  - right. rewrite (classifyEach_wsol _ _ _ _ _ _ _ _ Hall) in Hcls.
    injection Hcls as <- <-.
    destruct (PipelineFacts.updateUserBalance_frame e w s)
      as (s2 & Hub & H1 & H2 & H3 & _ & H5).
    rewrite Hub in Hrun. rewrite Hrun. by unfold unchanged.
  - left. split; [done|].
    apply not_Forall_Exists in Hsome; [|intros ?; apply _].
    apply Exists_exists in Hsome as (tc' & Hin & Hne).
    by exists tc'.
Qed.

(** X14. Nothing is written without every gate passed. If processing a
    transaction changes the trades table, the PnL rows or the events
    emitted, then the signature was new to the process and to the store,
    the block time was there and of today, the node returned the
    transaction, it had succeeded on chain, the wallet was among its
    account keys with a lamport delta that is not negligible, and the
    wallet had a token delta of a mint other than the native-wrapped
    one. *)
Theorem write_needs_all_gates (e : env) (sig w : string) (bt : option Z)
    (s : state) :
  let s' := run (processTransaction e sig w bt) s in
  trades (database s') <> trades (database s) \/
  pnlRecords (database s') <> pnlRecords (database s) \/
  emitted s' <> emitted s ->
  exists t tx i,
    reached e sig w bt s t tx i /\ err tx = false /\
    exists tc, tc ∈ tokenChanges w tx /\ tc_mint tc <> WSOL.
Proof.
  intros s' Hch.
  assert (Hno : ~ unchanged s s').
  { intros (H1 & H2 & _ & H4). by destruct Hch as [?|[?|?]]. }
  destruct (processTransaction_paths e sig w bt s)
    as [[_ Hs]|[[_ Hs]|(t & tx & i & Hr & Hcase)]].
  - exfalso. apply Hno. unfold s'. rewrite Hs. apply unchanged_refl.
  - exfalso. apply Hno. unfold s'. rewrite Hs.
    apply unchanged_addProcessed, unchanged_refl.
  - fold s' in Hcase.
    destruct Hcase as [[_ Hs]|(_ & _ & [[Herr Htc]|Hun])].
    + exfalso. apply Hno. rewrite Hs. apply unchanged_refl.
    + by exists t, tx, i.
    + by exfalso.
Qed.

Lemma write_needs_all_gates_witness :
  exists t tx i,
    reached Scenario.healthy "sigBuy" Scenario.W1
      (Some Scenario.blockTime) Scenario.fresh t tx i /\
    err tx = false /\
    exists tc, tc ∈ tokenChanges Scenario.W1 tx /\ tc_mint tc <> WSOL.
Proof.
  apply write_needs_all_gates. left.
  intros E. vm_compute in E. discriminate E.
Defined.

(** X15. A signature stays out of the set of seen ones on one path only: the
    transaction passed every gate of [reached], up to the SOL delta that
    is not below the threshold, and the wallet has no token delta in it.
    On that path the call returns and changes nothing at all, so that the
    next poll that lists the signature fetches the transaction again. *)
Theorem uncached_only_without_token_changes (e : env) (sig w : string)
    (bt : option Z) (s : state) :
  (sig ∉ processedTransactions (run (processTransaction e sig w bt) s) <->
   exists t tx i,
     reached e sig w bt s t tx i /\ tokenChanges w tx = []) /\
  ((exists t tx i,
      reached e sig w bt s t tx i /\ tokenChanges w tx = []) ->
   processTransaction e sig w bt s = (Ok tt, s)).
Proof.
  assert (Hback : (exists t tx i,
      reached e sig w bt s t tx i /\ tokenChanges w tx = []) ->
    (sig ∉ processedTransactions s) /\
    processTransaction e sig w bt s = (Ok tt, s)).
  { intros (t & tx & i & Hr & Htc).
    destruct Hr as (Hnew & Hdb & Hrows & -> & Ht & Htoday & Hrpc & Hidx
                    & Hneg).
    pose proof (PipelineFacts.processTransaction_try_reaches e sig w t s
                  tx i Hnew Hdb Hrows Ht Htoday Hrpc Hidx) as Hreach.
    cbv zeta in Hreach. rewrite Hneg, Htc in Hreach.
    split; [done|].
    unfold processTransaction, tryCatch. by rewrite Hreach. }
  split; [split|].
  - intros Hout.
    destruct (processTransaction_paths e sig w bt s)
      as [[Hin Hs]|[[_ Hs]|(t & tx & i & Hr & Hcase)]].
    + exfalso. apply Hout. by rewrite Hs.
    + exfalso. apply Hout. rewrite Hs. simpl. set_solver.
    + destruct Hcase as [[Htc _]|(_ & Hin & _)]; [|done].
      by exists t, tx, i.
  - intros H. destruct (Hback H) as [Hnew Hrun].
    unfold run. by rewrite Hrun.
  - intros H. by destruct (Hback H).
Qed.

(** A plain SOL transfer of today, 0.1 SOL sent away, is such a
    transaction. *)
Lemma uncached_only_without_token_changes_witness :
  processTransaction Cases.calm "sigSol" Scenario.W1
    (Some Scenario.blockTime) Scenario.fresh = (Ok tt, Scenario.fresh) /\
  "sigSol" ∉ processedTransactions
    (run (processTransaction Cases.calm "sigSol" Scenario.W1
            (Some Scenario.blockTime)) Scenario.fresh).
Proof.
  assert (Hr : exists t tx i,
    reached Cases.calm "sigSol" Scenario.W1 (Some Scenario.blockTime)
      Scenario.fresh t tx i /\ tokenChanges Scenario.W1 tx = []).
  { exists Scenario.blockTime, Cases.txSolOnly, 0%nat.
    split; [|reflexivity].
    unfold reached. split_and!; try reflexivity.
    - apply not_elem_of_empty.
    - discriminate. }
  destruct (uncached_only_without_token_changes Cases.calm "sigSol"
              Scenario.W1 (Some Scenario.blockTime) Scenario.fresh)
    as [Hiff Hsame].
  split; [exact (Hsame Hr)|exact (proj2 Hiff Hr)].
Defined.

(** A plain SOL transfer of today is such a transaction. *)
Lemma sol_only_transfer_not_cached :
  processTransaction Cases.calm "sigSol" Scenario.W1
    (Some Scenario.blockTime) Scenario.fresh = (Ok tt, Scenario.fresh) /\
  exists t tx i,
    reached Cases.calm "sigSol" Scenario.W1 (Some Scenario.blockTime)
      Scenario.fresh t tx i /\ tokenChanges Scenario.W1 tx = [].
Proof.
  split; [reflexivity|].
  exists Scenario.blockTime, Cases.txSolOnly, 0%nat.
  split; [|reflexivity].
  unfold reached. split_and!; try reflexivity.
  - apply not_elem_of_empty.
  - discriminate.
Qed.

(** A transaction that failed on chain gets past the gates, and all
    that comes of it is the signature in the set and the user touched:
    no trade row, no PnL row, no event. *)
Lemma failed_on_chain_is_only_cached :
  let s' := run (processTransaction Cases.calm "sigFailed" Scenario.W1
                   (Some Scenario.blockTime)) Scenario.fresh in
  tokenChanges Scenario.W1 Cases.txFailed <> [] /\
  trades (database s') = [] /\ pnlRecords (database s') = [] /\
  emitted s' = [] /\
  processedTransactions s' = {[ "sigFailed" ]} ∪ ∅ /\
  lastActive <$> users (database s') = [Some Scenario.noon].
Proof. cbv zeta. split_and!; try reflexivity. discriminate. Qed.

End PathFacts.

(** ** Swaps *)

Module SwapFacts.
Import Chain Store Monitor Laws.
















End SwapFacts.

(** ** Push hub, continued *)

Module BroadcastFacts.
Import Store Monitor Hub.

Section Broadcast.
Context {tokenMetadata : Type}.
Variable getTokenMetadata : string -> tokenMetadata.
Implicit Types (clients : list ClientConnection) (c : ClientConnection).

(** [broadcastUserUpdate] sends nothing when the user look-up fails or
    finds no row, or when one of the first two statements of the
    assembly fails. *)
Lemma broadcastUserUpdate_silent (dbFails : dbOp -> bool) (d : db)
    (w : string) clients :
  dbFails (SelectUser w) = true \/ selectUser w d = [] \/
  dbFails (SelectLatestTrade w) = true \/
  dbFails (SelectLastPnl w) = true ->
  broadcastUserUpdate getTokenMetadata dbFails d w clients = [].
Proof.
  intros H. unfold broadcastUserUpdate, query.
  destruct (dbFails (SelectUser w)) eqn:E1; [done|].
  destruct (selectUser w d) as [|u rest] eqn:E2; [done|].
  assert (Hu : user_walletAddress u = w).
  { unfold selectUser in E2.
    assert (Hin : u ∈ filter (fun u => user_walletAddress u = w) (users d)).
    { destruct (filter _ (users d)) as [|x l]; simpl in E2; [done|].
      rewrite take_0 in E2. set_solver. }
    by apply list_elem_of_filter in Hin as [? _]. }
  unfold assemble, query, andThen. rewrite Hu.
  destruct H as [H|[H|[H|H]]]; try congruence.
  - by rewrite H.
  - destruct (dbFails (SelectLatestTrade w)); [done|]. by rewrite H.
Qed.

End Broadcast.


Section Degraded.
Context {tokenMetadata : Type}.
Variable getTokenMetadata : string -> tokenMetadata.
Implicit Types (clients : list ClientConnection) (c : ClientConnection).

(** X19. The wallet frames do not wait for the snapshot. When the user
    look-up fails or finds no user of the wallet, or the assembly fails
    on its first statements, a trade event and a PnL event still hand
    their [TRADE_UPDATE] and [PNL_UPDATE] frame to every connected
    client that has the wallet in its set, once each; no [USERS_UPDATE]
    frame and no [ERROR] frame goes to anybody. *)
Theorem update_without_snapshot (dbFails : dbOp -> bool) (d : db)
    (w : string) (id : Z) (trade : tradeData) (pnl : pnlSnapshot) clients :
  NoDup (map (fun c => sock (ws c)) clients) ->
  dbFails (SelectUser w) = true \/ selectUser w d = [] \/
  dbFails (SelectLatestTrade w) = true \/
  dbFails (SelectLastPnl w) = true ->
  let outT := handleTradeUpdate getTokenMetadata dbFails d w id trade
                clients in
  let outP := handlePnLUpdate getTokenMetadata dbFails d w pnl clients in
  (forall c, c ∈ clients ->
     framesTo (sock (ws c)) TRADE_UPDATE outT =
       (if bool_decide (w ∈ walletAddresses c) && bool_decide (connected c)
        then 1%nat else 0%nat) /\
     framesTo (sock (ws c)) PNL_UPDATE outP =
       (if bool_decide (w ∈ walletAddresses c) && bool_decide (connected c)
        then 1%nat else 0%nat)) /\
  (forall p, p ∈ outT ->
     snd p = {| msg_type := TRADE_UPDATE; data := TradeData w id trade |}) /\
  (forall p, p ∈ outP ->
     snd p = {| msg_type := PNL_UPDATE; data := PnlData w pnl |}).
Proof.
  intros Hnd Hfail. cbv zeta.
  unfold handleTradeUpdate, handlePnLUpdate.
  rewrite (broadcastUserUpdate_silent getTokenMetadata dbFails d w clients
             Hfail).
  rewrite !app_nil_r, HubFacts.subscribed_walk.
  unfold broadcastToWalletSubscribers.
  split_and!.
  - intros c Hc. split.
    + by rewrite (HubFacts.framesTo_walk _
        {| msg_type := TRADE_UPDATE; data := TradeData w id trade |}).
    + by rewrite (HubFacts.framesTo_walk _
        {| msg_type := PNL_UPDATE; data := PnlData w pnl |}).
  - intros p Hp. by apply HubFacts.walk_elem in Hp as [? _].
  - intros p Hp. by apply HubFacts.walk_elem in Hp as [? _].
Qed.
End Degraded.

Lemma update_without_snapshot_witness :
  let out :=
    handleTradeUpdate (fun m : string => m)
      (fun op => match op with SelectUser _ => true | _ => false end)
      Scenario.dbTwoUsers Scenario.W2 0
      (Scenario.buyValues "sigBuy" Scenario.W2)
      [Scenario.clientA; Scenario.clientB] in
  framesTo 2 TRADE_UPDATE out = 1%nat.
Proof.
  assert (Hnd : NoDup (map (fun c => sock (ws c))
                         [Scenario.clientA; Scenario.clientB])).
  { apply (bool_decide_unpack _). vm_compute. exact I. }
  destruct (update_without_snapshot (fun m : string => m)
              (fun op => match op with SelectUser _ => true | _ => false end)
              Scenario.dbTwoUsers Scenario.W2 0
              (Scenario.buyValues "sigBuy" Scenario.W2)
              {| snap_date := 0; snap_startBalance := 0;
                 snap_currentBalance := 0; snap_realizedPnl := 0;
                 snap_totalTrades := 0; snap_lastTradeId := None;
                 snap_timestamp := 0 |}
              [Scenario.clientA; Scenario.clientB] Hnd
              (or_introl eq_refl))
    as (Hcount & _ & _).
  exact (proj1 (Hcount Scenario.clientB ltac:(set_solver))).
Defined.

End BroadcastFacts.

(** ** What a snapshot carries *)

Module SnapshotFacts.
Import Chain Store Monitor Hub Laws.

Section Snapshot.
Context {tokenMetadata : Type}.
Variable getTokenMetadata : string -> tokenMetadata.
Variable dbFails : dbOp -> bool.
Variable d : db.






(** X21. The last trade of a snapshot is a trade of the user's wallet that no
    other trade of the wallet is later than, with the metadata of its
    two mints; it is absent exactly if the wallet has no trade. *)
Theorem snapshot_last_trade (u : userRow) (x : userData tokenMetadata) :
  assemble getTokenMetadata dbFails d u = Ok x ->
  match lastTrade x with
  | Some (t, ma, mb) =>
      t ∈ trades d /\
      trade_walletAddress (trade_values t) = user_walletAddress u /\
      (forall t', t' ∈ trades d ->
         trade_walletAddress (trade_values t') = user_walletAddress u ->
         (timestamp (trade_values t') <= timestamp (trade_values t))%Z) /\
      ma = getTokenMetadata (tokenA (trade_values t)) /\
      mb = getTokenMetadata (tokenB (trade_values t))
  | None =>
      forall t', t' ∈ trades d ->
        trade_walletAddress (trade_values t') <> user_walletAddress u
  end.
Proof.
  intros Hx.
  assert (Hlast : lastTrade x =
    match selectLatestTrade (user_walletAddress u) d with
    | t :: _ => Some (t, getTokenMetadata (tokenA (trade_values t)),
                      getTokenMetadata (tokenB (trade_values t)))
    | [] => None
    end).
  { revert Hx. unfold assemble, query, andThen.
    destruct (dbFails (SelectLatestTrade _)); [discriminate|].
    destruct (dbFails (SelectLastPnl _)); [discriminate|].
    destruct (truthyId _) as [i|];
      [destruct (dbFails (SelectTradeById i)); [discriminate|]|];
      by intros [= <-]. }
  rewrite Hlast. unfold selectLatestTrade.
  destruct (StoreFacts.latestBy_spec
              (fun r => timestamp (trade_values r))
              (filter (fun r => trade_walletAddress (trade_values r)
                                = user_walletAddress u) (trades d)))
    as [Hn Hs].
  destruct (latestBy _ _) as [t|] eqn:E; cbn [option_list].
  - destruct (Hs t eq_refl) as [Hin Hmax].
    apply list_elem_of_filter in Hin as [Hw Hin].
    split_and!; try done.
    intros t' Hin' Hw'. apply Hmax. by apply list_elem_of_filter.
  - intros t' Hin' Hw'.
    assert (Hf : t' ∈ filter (fun r => trade_walletAddress (trade_values r)
                                       = user_walletAddress u) (trades d))
      by (by apply list_elem_of_filter).
    rewrite (proj1 Hn eq_refl) in Hf. by apply elem_of_nil in Hf.
Qed.
End Snapshot.

Lemma snapshot_last_trade_witness :
  {| trade_id := 1;
     trade_values := Scenario.buyValues "sigBuy" Scenario.W1 |}
    ∈ trades Cases.dbTraded.
Proof.
  pose proof (snapshot_last_trade (fun m : string => m) (fun _ => false)
                Cases.dbTraded Scenario.user1
                {| user := Scenario.user1;
                   lastTrade :=
                     Some ({| trade_id := 1;
                              trade_values :=
                                Scenario.buyValues "sigBuy" Scenario.W1 |},
                           Scenario.MintM, WSOL);
                   dailyPnl :=
                     Some (Scenario.pnlOn Scenario.dayStart 1 (9 # 10));
                   balance := 9 # 10; pnlLastTrade := None;
                   pnlTokenMetadata := None |} eq_refl) as H.
  cbn [lastTrade] in H. exact (proj1 H).
Defined.

(** *** The monitor never names a trade in a PnL row *)

Lemma initializeDailyPnL_noLastTrade (e : env) (w : string) (b : Q) :
  preserves noLastTrade (initializeDailyPnL e w b).
Proof.
  unfold initializeDailyPnL.
  repeat first
    [ apply PipelineFacts.preserves_ret
    | apply PipelineFacts.preserves_gets
    | apply PipelineFacts.preserves_dbRead
    | apply PipelineFacts.preserves_bind; [|intros ?]
    | match goal with
      | |- preserves _ (match ?x with _ => _ end) => destruct x
      end ].
  all: first
    [ apply PipelineFacts.preserves_modify; intros ? Hkeep; exact Hkeep
    | apply PipelineFacts.preserves_dbWrite; intros s Hs;
      unfold noLastTrade, insertPnl;
      cbn [setDatabase database pnlRecords];
      apply Forall_app; split; [exact Hs|by apply Forall_singleton] ].
Qed.

Lemma updateDailyPnL_noLastTrade (e : env) (w : string) (b p : Q) :
  preserves noLastTrade (updateDailyPnL e w b p None).
Proof.
  unfold updateDailyPnL. cbv zeta.
  apply PipelineFacts.preserves_bind;
    [apply PipelineFacts.preserves_gets|intros [c|]];
    [|apply initializeDailyPnL_noLastTrade].
  apply PipelineFacts.preserves_bind;
    [apply PipelineFacts.preserves_modify; intros ? Hkeep; exact Hkeep
    |intros _].
  apply PipelineFacts.preserves_bind;
    [|intros _; apply PipelineFacts.preserves_modify;
      intros ? Hkeep; exact Hkeep].
  apply PipelineFacts.preserves_dbWrite. intros s Hs.
  unfold noLastTrade, updatePnl in *.
  cbn [setDatabase database pnlRecords].
  rewrite Forall_forall in Hs |- *. intros r Hr.
  apply list_elem_of_fmap in Hr as (r0 & -> & Hr0).
  destruct (pnlKeyed _ _ r0); [|by apply Hs].
  cbn [pnl_lastTradeId truthyId]. by apply Hs.
Qed.

Lemma classifyEach_noLastTrade (e : env) (sig w : string) (sc : option Q)
    (tx : parsedTx) (bt : Z) (tcs : list tokenChange) :
  preserves noLastTrade (classifyEach e sig w sc tx bt tcs).
Proof.
  induction tcs as [|tc tcs IH]; cbn [classifyEach].
  - apply PipelineFacts.preserves_ret.
  - apply PipelineFacts.preserves_bind; [|intros _; exact IH].
    unfold classifyOne. cbv zeta.
    repeat first
      [ apply updateDailyPnL_noLastTrade
      | apply PipelineFacts.preserves_ret
      | apply PipelineFacts.preserves_gets
      | apply PipelineFacts.preserves_bind; [|intros ?]
      | match goal with
        | |- preserves _ (match ?x with _ => _ end) => destruct x
        end ].
    all: first
      [ apply PipelineFacts.preserves_modify; intros ? Hkeep; exact Hkeep
      | apply PipelineFacts.preserves_dbWrite; intros s Hs;
        unfold noLastTrade in *; cbn [setDatabase database];
        by rewrite (proj1 (proj2 (proj2
                      (StoreFacts.upsertTrade_frame _ (database s))))) ].
Qed.

Lemma processTransaction_noLastTrade (e : env) (sig w : string)
    (bt : option Z) :
  preserves noLastTrade (processTransaction e sig w bt).
Proof.
  unfold processTransaction, processTransaction_try,
    classifyAndSaveTransaction, updateUserBalance.
  cbv zeta.
  repeat first
    [ apply classifyEach_noLastTrade
    | apply PipelineFacts.preserves_ret
    | apply PipelineFacts.preserves_gets
    | apply PipelineFacts.preserves_dbRead
    | apply PipelineFacts.preserves_rpc
    | apply PipelineFacts.preserves_bind; [|intros ?]
    | apply PipelineFacts.preserves_tryCatch; [|intros ?]
    | match goal with
      | |- preserves _ (match ?x with _ => _ end) => destruct x
      end ].
  all: first
    [ apply PipelineFacts.preserves_modify; intros ? Hkeep; exact Hkeep
    | apply PipelineFacts.preserves_dbWrite; intros ? Hkeep; exact Hkeep ].
Qed.

Lemma selectLastPnl_elem (w : string) (d : db) (r : pnlRow) :
  head (selectLastPnl w d) = Some r -> r ∈ pnlRecords d.
Proof.
  unfold selectLastPnl.
  destruct (StoreFacts.latestBy_spec pnl_date
              (filter (fun r => pnl_walletAddress r = w) (pnlRecords d)))
    as [_ Hs].
  destruct (latestBy _ _) as [x|]; [|discriminate].
  cbn [option_list head]. intros [= <-].
  destruct (Hs x eq_refl) as [Hin _].
  by apply list_elem_of_filter in Hin as [_ ?].
Qed.

(** X22. The monitor and the hub together. The monitor never writes the id
    of a trade into a PnL row: it seeds rows without one and updates
    them without passing one. So if no row names a trade before a
    transaction is processed, none does after, and every snapshot the
    hub assembles from the store then has neither [pnlLastTrade] nor
    [pnlTokenMetadata]. *)
Theorem snapshots_never_name_a_pnl_trade {tokenMetadata : Type}
    (getTokenMetadata : string -> tokenMetadata) (e : env)
    (sig w : string) (bt : option Z) (s : state) :
  noLastTrade s ->
  let s' := run (processTransaction e sig w bt) s in
  noLastTrade s' /\
  forall (dbFails : dbOp -> bool) (u : userRow)
         (x : userData tokenMetadata),
    assemble getTokenMetadata dbFails (database s') u = Ok x ->
    pnlLastTrade x = None /\ pnlTokenMetadata x = None.
Proof.
  intros Hs s'.
  assert (Hs' : noLastTrade s')
    by apply (processTransaction_noLastTrade e sig w bt s Hs).
  split; [exact Hs'|].
  intros dbFails u x. unfold assemble, query, andThen.
  destruct (dbFails (SelectLatestTrade _)); [discriminate|].
  destruct (dbFails (SelectLastPnl _)); [discriminate|].
  assert (Hnone : head (selectLastPnl (user_walletAddress u) (database s'))
                  ≫= pnl_lastTradeId = None).
  { destruct (head _) as [r|] eqn:E; [|done]. cbn.
    apply selectLastPnl_elem in E.
    unfold noLastTrade in Hs'. rewrite Forall_forall in Hs'.
    by apply Hs'. }
  rewrite Hnone. cbn [truthyId]. by intros [= <-].
Qed.

Lemma snapshots_never_name_a_pnl_trade_witness :
  noLastTrade
    (run (processTransaction Scenario.healthy "sigBuy" Scenario.W1
            (Some Scenario.blockTime)) Cases.warm).
Proof.
  assert (H0 : noLastTrade Cases.warm).
  { apply Forall_cons. split; [reflexivity|apply Forall_nil_2]. }
  exact (proj1 (snapshots_never_name_a_pnl_trade
                  (fun m : string => m) Scenario.healthy "sigBuy"
                  Scenario.W1 (Some Scenario.blockTime) Cases.warm H0)).
Defined.

End SnapshotFacts.

(** ** Connections and client messages *)

Module SessionFacts.
Import Store Monitor Hub Session.

(** *** The registry as a map *)

Lemma clientOf_Some (w : WebSocket) (clients : list ClientConnection)
    (c : ClientConnection) :
  clientOf w clients = Some c -> c ∈ clients /\ sock (ws c) = sock w.
Proof.
  unfold clientOf. intros H. apply find_some in H as [Hin Hs].
  split; [by apply list_elem_of_In|]. by apply bool_decide_eq_true in Hs.
Qed.

Lemma clientOf_None (w : WebSocket) (clients : list ClientConnection) :
  clientOf w clients = None -> sock w ∉ map (fun c => sock (ws c)) clients.
Proof.
  unfold clientOf. intros H Hin.
  apply list_elem_of_fmap in Hin as (c & Hs & Hc).
  apply list_elem_of_In in Hc.
  pose proof (find_none _ _ H c Hc) as Hf. cbn in Hf.
  by rewrite bool_decide_eq_true_2 in Hf.
Qed.

Lemma keyed_unique (clients : list ClientConnection)
    (c1 c2 : ClientConnection) :
  NoDup (map (fun c => sock (ws c)) clients) ->
  c1 ∈ clients -> c2 ∈ clients -> sock (ws c1) = sock (ws c2) -> c1 = c2.
Proof.
  induction clients as [|c clients IH]; intros Hnd H1 H2 Hs;
    [by apply elem_of_nil in H1|].
  cbn [map] in Hnd. apply NoDup_cons in Hnd as [Hnew Hnd].
  apply elem_of_cons in H1 as [->|H1]; apply elem_of_cons in H2 as [->|H2].
  - done.
  - exfalso. apply Hnew. rewrite Hs.
    by apply (list_elem_of_fmap_2 (fun c => sock (ws c))).
  - exfalso. apply Hnew. rewrite <- Hs.
    by apply (list_elem_of_fmap_2 (fun c => sock (ws c))).
  - by apply IH.
Qed.

Lemma clientOf_keyed (w : WebSocket) (clients : list ClientConnection)
    (c : ClientConnection) :
  NoDup (map (fun c => sock (ws c)) clients) ->
  c ∈ clients -> sock (ws c) = sock w -> clientOf w clients = Some c.
Proof.
  intros Hnd Hc Hs.
  destruct (clientOf w clients) as [c'|] eqn:E.
  - apply clientOf_Some in E as [Hc' Hs']. f_equal.
    apply (keyed_unique clients); congruence.
  - apply clientOf_None in E. exfalso. apply E. rewrite <- Hs.
    by apply (list_elem_of_fmap_2 (fun c => sock (ws c))).
Qed.

(** Setting the value of a key that is there. *)
Lemma clientsSet_present (c : ClientConnection)
    (clients : list ClientConnection) (c0 : ClientConnection) :
  c0 ∈ clients -> sock (ws c0) = sock (ws c) ->
  clientsSet c clients
  = map (fun c' => if bool_decide (sock (ws c') = sock (ws c))
                   then c else c') clients.
Proof.
  intros Hin Hs. unfold clientsSet. rewrite bool_decide_eq_true_2; [done|].
  apply Exists_exists. by exists c0.
Qed.

Lemma clientsSet_absent (c : ClientConnection)
    (clients : list ClientConnection) :
  sock (ws c) ∉ map (fun c => sock (ws c)) clients ->
  clientsSet c clients = clients ++ [c].
Proof.
  intros Hout. unfold clientsSet. rewrite bool_decide_eq_false_2; [done|].
  rewrite Exists_exists. intros (c0 & Hin & Hs). apply Hout.
  rewrite <- Hs. by apply (list_elem_of_fmap_2 (fun c => sock (ws c))).
Qed.

Lemma replace_sockets (c : ClientConnection)
    (clients : list ClientConnection) :
  map (fun c => sock (ws c))
    (map (fun c' => if bool_decide (sock (ws c') = sock (ws c))
                    then c else c') clients)
  = map (fun c => sock (ws c)) clients.
Proof.
  rewrite map_map. apply map_ext. intros c'. by case_bool_decide.
Qed.

Lemma clientsSet_sockets (c : ClientConnection)
    (clients : list ClientConnection) :
  map (fun c => sock (ws c)) (clientsSet c clients)
  = if bool_decide (sock (ws c) ∈ map (fun c => sock (ws c)) clients)
    then map (fun c => sock (ws c)) clients
    else map (fun c => sock (ws c)) clients ++ [sock (ws c)].
Proof.
  case_bool_decide as Hin.
  - apply list_elem_of_fmap in Hin as (c0 & Hs & Hc0).
    rewrite (clientsSet_present c clients c0 Hc0) by done.
    apply replace_sockets.
  - rewrite clientsSet_absent by done. by rewrite map_app.
Qed.

Lemma clientsSet_wellFormed (c : ClientConnection)
    (clients : list ClientConnection) :
  coherent c -> wellFormed clients -> wellFormed (clientsSet c clients).
Proof.
  intros Hc [Hnd Hco]. split.
  - rewrite clientsSet_sockets. case_bool_decide as Hin; [done|].
    apply NoDup_app. split_and!; [done| |apply NoDup_singleton].
    intros x Hx Hx'. apply list_elem_of_singleton in Hx' as ->. done.
  - unfold clientsSet. case_bool_decide.
    + rewrite Forall_forall in Hco |- *. intros c' Hc'.
      apply list_elem_of_fmap in Hc' as (c0 & -> & Hc0).
      case_bool_decide; [done|by apply Hco].
    + apply Forall_app. split; [done|by apply Forall_singleton].
Qed.

Lemma clientsDelete_keyed (w : WebSocket)
    (clients : list ClientConnection) :
  NoDup (map (fun c => sock (ws c)) clients) ->
  NoDup (map (fun c => sock (ws c)) (clientsDelete w clients)).
Proof.
  unfold clientsDelete.
  induction clients as [|c clients IH]; intros Hnd; [done|].
  cbn [map] in Hnd. apply NoDup_cons in Hnd as [Hnew Hnd].
  rewrite filter_cons. case_decide; [|by apply IH].
  cbn [map]. apply NoDup_cons. split; [|by apply IH].
  intros Hin. apply Hnew.
  apply list_elem_of_fmap in Hin as (c0 & Hs & Hc0).
  apply list_elem_of_filter in Hc0 as [_ Hc0].
  rewrite Hs. by apply (list_elem_of_fmap_2 (fun c => sock (ws c))).
Qed.

Section Handlers.
Context {tokenMetadata : Type}.
Variable getTokenMetadata : string -> tokenMetadata.
Implicit Types (clients : list ClientConnection) (c : ClientConnection).
Implicit Types (w : WebSocket) (m : incoming).

Lemma sendToClient_length w (x : WebSocketMessage tokenMetadata) :
  (length (sendToClient w x) <= 1)%nat.
Proof. unfold sendToClient. destruct (ready w); simpl; lia. Qed.

Lemma sendToClient_elem w (x : WebSocketMessage tokenMetadata)
    (p : sent tokenMetadata) :
  p ∈ sendToClient w x -> fst p = sock w.
Proof.
  unfold sendToClient.
  destruct (ready w); try (by intros ?%elem_of_nil).
  by intros ->%list_elem_of_singleton.
Qed.

(** What [handleMessage] can do to the registry: nothing, or put a
    client with the same socket in the place of the sender's. *)
Lemma handleMessage_registry w m clients :
  fst (handleMessage (tokenMetadata:=tokenMetadata) w m clients) = clients \/
  exists client c',
    clientOf w clients = Some client /\ ws c' = ws client /\
    (textual m -> coherent client -> coherent c') /\
    fst (handleMessage (tokenMetadata:=tokenMetadata) w m clients)
    = map (fun c0 => if bool_decide (sock (ws c0) = sock (ws c'))
                     then c' else c0) clients.
Proof.
  unfold handleMessage.
  destruct m as [| |[] [a|]|[] form]; try (by left);
    destruct (clientOf w clients) as [client|] eqn:E; try (by left);
    right; pose proof (clientOf_Some _ _ _ E) as [Hin Hs].
  - exists client, (fst (handleSubscribeWallet (tokenMetadata:=tokenMetadata)
                           client a)).
    split_and!; [done|done|intros _; apply HubFacts.subscribe_coherent|].
    cbn [fst]. by apply (clientsSet_present _ clients client).
  - exists client, (fst (handleUnsubscribeWallet
                           (tokenMetadata:=tokenMetadata) client a)).
    split_and!; [done|done|intros _; apply HubFacts.unsubscribe_coherent|].
    cbn [fst]. by apply (clientsSet_present _ clients client).
  - exists client, (fst (subscribeRaw (tokenMetadata:=tokenMetadata)
                           client form)).
    split_and!; [done|done|by intros []|].
    cbn [fst]. by apply (clientsSet_present _ clients client).
  - exists client, (fst (unsubscribeRaw (tokenMetadata:=tokenMetadata)
                           client form)).
    split_and!; [done|done|by intros []|].
    cbn [fst]. by apply (clientsSet_present _ clients client).
Qed.

(** X23. A client message concerns its sender alone. Whatever arrives, the
    registry keeps its sockets in their order, every client on another
    socket stays as it is, at most one frame is sent, and it goes to
    the sender's socket. *)
Theorem message_concerns_sender_only w m clients :
  let r := handleMessage (tokenMetadata:=tokenMetadata) w m clients in
  map (fun c => sock (ws c)) (fst r) = map (fun c => sock (ws c)) clients /\
  (forall (i : nat) c, clients !! i = Some c -> sock (ws c) <> sock w ->
     fst r !! i = Some c) /\
  (length (snd r) <= 1)%nat /\
  (forall p, p ∈ snd r -> fst p = sock w).
Proof.
  cbv zeta. split_and!.
  - destruct (handleMessage_registry w m clients)
      as [->|(client & c' & _ & _ & _ & ->)]; [done|].
    apply replace_sockets.
  - intros i c Hi Hne.
    destruct (handleMessage_registry w m clients)
      as [->|(client & c' & Hcl & Hws & _ & ->)]; [done|].
    apply clientOf_Some in Hcl as [_ Hs].
    rewrite list_lookup_fmap, Hi. cbn.
    rewrite bool_decide_eq_false_2; [done|]. rewrite Hws. congruence.
  - unfold handleMessage, sendError.
    destruct m as [| |[] [a|]|[] form]; cbv zeta;
      try destruct (clientOf w clients) as [client|];
      cbn [snd handleSubscribeWallet handleUnsubscribeWallet subscribeRaw
           unsubscribeRaw length];
      first [ apply sendToClient_length | lia ].
  - intros p.
    unfold handleMessage, sendError.
    destruct m as [| |[] [a|]|[] form]; cbv zeta;
      try (destruct (clientOf w clients) as [client|] eqn:E;
           [apply clientOf_Some in E as [_ E]|]);
      cbn [snd handleSubscribeWallet handleUnsubscribeWallet subscribeRaw
           unsubscribeRaw];
      try (by intros ?%elem_of_nil);
      intros ->%sendToClient_elem; done.
Qed.

(** X24. The three handlers keep the registry keyed by socket, whatever
    arrives. They keep the two sets of every client in step as well, on
    the strings they hold, but for one kind of message: a subscribe or
    an unsubscribe whose [walletAddress] is not a string, which changes
    the tags and leaves the strings of the other set as they were. *)
Theorem handlers_keep_registry (dbFails : dbOp -> bool) (d : db) w m
    clients :
  wellFormed clients ->
  wellFormed (fst (handleConnection getTokenMetadata dbFails d w clients)) /\
  wellFormed (handleDisconnection w clients) /\
  NoDup (map (fun c => sock (ws c))
           (fst (handleMessage (tokenMetadata:=tokenMetadata) w m
                   clients))) /\
  (textual m ->
   wellFormed (fst (handleMessage (tokenMetadata:=tokenMetadata) w m
                      clients))).
Proof.
  intros Hwf. split_and!.
  - cbn [handleConnection fst]. apply clientsSet_wellFormed; [|done].
    apply HubFacts.new_client_coherent.
  - unfold handleDisconnection.
    destruct (clientOf w clients) as [c0|]; [|done].
    destruct Hwf as [Hnd Hco]. split; [by apply clientsDelete_keyed|].
    unfold clientsDelete.
    rewrite Forall_forall in Hco |- *. intros c Hc.
    apply list_elem_of_filter in Hc as [_ Hc]. by apply Hco.
  - destruct Hwf as [Hnd _].
    destruct (handleMessage_registry w m clients)
      as [->|(client & c' & _ & _ & _ & ->)]; [done|].
    by rewrite replace_sockets.
  - intros Htext.
    destruct (handleMessage_registry w m clients)
      as [->|(client & c' & Hcl & Hws & Hcoh & ->)]; [done|].
    apply clientOf_Some in Hcl as [Hin Hs].
    destruct Hwf as [Hnd Hco]. split.
    + by rewrite replace_sockets.
    + rewrite Forall_forall in Hco |- *. intros c Hc.
      apply list_elem_of_fmap in Hc as (c0 & -> & Hc0).
      case_bool_decide; [|by apply Hco]. apply Hcoh; [done|]. by apply Hco.
Qed.

(** *** What reaches a socket *)

Lemma broadcastUserUpdate_kind (dbFails : dbOp -> bool) (d : db)
    (a : string) clients (s : nat) (k : MessageType) :
  k <> USERS_UPDATE ->
  framesTo s k (broadcastUserUpdate getTokenMetadata dbFails d a clients)
  = 0%nat.
Proof.
  intros Hk. unfold broadcastUserUpdate.
  destruct (query _ _ _ _) as [[|u ?]|?]; try done.
  destruct (assemble _ _ _ _) as [x|?]; [|done].
  by apply HubFacts.framesTo_broadcastToAll_other_kind.
Qed.

Lemma broadcastUserUpdate_absent (dbFails : dbOp -> bool) (d : db)
    (a : string) clients (s : nat) (k : MessageType) :
  s ∉ map (fun c => sock (ws c)) clients ->
  framesTo s k (broadcastUserUpdate getTokenMetadata dbFails d a clients)
  = 0%nat.
Proof.
  intros Hs. unfold broadcastUserUpdate.
  destruct (query _ _ _ _) as [[|u ?]|?]; try done.
  destruct (assemble _ _ _ _) as [x|?]; [|done].
  by apply (HubFacts.framesTo_walk_absent (fun _ => true)).
Qed.

(** The wallet frames an event hands to the socket of a registered
    client: one if the client is connected and has the wallet in its
    set, none otherwise, whatever the store does. *)
Lemma deliver_wallet_frames (dbFails : dbOp -> bool) (d : db)
    (ev : event) clients c :
  NoDup (map (fun c => sock (ws c)) clients) -> c ∈ clients ->
  let a := match ev with EvTrade a _ _ | EvPnl a _ => a end in
  let k := match ev with EvTrade _ _ _ => TRADE_UPDATE
                       | EvPnl _ _ => PNL_UPDATE end in
  framesTo (sock (ws c)) k (deliver getTokenMetadata dbFails d ev clients)
  = if bool_decide (a ∈ walletAddresses c) && bool_decide (connected c)
    then 1%nat else 0%nat.
Proof.
  intros Hnd Hc. cbv zeta. destruct ev as [a id t|a p]; cbn [deliver].
  - unfold handleTradeUpdate.
    rewrite HubFacts.framesTo_app, HubFacts.subscribed_walk.
    rewrite (HubFacts.framesTo_walk _
      {| msg_type := TRADE_UPDATE; data := TradeData a id t |}) by done.
    rewrite broadcastUserUpdate_kind by done. lia.
  - unfold handlePnLUpdate, broadcastToWalletSubscribers.
    rewrite HubFacts.framesTo_app.
    rewrite (HubFacts.framesTo_walk _
      {| msg_type := PNL_UPDATE; data := PnlData a p |}) by done.
    rewrite broadcastUserUpdate_kind by done. lia.
Qed.

Lemma deliver_absent (dbFails : dbOp -> bool) (d : db) (ev : event)
    clients (s : nat) (k : MessageType) :
  s ∉ map (fun c => sock (ws c)) clients ->
  framesTo s k (deliver getTokenMetadata dbFails d ev clients) = 0%nat.
Proof.
  intros Hs. destruct ev as [a id t|a p]; cbn [deliver].
  - unfold handleTradeUpdate.
    rewrite HubFacts.framesTo_app, HubFacts.subscribed_walk.
    rewrite HubFacts.framesTo_walk_absent by done.
    by rewrite broadcastUserUpdate_absent.
  - unfold handlePnLUpdate, broadcastToWalletSubscribers.
    rewrite HubFacts.framesTo_app.
    rewrite HubFacts.framesTo_walk_absent by done.
    by rewrite broadcastUserUpdate_absent.
Qed.

(** X25. Once a socket is closed and [handleDisconnection] has run, no event
    hands it a frame of any kind, whatever the store does. *)
Theorem nothing_after_disconnect (dbFails : dbOp -> bool) (d : db)
    (ev : event) w clients (k : MessageType) :
  framesTo (sock w) k
    (deliver getTokenMetadata dbFails d ev (handleDisconnection w clients))
  = 0%nat.
Proof.
  apply deliver_absent. unfold handleDisconnection.
  destruct (clientOf w clients) as [c0|] eqn:E; [|by apply clientOf_None].
  unfold clientsDelete. intros Hin.
  apply list_elem_of_fmap in Hin as (c & Hs & Hc).
  by apply list_elem_of_filter in Hc as [Hne _].
Qed.

(** X26. A client that has just connected is sent no wallet frame: with the
    registry keyed by socket, an event gives its socket no
    [TRADE_UPDATE] and no [PNL_UPDATE], also when the socket was in the
    registry before with wallets in its set, since registering
    replaces the entry by one with two empty sets. *)
Theorem no_wallet_frames_on_connect (dbFails : dbOp -> bool) (d : db)
    (ev : event) w clients :
  NoDup (map (fun c => sock (ws c)) clients) ->
  let clients' :=
    fst (handleConnection getTokenMetadata dbFails d w clients) in
  clientOf w clients'
    = Some {| ws := w; walletAddresses := ∅; subscriptions := ∅ |} /\
  framesTo (sock w) TRADE_UPDATE
    (deliver getTokenMetadata dbFails d ev clients') = 0%nat /\
  framesTo (sock w) PNL_UPDATE
    (deliver getTokenMetadata dbFails d ev clients') = 0%nat.
Proof.
  intros Hnd clients'.
  set (c := {| ws := w; walletAddresses := ∅; subscriptions := ∅ |}).
  assert (Hnd' : NoDup (map (fun c => sock (ws c)) clients')).
  { unfold clients'. cbn [handleConnection fst].
    rewrite clientsSet_sockets. case_bool_decide as Hin; [done|].
    apply NoDup_app. split_and!; [done| |apply NoDup_singleton].
    intros x Hx Hx'. by apply list_elem_of_singleton in Hx' as ->. }
  assert (Hc : c ∈ clients').
  { unfold clients'. cbn [handleConnection fst]. fold c.
    unfold clientsSet. case_bool_decide as Hex.
    - apply Exists_exists in Hex as (c0 & Hc0 & Hs).
      apply list_elem_of_fmap. exists c0.
      by rewrite bool_decide_eq_true_2.
    - set_solver. }
  split; [by apply clientOf_keyed|].
  assert (Hcount : forall ev' k,
    k = match ev' with EvTrade _ _ _ => TRADE_UPDATE
                     | EvPnl _ _ => PNL_UPDATE end ->
    framesTo (sock w) k (deliver getTokenMetadata dbFails d ev' clients')
    = 0%nat).
  { intros ev' k ->. change (sock w) with (sock (ws c)).
    rewrite (deliver_wallet_frames dbFails d ev' clients' c Hnd' Hc).
    rewrite bool_decide_eq_false_2; [done|]. unfold c. cbn. set_solver. }
  destruct ev as [a id t|a p]; split.
  - by apply (Hcount (EvTrade a id t)).
  - unfold deliver, handleTradeUpdate.
    rewrite HubFacts.framesTo_app, HubFacts.subscribed_walk.
    rewrite HubFacts.framesTo_walk_other_kind by done.
    by rewrite broadcastUserUpdate_kind.
  - unfold deliver, handlePnLUpdate, broadcastToWalletSubscribers.
    rewrite HubFacts.framesTo_app.
    rewrite HubFacts.framesTo_walk_other_kind by done.
    by rewrite broadcastUserUpdate_kind.
  - by apply (Hcount (EvPnl a p)).
Qed.

(** X27. Subscribing and unsubscribing. A connected client of a
    well-formed registry subscribes to a wallet it does not follow: the
    one frame sent is the acknowledgement; a trade event for the wallet,
    which gave its socket no [TRADE_UPDATE] before, now gives it exactly
    one. It unsubscribes: the acknowledgement again, the registry is
    exactly what it was before the two messages, and the event gives
    the socket none. *)
Theorem subscribe_then_unsubscribe (dbFails : dbOp -> bool) (d : db) w
    (a : string) (id : Z) (trade : tradeData) clients c :
  wellFormed clients ->
  clientOf w clients = Some c ->
  connected c ->
  a ∉ walletAddresses c ->
  let r1 := handleMessage (tokenMetadata:=tokenMetadata) w
              (Frame Subscribe (Some a)) clients in
  let r2 := handleMessage (tokenMetadata:=tokenMetadata) w
              (Frame Unsubscribe (Some a)) (fst r1) in
  let tradeTo := fun cs =>
    framesTo (sock w) TRADE_UPDATE
      (deliver getTokenMetadata dbFails d (EvTrade a id trade) cs) in
  snd r1 = [(sock w, {| msg_type := SUBSCRIBE_WALLET;
                        data := Ack a true |})] /\
  tradeTo clients = 0%nat /\
  tradeTo (fst r1) = 1%nat /\
  snd r2 = [(sock w, {| msg_type := UNSUBSCRIBE_WALLET;
                        data := Ack a true |})] /\
  fst r2 = clients /\
  tradeTo (fst r2) = 0%nat.
Proof.
  intros [Hnd Hco] Hcl Hconn Ha r1 r2 tradeTo.
  pose proof (clientOf_Some _ _ _ Hcl) as [Hin Hs].
  set (c1 := fst (handleSubscribeWallet (tokenMetadata:=tokenMetadata) c a)).
  assert (Hr1 : r1 = (map (fun c0 =>
                        if bool_decide (sock (ws c0) = sock (ws c1))
                        then c1 else c0) clients,
                      snd (handleSubscribeWallet c a))).
  { unfold r1, handleMessage. rewrite Hcl. cbv zeta. f_equal.
    by apply (clientsSet_present _ clients c). }
  assert (Hnd1 : NoDup (map (fun c => sock (ws c)) (fst r1)))
    by (by rewrite Hr1; cbn [fst]; rewrite replace_sockets).
  assert (Hin1 : c1 ∈ fst r1).
  { rewrite Hr1. cbn [fst]. apply list_elem_of_fmap. exists c.
    by rewrite bool_decide_eq_true_2. }
  assert (Hcl1 : clientOf w (fst r1) = Some c1)
    by (by apply clientOf_keyed).
  assert (Hsub : ("wallet:" +:+ a)%string ∉ subscriptions c).
  { rewrite Forall_forall in Hco. by rewrite <- (Hco c Hin a). }
  assert (Hback : fst (handleUnsubscribeWallet
                         (tokenMetadata:=tokenMetadata) c1 a) = c).
  { destruct c as [wc W S]. cbn in *. f_equal; set_solver. }
  assert (Hr2 : fst r2 = clients).
  { unfold r2, handleMessage. rewrite Hcl1. cbv zeta. cbn [fst].
    rewrite Hback, (clientsSet_present c (fst r1) c1 Hin1) by done.
    rewrite Hr1. cbn [fst]. rewrite map_map.
    apply StoreFacts.map_id_on. intros c0 Hc0.
    destruct (decide (sock (ws c0) = sock (ws c))) as [E|E].
    - rewrite (bool_decide_eq_true_2 (sock (ws c0) = sock (ws c1)) E).
      rewrite bool_decide_eq_true_2 by done.
      by apply (keyed_unique clients).
    - rewrite (bool_decide_eq_false_2 (sock (ws c0) = sock (ws c1)) E).
      by rewrite bool_decide_eq_false_2. }
  assert (Hopen : ready (ws c) = OPEN) by exact Hconn.
  split_and!.
  - rewrite Hr1. cbn [snd handleSubscribeWallet]. unfold sendToClient.
    by rewrite Hopen, Hs.
  - unfold tradeTo. rewrite <- Hs.
    rewrite (deliver_wallet_frames dbFails d (EvTrade a id trade)
               clients c Hnd Hin).
    by rewrite bool_decide_eq_false_2.
  - unfold tradeTo.
    replace (sock w) with (sock (ws c1)) by done.
    rewrite (deliver_wallet_frames dbFails d (EvTrade a id trade)
               (fst r1) c1 Hnd1 Hin1).
    rewrite bool_decide_eq_true_2 by (cbn; set_solver).
    by rewrite bool_decide_eq_true_2.
  - unfold r2, handleMessage. rewrite Hcl1. cbv zeta.
    cbn [snd handleUnsubscribeWallet]. unfold sendToClient.
    cbn [c1 handleSubscribeWallet fst ws]. by rewrite Hopen, Hs.
  - exact Hr2.
  - unfold tradeTo. rewrite Hr2, <- Hs.
    rewrite (deliver_wallet_frames dbFails d (EvTrade a id trade)
               clients c Hnd Hin).
    by rewrite bool_decide_eq_false_2.
Qed.
End Handlers.

Lemma handlers_keep_registry_witness :
  wellFormed (fst (handleMessage (tokenMetadata:=unit)
                     (ws Scenario.clientA)
                     (Frame Subscribe (Some Scenario.W2))
                     [Scenario.clientA])).
Proof.
  assert (H0 : wellFormed [Scenario.clientA]).
  { split.
    - apply (bool_decide_unpack _). vm_compute. exact I.
    - apply Forall_singleton, HubFacts.clientA_coherent. }
  exact (proj2 (proj2 (proj2
           (handlers_keep_registry (fun _ : string => tt)
              (fun _ => false) Scenario.dbTwoUsers
              (ws Scenario.clientA)
              (Frame Subscribe (Some Scenario.W2))
              [Scenario.clientA] H0))) I).
Defined.

(** A subscribe with the number 5 as [walletAddress] is acknowledged
    and adds the tag "wallet:5", while no string joins the other set:
    the two sets of the client are out of step. *)
Lemma number_subscription_out_of_step :
  let r := handleMessage (tokenMetadata:=unit) (ws Scenario.clientA)
             (FrameRaw Subscribe "5") [Scenario.clientA] in
  snd r = [(1%nat, {| msg_type := SUBSCRIBE_WALLET;
                      data := AckRaw "5" true |})] /\
  ~ wellFormed (fst r).
Proof.
  cbv zeta. split; [reflexivity|].
  set (c' := {| ws := ws Scenario.clientA;
                walletAddresses := walletAddresses Scenario.clientA;
                subscriptions :=
                  {["wallet:5"]} ∪ subscriptions Scenario.clientA |}).
  assert (E : fst (handleMessage (tokenMetadata:=unit)
                     (ws Scenario.clientA) (FrameRaw Subscribe "5")
                     [Scenario.clientA]) = [c']) by reflexivity.
  rewrite E. intros [_ Hco]. rewrite Forall_singleton in Hco.
  destruct (Hco "5") as [_ Hback].
  assert (Hin : "5" ∈ walletAddresses c').
  { apply Hback. cbn. set_solver. }
  cbn in Hin. apply elem_of_singleton in Hin. discriminate.
Qed.

Lemma no_wallet_frames_on_connect_witness :
  framesTo 1 TRADE_UPDATE
    (deliver (fun m : string => m) (fun _ => false) Scenario.dbTwoUsers
       (EvTrade Scenario.W1 0 (Scenario.buyValues "sigBuy" Scenario.W1))
       (fst (handleConnection (fun m : string => m) (fun _ => false)
               Scenario.dbTwoUsers (ws Scenario.clientA)
               [Scenario.clientA; Scenario.clientB]))) = 0%nat.
Proof.
  assert (Hnd : NoDup (map (fun c => sock (ws c))
                         [Scenario.clientA; Scenario.clientB])).
  { apply (bool_decide_unpack _). vm_compute. exact I. }
  exact (proj1 (proj2 (no_wallet_frames_on_connect (fun m : string => m)
                         (fun _ => false) Scenario.dbTwoUsers
                         (EvTrade Scenario.W1 0
                            (Scenario.buyValues "sigBuy" Scenario.W1))
                         (ws Scenario.clientA)
                         [Scenario.clientA; Scenario.clientB] Hnd))).
Defined.

Lemma subscribe_then_unsubscribe_witness :
  let r1 := handleMessage (tokenMetadata:=string) (ws Scenario.clientA)
              (Frame Subscribe (Some Scenario.W2)) [Scenario.clientA] in
  framesTo 1 TRADE_UPDATE
    (deliver (fun m : string => m) (fun _ => false) Scenario.dbTwoUsers
       (EvTrade Scenario.W2 0 (Scenario.buyValues "sigBuy" Scenario.W2))
       (fst r1)) = 1%nat /\
  fst (handleMessage (tokenMetadata:=string) (ws Scenario.clientA)
         (Frame Unsubscribe (Some Scenario.W2)) (fst r1))
  = [Scenario.clientA].
Proof.
  assert (H0 : wellFormed [Scenario.clientA]).
  { split.
    - apply (bool_decide_unpack _). vm_compute. exact I.
    - apply Forall_singleton, HubFacts.clientA_coherent. }
  assert (Hw : Scenario.W2 ∉ walletAddresses Scenario.clientA).
  { unfold Scenario.clientA. simpl. apply not_elem_of_singleton.
    discriminate. }
  destruct (subscribe_then_unsubscribe (fun m : string => m)
              (fun _ => false) Scenario.dbTwoUsers (ws Scenario.clientA)
              Scenario.W2 0 (Scenario.buyValues "sigBuy" Scenario.W2)
              [Scenario.clientA] Scenario.clientA H0 eq_refl eq_refl Hw)
    as (_ & _ & H3 & _ & H5 & _).
  cbv zeta. split; [exact H3|exact H5].
Defined.

End SessionFacts.

(** ** The polling cycle *)

Module CycleFacts.
Import Chain Store Monitor Laws Cycle.

#[local] Instance history_preorder : PreOrder history.
Proof.
  split.
  - intros s. unfold history. by split_and!.
  - intros s1 s2 s3 (A1 & A2 & A3 & A4 & A5) (B1 & B2 & B3 & B4 & B5).
    unfold history. split_and!; try (by etrans); congruence.
Qed.

Lemma grows_history (s s' : state) : grows s s' -> history s s'.
Proof. intros (H1 & H2 & H3 & H4 & H5 & _). by unfold history. Qed.

Lemma history_same_store (s s' : state) :
  database s' = database s -> emitted s' = emitted s ->
  processedTransactions s ⊆ processedTransactions s' ->
  history s s'.
Proof. intros Hd He Hp. unfold history. rewrite Hd, He. by split_and!. Qed.

(** *** Loops *)

Section Loops.
Context {A : Type}.

Lemma forEachM_preserves (I : state -> Prop) (f : A -> M unit)
    (l : list A) :
  (forall x, x ∈ l -> preserves I (f x)) -> preserves I (forEachM f l).
Proof.
  induction l as [|x l IH]; intros Hf; cbn [forEachM].
  - apply PipelineFacts.preserves_ret.
  - apply PipelineFacts.preserves_bind; [apply Hf; set_solver|].
    intros _. apply IH. intros y Hy. apply Hf. set_solver.
Qed.

Lemma forEachM_along (R : state -> state -> Prop) `{!PreOrder R}
    (f : A -> M unit) (l : list A) :
  (forall x, along R (f x)) -> along R (forEachM f l).
Proof.
  intros Hf. induction l as [|x l IH]; cbn [forEachM].
  - apply GrowthFacts.along_ret, _.
  - apply GrowthFacts.along_bind; [apply _|apply Hf|intros _; exact IH].
Qed.
End Loops.

(** *** Loading the active wallets *)

Lemma insertSorted_elem {A} (before : A -> A -> bool) (x y : A)
    (l : list A) :
  x ∈ insertSorted before y l <-> x = y \/ x ∈ l.
Proof.
  induction l as [|z l IH]; cbn [insertSorted]; [set_solver|].
  destruct (before y z); [set_solver|].
  rewrite !elem_of_cons, IH. tauto.
Qed.

Lemma stableSort_elem {A} (before : A -> A -> bool) (x : A) (l : list A) :
  x ∈ stableSort before l <-> x ∈ l.
Proof.
  unfold stableSort. induction l as [|y l IH]; [done|].
  cbn [foldr]. rewrite insertSorted_elem, IH. set_solver.
Qed.

Lemma selectRecentTrades_elem (w : string) (d : db) (r : tradeRow) :
  r ∈ selectRecentTrades w d ->
  r ∈ trades d /\ trade_walletAddress (trade_values r) = w.
Proof.
  unfold selectRecentTrades. intros Hr.
  apply subseteq_take, stableSort_elem in Hr.
  by apply list_elem_of_filter in Hr as [? ?].
Qed.

Lemma addProcessed_fold (txs : list tradeRow) (s0 : state) :
  let s1 := fold_left
              (fun s r => addProcessed (signature (trade_values r)) s)
              txs s0 in
  database s1 = database s0 /\ dailyPnLCache s1 = dailyPnLCache s0 /\
  emitted s1 = emitted s0 /\ activeWallets s1 = activeWallets s0 /\
  forall x, x ∈ processedTransactions s1 <->
            x ∈ processedTransactions s0 \/
            x ∈ map (fun r => signature (trade_values r)) txs.
Proof.
  revert s0. induction txs as [|r txs IH]; intros s0; cbn [fold_left map].
  - split_and!; try done. set_solver.
  - destruct (IH (addProcessed (signature (trade_values r)) s0))
      as (H1 & H2 & H3 & H4 & H5).
    split_and!; try done.
    intros x. rewrite H5. cbn [addProcessed processedTransactions].
    set_solver.
Qed.

Lemma addUser_fold (us : list userRow)
    (acc : gmap string walletInfo * list string) :
  let r := fold_left addUser us acc in
  (forall w, w ∉ map user_walletAddress us -> fst r !! w = fst acc !! w) /\
  (forall w, w ∈ map user_walletAddress us ->
     exists u, u ∈ us /\ user_walletAddress u = w /\
       fst r !! w = Some {| userId := Some (user_id u);
                            lastSignature := None |}) /\
  (forall w, w ∈ snd r ->
     w ∈ snd acc \/
     (w ∈ map user_walletAddress us /\ fst acc !! w = None)).
Proof.
  revert acc. induction us as [|u us IH]; intros acc; cbn [fold_left map].
  - split_and!; try done.
    + intros w Hw. by apply elem_of_nil in Hw.
    + intros w Hw. by left.
  - destruct (IH (addUser acc u)) as (H1 & H2 & H3).
    split_and!.
    + intros w Hw. rewrite H1 by set_solver.
      cbn [addUser fst]. apply lookup_insert_ne. set_solver.
    + intros w Hw.
      destruct (decide (w ∈ map user_walletAddress us)) as [Hin|Hout].
      * destruct (H2 w Hin) as (u' & Hu' & Hw' & Hl).
        exists u'. split_and!; [set_solver|done|done].
      * assert (w = user_walletAddress u) as -> by set_solver.
        exists u. split_and!; [set_solver|done|].
        rewrite H1 by done. cbn [addUser fst]. apply lookup_insert_eq.
    + intros w Hw. destruct (H3 w Hw) as [Hacc|[Hin Hnone]].
      * cbn [addUser snd] in Hacc.
        destruct (fst acc !! user_walletAddress u) eqn:E; [by left|].
        apply elem_of_app in Hacc as [?|Hw']; [by left|].
        apply list_elem_of_singleton in Hw' as ->.
        right. split; [set_solver|done].
      * cbn [addUser fst] in Hnone.
        apply lookup_insert_None in Hnone as [Hnone Hne].
        right. split; [set_solver|done].
Qed.

Section Loading.
Variable usersQueryFails : bool.
Variable recentQueryFails : string -> bool.

Lemma loadRecent_loaded (s : state) (m : gmap string walletInfo)
    (news : list string) (w : string) :
  w ∈ news -> is_Some (m !! w) ->
  preserves (loaded s m news) (loadRecent recentQueryFails w).
Proof.
  intros Hw Hm s2 (J1 & J2 & J3 & J4 & J5 & J6 & J7 & J8).
  unfold loadRecent, recentTrades, bind, modify.
  destruct (recentQueryFails w); [by unfold loaded|].
  set (txs := selectRecentTrades w (database s2)).
  destruct (addProcessed_fold txs s2) as (F1 & F2 & F3 & F4 & F5).
  set (s3 := fold_left _ txs s2) in *.
  assert (Hstored : forall r, r ∈ txs ->
            storedFor w (signature (trade_values r)) (database s)).
  { intros r Hr. unfold txs in Hr. rewrite J1 in Hr.
    apply selectRecentTrades_elem in Hr as [? ?]. by exists r. }
  assert (J3' : loaded s m news s3).
  { unfold loaded. rewrite F1, F2, F3, F4. split_and!; try done.
    - intros x Hx. apply F5. left. by apply J4.
    - intros x Hx. apply F5 in Hx as [Hx|Hx]; [by apply J5|].
      apply list_elem_of_fmap in Hx as (r & -> & Hr).
      right. exists w. split; [done|by apply Hstored].
    - intros w' info sig Hl Hsig.
      destruct (J8 w' info sig Hl Hsig) as (? & ? & ?).
      split_and!; try done. apply F5. by left. }
  destruct txs as [|r rest] eqn:Etxs; [exact J3'|].
  cbn [ret snd].
  destruct J3' as (K1 & K2 & K3 & K4 & K5 & K6 & K7 & K8).
  assert (Hr : signature (trade_values r) ∈ processedTransactions s3).
  { apply F5. right. cbn [map]. set_solver. }
  unfold loaded, setLastSignature.
  cbn [setActive database dailyPnLCache emitted processedTransactions
       activeWallets].
  split_and!; try done.
  - intros w' Hw'. rewrite lookup_insert_ne by set_solver. by apply K6.
  - intros w'. destruct (decide (w' = w)) as [->|Hne].
    + rewrite lookup_insert_eq. rewrite <- K7.
      specialize (K7 w). destruct Hm as [i Hi]. rewrite Hi in K7.
      destruct (activeWallets s3 !! w) as [i'|]; [done|discriminate].
    + rewrite lookup_insert_ne by done. apply K7.
  - intros w' info sig. destruct (decide (w' = w)) as [->|Hne].
    + rewrite lookup_insert_eq. intros [= <-]. cbn [lastSignature].
      intros [= <-]. split_and!; [done|done|].
      apply Hstored. set_solver.
    + rewrite lookup_insert_ne by done. apply K8.
Qed.

(** X28. Loading the active wallets. If the query for the live users
    succeeds the method returns, whatever the queries for recent trades
    do. It leaves the store, the PnL cache and the events alone. The
    active wallets are then exactly the wallets of the live users, each
    with the id of such a user. A wallet that was active before, and
    still is, has no [lastSignature] any more: the entry is written
    anew as [{ userId }]. Where a [lastSignature] is set, it is the
    signature of a stored trade of that wallet, and it is among the
    seen signatures; these have only grown, by signatures of stored
    trades. *)
Theorem load_active_wallets (s : state) :
  usersQueryFails = false ->
  exists s',
    loadActiveWallets usersQueryFails recentQueryFails s = (Ok tt, s') /\
    database s' = database s /\ dailyPnLCache s' = dailyPnLCache s /\
    emitted s' = emitted s /\
    processedTransactions s ⊆ processedTransactions s' /\
    (forall sig, sig ∈ processedTransactions s' ->
       sig ∈ processedTransactions s \/
       exists w, storedFor w sig (database s)) /\
    (forall w, is_Some (activeWallets s' !! w) <->
               exists u, liveWallet w (database s) u) /\
    (forall w info, activeWallets s' !! w = Some info ->
       exists u, liveWallet w (database s) u /\
                 userId info = Some (user_id u)) /\
    (forall w info, is_Some (activeWallets s !! w) ->
       activeWallets s' !! w = Some info -> lastSignature info = None) /\
    (forall w info sig, activeWallets s' !! w = Some info ->
       lastSignature info = Some sig ->
       sig ∈ processedTransactions s' /\ storedFor w sig (database s)).
Proof.
  intros Hok.
  set (us := selectLiveUsers (database s)).
  set (current := map user_walletAddress us).
  set (m0 := filter (fun kv : string * walletInfo => fst kv ∈ current)
               (activeWallets s)).
  set (r := fold_left addUser us (m0, [])).
  destruct (addUser_fold us (m0, [])) as (A1 & A2 & A3). fold r in A1, A2, A3.
  cbn [fst snd] in A1, A2, A3.
  assert (Hlive : forall w,
            w ∈ current <-> exists u, liveWallet w (database s) u).
  { intros w. unfold current, us, selectLiveUsers, liveWallet. split.
    - intros Hw. apply list_elem_of_fmap in Hw as (u & -> & Hu).
      apply list_elem_of_filter in Hu as [? ?]. by exists u.
    - intros (u & Hu & Hl & <-).
      apply (list_elem_of_fmap_2 user_walletAddress).
      by apply list_elem_of_filter. }
  assert (Hm : forall w info, fst r !! w = Some info ->
            w ∈ current /\ lastSignature info = None /\
            exists u, liveWallet w (database s) u /\
                      userId info = Some (user_id u)).
  { intros w info Hl.
    destruct (decide (w ∈ current)) as [Hin|Hout].
    - destruct (A2 w Hin) as (u & Hu & Hw & Hl').
      rewrite Hl in Hl'. injection Hl' as ->. split_and!; try done.
      exists u. split; [|done]. unfold us, selectLiveUsers in Hu.
      apply list_elem_of_filter in Hu as [? ?]. by unfold liveWallet.
    - rewrite (A1 w Hout) in Hl. unfold m0 in Hl.
      apply map_lookup_filter_Some in Hl as [_ Hc]. by cbn in Hc. }
  assert (Hnews : forall w, w ∈ snd r ->
            is_Some (fst r !! w) /\ activeWallets s !! w = None).
  { intros w Hw. destruct (A3 w Hw) as [Hn|[Hin Hnone]];
      [by apply elem_of_nil in Hn|].
    split.
    - destruct (A2 w Hin) as (u & _ & _ & ->). done.
    - unfold m0 in Hnone. apply map_lookup_filter_None in Hnone
        as [Hnone|Hnot]; [done|].
      destruct (activeWallets s !! w) as [i|] eqn:E; [|done].
      exfalso. by apply (Hnot i). }
  set (s1 := setActive (fst r) s).
  assert (J1 : loaded s (fst r) (snd r) s1).
  { unfold loaded, s1. cbn [setActive database dailyPnLCache emitted
      processedTransactions activeWallets].
    split_and!; try done; [by left|].
    intros w info sig Hl Hsig. destruct (Hm w info Hl) as (_ & Hn & _).
    congruence. }
  assert (Hrun : exists s',
    loadActiveWallets usersQueryFails recentQueryFails s = (Ok tt, s') /\
    loaded s (fst r) (snd r) s').
  { unfold loadActiveWallets, liveUsers, bind, gets, modify.
    rewrite Hok. cbv zeta. fold us. fold current. fold m0. fold r.
    fold s1.
    destruct (snd r) as [|w0 ws] eqn:Enews; [by exists s1|].
    unfold loadRecentTransactionsForWallets, tryCatch.
    assert (Hloop : loaded s (fst r) (w0 :: ws)
              (snd (forEachM (loadRecent recentQueryFails) (w0 :: ws) s1))).
    { apply forEachM_preserves; [|done]. intros w Hw.
      apply loadRecent_loaded; [done|]. exact (proj1 (Hnews w Hw)). }
    destruct (forEachM _ _ s1) as [[[]|x] s2]; by exists s2. }
  destruct Hrun as (s' & Hrun & J).
  destruct J as (K1 & K2 & K3 & K4 & K5 & K6 & K7 & K8).
  exists s'. split_and!; try done.
  - intros sig Hsig. destruct (K5 sig Hsig) as [?|(w & _ & ?)];
      [by left|right; by exists w].
  - intros w. rewrite <- Hlive. specialize (K7 w). split.
    + intros [info Hi]. rewrite Hi in K7.
      destruct (fst r !! w) as [i|] eqn:E; [|discriminate].
      by destruct (Hm w i E).
    + intros Hin. destruct (A2 w Hin) as (u & _ & _ & Hl).
      rewrite Hl in K7.
      destruct (activeWallets s' !! w); [done|discriminate].
  - intros w info Hl. specialize (K7 w). rewrite Hl in K7.
    destruct (fst r !! w) as [i|] eqn:E; [|discriminate].
    destruct (Hm w i E) as (_ & _ & u & Hu & Hid).
    exists u. split; [done|]. cbn in K7. congruence.
  - intros w info Hold Hl.
    assert (Hout : w ∉ snd r).
    { intros Hin. destruct (Hnews w Hin) as [_ Hnone].
      rewrite Hnone in Hold. by destruct Hold. }
    rewrite (K6 w Hout) in Hl. by destruct (Hm w info Hl) as (_ & ? & _).
  - intros w info sig Hl Hsig.
    by destruct (K8 w info sig Hl Hsig) as (_ & ? & ?).
Qed.
Lemma loadActiveWallets_history :
  along history (loadActiveWallets usersQueryFails recentQueryFails).
Proof.
  unfold loadActiveWallets, liveUsers. cbv zeta.
  apply GrowthFacts.along_bind; [apply _| |intros us].
  { intros s. destruct usersQueryFails; reflexivity. }
  apply GrowthFacts.along_bind;
    [apply _|apply GrowthFacts.along_gets, _|intros loaded].
  apply GrowthFacts.along_bind; [apply _| |intros _].
  { apply GrowthFacts.along_modify. intros s0.
    by apply history_same_store. }
  destruct (snd loaded) as [|w0 ws]; [apply GrowthFacts.along_ret, _|].
  unfold loadRecentTransactionsForWallets.
  apply GrowthFacts.along_tryCatch;
    [apply _| |intros _; apply GrowthFacts.along_ret, _].
  apply forEachM_along; [apply _|]. intros w. unfold loadRecent, recentTrades.
  apply GrowthFacts.along_bind; [apply _| |intros txs].
  { intros s. destruct (recentQueryFails w); reflexivity. }
  apply GrowthFacts.along_bind; [apply _| |intros _].
  - apply GrowthFacts.along_modify. intros s0.
    induction txs as [|r txs IH] using rev_ind; [reflexivity|].
    rewrite fold_left_app. cbn [fold_left].
    etrans; [exact IH|].
    apply history_same_store; try done. simpl. set_solver.
  - destruct txs as [|r0 txs]; [apply GrowthFacts.along_ret, _|].
    apply GrowthFacts.along_modify. intros s0.
    by apply history_same_store.
Qed.
End Loading.

Section Outside.
Variable e : env.
Variable usersQueryFails : bool.
Variable recentQueryFails : string -> bool.
Variable getSignaturesForAddress : string -> option (list string).
Variable getTransaction : string -> option (option Z).

(** The block times of a batch: all of them, or nothing. *)
Lemma mapM_blockTimeOf (sigs : list string) (s : state) :
  (Forall (fun sig => is_Some (getTransaction sig)) sigs /\
   mapM (blockTimeOf getTransaction) sigs s
   = (Ok (map (fun sig =>
             (sig, default 0%Z (default None (getTransaction sig)))) sigs),
      s)) \/
  (Exists (fun sig => getTransaction sig = None) sigs /\
   exists x, mapM (blockTimeOf getTransaction) sigs s = (Threw x, s)).
Proof.
  induction sigs as [|sig sigs IH]; cbn [mapM].
  - left. by split.
  - unfold bind.
    assert (Hhd : blockTimeOf getTransaction sig s
                  = match getTransaction sig with
                    | None => (Threw (RpcError sig), s)
                    | Some bt => (Ok (sig, default 0%Z bt), s)
                    end) by reflexivity.
    rewrite Hhd. clear Hhd.
    destruct (getTransaction sig) as [bt|] eqn:E.
    + destruct IH as [[Hall IH]|[Hex [x IH]]]; rewrite IH.
      * left. split; [apply Forall_cons; split; [by rewrite E|done]|].
        cbn [map ret]. by rewrite E.
      * right. split; [by apply Exists_cons_tl|by exists x].
    + right. split; [by apply Exists_cons_hd|by eexists].
Qed.

Lemma blockTimes_keep (I : state -> Prop) (sigs : list string) :
  preserves I (mapM (blockTimeOf getTransaction) sigs).
Proof.
  intros s Hs.
  by destruct (mapM_blockTimeOf sigs s) as [[_ ->]|[_ [x ->]]].
Qed.

Lemma blockTimes_along (R : state -> state -> Prop) `{!PreOrder R}
    (sigs : list string) :
  along R (mapM (blockTimeOf getTransaction) sigs).
Proof.
  intros s.
  by destruct (mapM_blockTimeOf sigs s) as [[_ ->]|[_ [x ->]]].
Qed.

(** *** Polling a wallet *)

(** X29. A look-up that fails costs the whole batch, and the wallet its
    marker. If [getTransaction] rejects for one signature of the list,
    no transaction of the list is processed: store, seen signatures,
    PnL cache and events are as before. The wallet's [lastSignature]
    has moved to the newest signature all the same, so that a later
    pass over the entry as it now is, the node listing the same
    signatures, skips the wallet. *)
Theorem failed_lookup_skips_batch (w : string) (info : walletInfo)
    (newest : string) (rest : list string) (s : state) :
  getSignaturesForAddress w = Some (newest :: rest) ->
  sameAsLast info newest = false ->
  newest <> "" ->
  Exists (fun sig => getTransaction sig = None) (newest :: rest) ->
  let poll := pollWallet e getSignaturesForAddress getTransaction in
  let s1 := run (poll (w, info)) s in
  s1 = setActive (<[w := {| userId := userId info;
                            lastSignature := Some newest |}]>
                    (activeWallets s)) s /\
  database s1 = database s /\
  processedTransactions s1 = processedTransactions s /\
  dailyPnLCache s1 = dailyPnLCache s /\
  emitted s1 = emitted s /\
  forall info1, activeWallets s1 !! w = Some info1 ->
    poll (w, info1) s1 = (Ok tt, s1).
Proof.
  intros Hsigs Hsame Hne Hbad poll s1.
  set (s0 := setActive (<[w := {| userId := userId info;
                                  lastSignature := Some newest |}]>
                          (activeWallets s)) s).
  assert (Hs1 : s1 = s0).
  { unfold s1, run, poll, pollWallet. cbv zeta. unfold tryCatch.
    cbn [fst snd]. rewrite Hsigs, Hsame.
    unfold bind at 1, modify. fold s0. unfold processTransactions, bind.
    destruct (mapM_blockTimeOf (newest :: rest) s0)
      as [[Hall _]|[_ [x ->]]]; [|done].
    exfalso. apply Exists_exists in Hbad as (sig & Hin & Hnone).
    rewrite Forall_forall in Hall. specialize (Hall sig Hin).
    rewrite Hnone in Hall. by destruct Hall. }
  rewrite Hs1. split_and!; try done.
  intros info1. unfold s0. cbn [setActive activeWallets].
  rewrite lookup_insert_eq. intros [= <-].
  unfold poll, pollWallet. cbv zeta. unfold tryCatch.
  cbn [fst snd]. rewrite Hsigs. unfold sameAsLast. cbn [lastSignature].
  rewrite (bool_decide_eq_false_2 _ Hne).
  by rewrite bool_decide_eq_true_2.
Qed.

(** *** What a cycle keeps *)

Section Kept.
Variable I : state -> Prop.
Hypothesis I_store : forall s s', database s' = database s -> I s -> I s'.
Hypothesis I_processTransaction :
  forall sig w bt, preserves I (processTransaction e sig w bt).

Lemma processTransactions_keeps (sigs : list string) (w : string) :
  preserves I (processTransactions e getTransaction sigs w).
Proof.
  unfold processTransactions.
  apply PipelineFacts.preserves_bind; [apply blockTimes_keep|].
  intros txs. apply forEachM_preserves. intros p _.
  apply I_processTransaction.
Qed.

Lemma pollWallet_keeps (entry : string * walletInfo) :
  preserves I (pollWallet e getSignaturesForAddress getTransaction entry).
Proof.
  unfold pollWallet. cbv zeta.
  apply PipelineFacts.preserves_tryCatch;
    [|intros _; apply PipelineFacts.preserves_ret].
  intros s Hs.
  destruct (getSignaturesForAddress (fst entry)) as [[|newest rest]|];
    try done.
  destruct (sameAsLast (snd entry) newest); [done|].
  apply (PipelineFacts.preserves_bind I); [|intros _|done].
  - apply PipelineFacts.preserves_modify. intros s0.
    by apply I_store.
  - apply processTransactions_keeps.
Qed.

Lemma loadActiveWallets_keeps :
  preserves I (loadActiveWallets usersQueryFails recentQueryFails).
Proof.
  unfold loadActiveWallets, liveUsers. cbv zeta.
  apply PipelineFacts.preserves_bind;
    [intros s Hs; by destruct usersQueryFails|intros us].
  apply PipelineFacts.preserves_bind;
    [apply PipelineFacts.preserves_gets|intros loaded].
  apply PipelineFacts.preserves_bind;
    [apply PipelineFacts.preserves_modify; intros s0; by apply I_store
    |intros _].
  destruct (snd loaded) as [|w0 ws]; [apply PipelineFacts.preserves_ret|].
  unfold loadRecentTransactionsForWallets.
  apply PipelineFacts.preserves_tryCatch;
    [|intros _; apply PipelineFacts.preserves_ret].
  apply forEachM_preserves. intros w _. unfold loadRecent, recentTrades.
  apply PipelineFacts.preserves_bind;
    [intros s Hs; by destruct (recentQueryFails w)|intros txs].
  apply PipelineFacts.preserves_bind; [|intros _].
  - apply PipelineFacts.preserves_modify. intros s0.
    apply I_store. clear.
    revert s0. induction txs as [|r txs IH]; intros s0; [done|].
    cbn [fold_left]. by rewrite IH.
  - destruct txs as [|r0 txs]; [apply PipelineFacts.preserves_ret|].
    apply PipelineFacts.preserves_modify. intros s0. by apply I_store.
Qed.

Lemma cycle_keeps (entriesOf : state -> list (string * walletInfo)) :
  preserves I (cycle e usersQueryFails recentQueryFails
                 getSignaturesForAddress getTransaction entriesOf).
Proof.
  unfold cycle.
  apply PipelineFacts.preserves_tryCatch;
    [|intros _; apply PipelineFacts.preserves_ret].
  apply PipelineFacts.preserves_bind; [apply loadActiveWallets_keeps|].
  intros _ s Hs. unfold fetchRecentTransactions.
  apply forEachM_preserves; [|done]. intros entry _.
  apply pollWallet_keeps.
Qed.
End Kept.

Lemma pollWallet_history (entry : string * walletInfo) :
  along history
    (pollWallet e getSignaturesForAddress getTransaction entry).
Proof.
  unfold pollWallet. cbv zeta.
  apply GrowthFacts.along_tryCatch;
    [apply _| |intros _; apply GrowthFacts.along_ret, _].
  intros s.
  destruct (getSignaturesForAddress (fst entry)) as [[|newest rest]|];
    try reflexivity.
  destruct (sameAsLast (snd entry) newest); [reflexivity|].
  apply (GrowthFacts.along_bind history _).
  - apply GrowthFacts.along_modify. intros s0.
    by apply history_same_store.
  - intros _. unfold processTransactions.
    apply GrowthFacts.along_bind;
      [apply _|apply blockTimes_along, _|intros txs].
    apply forEachM_along; [apply _|]. intros p s0.
    apply grows_history.
    apply GrowthFacts.processTransaction_along_grows.
Qed.

(** X30. One run of the polling callback never rejects and takes nothing
    back: it returns, the seen signatures, the events, the trade rows
    with their ids and signatures, the PnL rows with their keys and
    start balances and the users but for [lastActive] are all still
    there; and it keeps what the store had: signatures unique, one PnL
    row per wallet and day, every trade of one of the two shapes, no
    PnL row naming a trade. This is so for every order in which the
    wallets are visited and whatever the node and the store do. *)
Theorem cycle_keeps_the_store
    (entriesOf : state -> list (string * walletInfo)) (s : state) :
  let run_cycle := cycle e usersQueryFails recentQueryFails
                     getSignaturesForAddress getTransaction entriesOf in
  let s' := run run_cycle s in
  run_cycle s = (Ok tt, s') /\
  history s s' /\
  (indexed s -> indexed s') /\
  (keyed s -> keyed s') /\
  (classified s -> classified s') /\
  (noLastTrade s -> noLastTrade s').
Proof.
  cbv zeta. split_and!.
  - unfold run, cycle, tryCatch.
    destruct (bind _ _ s) as [[[]|x] s1]; reflexivity.
  - unfold run, cycle.
    apply (GrowthFacts.along_tryCatch history _);
      [|intros _; apply GrowthFacts.along_ret, _].
    apply GrowthFacts.along_bind;
      [apply _|apply loadActiveWallets_history|intros _].
    intros s0. unfold fetchRecentTransactions.
    apply forEachM_along; [apply _|]. apply pollWallet_history.
  - apply cycle_keeps;
      [intros ? ? Hd; unfold indexed, keyed, classified, noLastTrade;
       by rewrite Hd|].
    apply PipelineFacts.processTransaction_indexed.
  - apply cycle_keeps;
      [intros ? ? Hd; unfold indexed, keyed, classified, noLastTrade;
       by rewrite Hd|].
    apply AggregatorFacts.processTransaction_keyed.
  - apply cycle_keeps;
      [intros ? ? Hd; unfold indexed, keyed, classified, noLastTrade;
       by rewrite Hd|].
    apply PathFacts.processTransaction_classified.
  - apply cycle_keeps;
      [intros ? ? Hd; unfold indexed, keyed, classified, noLastTrade;
       by rewrite Hd|].
    apply SnapshotFacts.processTransaction_noLastTrade.
Qed.
End Outside.

Lemma failed_lookup_skips_batch_witness :
  let node := fun _ : string => Some ["sigBuy"; "sigOld"] in
  let times := fun sig : string =>
    if bool_decide (sig = "sigOld") then None
    else Some (Some Scenario.blockTime) in
  let info := {| userId := Some 1%Z; lastSignature := None |} in
  let s1 := run (pollWallet Scenario.healthy node times (Scenario.W1, info))
              Scenario.fresh in
  database s1 = database Scenario.fresh /\
  processedTransactions s1 = processedTransactions Scenario.fresh /\
  activeWallets s1 !! Scenario.W1
  = Some {| userId := Some 1%Z; lastSignature := Some "sigBuy" |}.
Proof.
  intros node times info s1.
  destruct (failed_lookup_skips_batch Scenario.healthy node times
              Scenario.W1 info "sigBuy" ["sigOld"] Scenario.fresh
              eq_refl eq_refl ltac:(discriminate)
              ltac:(apply Exists_cons_tl, Exists_cons_hd; reflexivity))
    as (H1 & H2 & H3 & _).
  split_and!; [exact H2|exact H3|].
  fold s1 in H1. rewrite H1. reflexivity.
Defined.

Lemma load_active_wallets_witness :
  exists s',
    loadActiveWallets false (fun _ => false) Scenario.fresh = (Ok tt, s') /\
    database s' = database Scenario.fresh /\
    activeWallets s' !! Scenario.W1
    = Some {| userId := Some 1%Z; lastSignature := None |}.
Proof.
  destruct (load_active_wallets false (fun _ => false) Scenario.fresh
              eq_refl) as (s' & H1 & H2 & _).
  exists s'. split_and!; [exact H1|exact H2|].
  injection H1 as <-. reflexivity.
Defined.

End CycleFacts.

(** ** Fan-out of a trade event *)

Module FanOutFacts.
Import Store Monitor Hub Carried.





Section FanOut.
Context {tokenMetadata : Type}.
Variable getTokenMetadata : string -> tokenMetadata.
Variable dbFails : dbOp -> bool.
Variable d : db.
Implicit Types (clients : list ClientConnection) (c : ClientConnection).



End FanOut.



End FanOutFacts.
